(** * Electrician tool: labor matcher and cost calculator

    A shallow embedding of [labor_matcher.py], of the numeric helpers and the
    parts loader of [cost_calculator.py] and of the pure parts of [app.py],
    [report_generator.py] and [price_scraper.py], with the properties of the
    matching-and-estimation engine stated over it.

    Modelling conventions.
    - Python [str] values are ASCII strings ([String.string]); code points
      above 127 are outside the model.
    - A Python [int] is a [Z].
    - The scores of the matcher are sums of integers and of [ratio * 0.3]
      for an integer ratio; they are kept as exact rationals ([Q]), the
      constant [0.3] being 3/10.  At the threshold [score > 20] the exact
      score and the binary64 score are compared on a grid of integer parts
      and similarity ratios ([binary64_threshold_agrees]).
    - The quantities and labor hours of [cost_calculator.py] are Python
      [float]s, that is IEEE 754 binary64 values: they are the [spec_float]
      of the Standard Library with 53 bits of precision and the exponent
      bound 1024, with signed zeros, infinities and NaN.  [float(s)] rounds
      the decimal numeral to the nearest binary64 value, a tie going to the
      even mantissa, and gives an infinity beyond the range; [*] and [/] are
      the correctly rounded operations [SFmul] and [SFdiv], which the
      Standard Library takes as the specification of its primitive floats.
    - [fuzz.token_set_ratio] comes from the third-party package [thefuzz] and
      is a parameter of the matcher: an integer-valued function of two
      strings.
    - [list.sort(key=..., reverse=True)] is Python's stable sort; it is
      modelled by a stable insertion sort, which returns the same list as any
      other stable sort on the same key. *)

From Stdlib Require Import String Ascii List ZArith QArith Qround Qminmax Qpower.
From Stdlib Require Import Lia Bool Permutation Sorted DecimalString.
From Stdlib Require PrimFloat Uint63 DecimalPos SpecFloat FloatOps FloatAxioms.
Import ListNotations.

Local Open Scope string_scope.
Local Open Scope Z_scope.

(** ** Python string builtins *)

Module Py.

(** The double-quote character, code point 34. *)
Definition dquote : ascii := "034"%char.

Definition code (c : ascii) : N := N_of_ascii c.

Definition in_range (lo hi : N) (c : ascii) : bool :=
  (N.leb lo (code c) && N.leb (code c) hi)%bool.

(** [str.isspace] on one ASCII character: TAB, LF, VT, FF, CR, the four
    separators FS, GS, RS, US, and the space.  The same set is what [\s]
    matches and what [str.strip] and [str.split] remove. *)
Definition is_space (c : ascii) : bool :=
  (in_range 9 13 c || in_range 28 32 c)%bool.

(** [\d] restricted to ASCII. *)
Definition is_digit (c : ascii) : bool := in_range 48 57 c.

Definition is_upper (c : ascii) : bool := in_range 65 90 c.
Definition is_lower (c : ascii) : bool := in_range 97 122 c.

(** [\w] restricted to ASCII: letters, digits and the underscore. *)
Definition is_word (c : ascii) : bool :=
  (is_digit c || is_upper c || is_lower c || N.eqb (code c) 95)%bool.

Definition lower_char (c : ascii) : ascii :=
  if is_upper c then ascii_of_N (code c + 32) else c.

(** [s.lower()] *)
Fixpoint lower (s : string) : string :=
  match s with
  | EmptyString => EmptyString
  | String c s' => String (lower_char c) (lower s')
  end.

Fixpoint lstrip (s : string) : string :=
  match s with
  | EmptyString => EmptyString
  | String c s' => if is_space c then lstrip s' else s
  end.

Fixpoint rstrip (s : string) : string :=
  match s with
  | EmptyString => EmptyString
  | String c s' =>
      match rstrip s' with
      | EmptyString => if is_space c then EmptyString else String c EmptyString
      | r => String c r
      end
  end.

(** [s.strip()] *)
Definition strip (s : string) : string := rstrip (lstrip s).

Fixpoint drop (n : nat) (s : string) : string :=
  match n, s with
  | O, _ => s
  | S _, EmptyString => EmptyString
  | S k, String _ s' => drop k s'
  end.

Definition head (s : string) : option ascii :=
  match s with
  | EmptyString => None
  | String c _ => Some c
  end.

Fixpoint last (s : string) : option ascii :=
  match s with
  | EmptyString => None
  | String c EmptyString => Some c
  | String _ s' => last s'
  end.

Definition is_empty (s : string) : bool :=
  match s with
  | EmptyString => true
  | String _ _ => false
  end.

(** [sub in s] *)
Fixpoint contains (sub s : string) : bool :=
  (prefix sub s ||
   match s with
   | EmptyString => false
   | String _ s' => contains sub s'
   end)%bool.

(** [s.replace(old, new)] for a non-empty [old]: the occurrences are taken
    from left to right and do not overlap.  [skip] counts the characters of
    the occurrence just replaced that are still to be passed over. *)
Fixpoint replace_from (old new : string) (skip : nat) (s : string) : string :=
  match s with
  | EmptyString => EmptyString
  | String c s' =>
      match skip with
      | S k => replace_from old new k s'
      | O =>
          if prefix old s
          then new ++ replace_from old new (Nat.pred (String.length old)) s'
          else String c (replace_from old new O s')
      end
  end.

Definition replace (old new s : string) : string := replace_from old new O s.

(** [s.split()]: the maximal runs of non-whitespace characters.  [word] is
    the run being read. *)
Fixpoint split_from (word : string) (s : string) : list string :=
  match s with
  | EmptyString => if is_empty word then [] else [word]
  | String c s' =>
      if is_space c
      then (if is_empty word then split_from EmptyString s'
            else word :: split_from EmptyString s')
      else split_from (word ++ String c EmptyString) s'
  end.

Definition split (s : string) : list string := split_from EmptyString s.

(** [sep.join(parts)] *)
Fixpoint join (sep : string) (parts : list string) : string :=
  match parts with
  | [] => EmptyString
  | [p] => p
  | p :: rest => p ++ sep ++ join sep rest
  end.

(** [x in xs] for a list of strings. *)
Definition mem (x : string) (xs : list string) : bool :=
  existsb (String.eqb x) xs.

(** [str(n)] for an [int]. *)
Definition str_of_int (n : Z) : string := NilZero.string_of_int (Z.to_int n).

End Py.

(** ** The regular expressions of the sources

    Every pattern of the two modules is a sequence of greedy character-class
    runs, literals and ordered alternatives in which giving characters back
    never turns a failed match into a successful one, so each is read
    deterministically from left to right. *)

Module Re.

(** A greedy run [cls*]: the longest prefix of [s] inside the class, and
    what follows it. *)
Fixpoint span (cls : ascii -> bool) (s : string) : string * string :=
  match s with
  | EmptyString => (EmptyString, EmptyString)
  | String c s' =>
      if cls c
      then let (run, rest) := span cls s' in (String c run, rest)
      else (EmptyString, s)
  end.

(** [re.sub(r'\s+', ' ', s)]; [in_run] tells that the previous character
    was whitespace already replaced. *)
Fixpoint sub_spaces (in_run : bool) (s : string) : string :=
  match s with
  | EmptyString => EmptyString
  | String c s' =>
      if Py.is_space c
      then (if in_run then sub_spaces true s' else String " " (sub_spaces true s'))
      else String c (sub_spaces false s')
  end.

Definition is_word_at (o : option ascii) : bool :=
  match o with
  | Some c => Py.is_word c
  | None => false
  end.

(** [\b] between two neighbours, either of which may be an end of the
    string: exactly one side is a word character. *)
Definition word_boundary (before after : option ascii) : bool :=
  xorb (is_word_at before) (is_word_at after).

(** [\b lit \b] matches at the start of [s], the character before [s]
    being [before]. *)
Definition bounded_at (lit : string) (before : option ascii) (s : string) : bool :=
  (word_boundary before (Py.head s)
   && prefix lit s
   && word_boundary (Py.last lit) (Py.head (Py.drop (String.length lit) s)))%bool.

(** [re.sub(r'\b' + re.escape(lit) + r'\b', repl, s)] for a non-empty
    [lit]: scan from the left, replace each match and resume after it. *)
Fixpoint sub_bounded_from (lit repl : string) (before : option ascii)
         (skip : nat) (s : string) : string :=
  match s with
  | EmptyString => EmptyString
  | String c s' =>
      match skip with
      | S k => sub_bounded_from lit repl (Some c) k s'
      | O =>
          if bounded_at lit before s
          then repl ++ sub_bounded_from lit repl (Some c)
                         (Nat.pred (String.length lit)) s'
          else String c (sub_bounded_from lit repl (Some c) O s')
      end
  end.

Definition sub_bounded (lit repl s : string) : string :=
  sub_bounded_from lit repl None O s.

(** [\d+\s+\d+/\d+] at the start of [s]: the matched text and the rest. *)
Definition mixed_number (s : string) : option (string * string) :=
  let (whole, r1) := span Py.is_digit s in
  let (gap, r2) := span Py.is_space r1 in
  let (num, r3) := span Py.is_digit r2 in
  match r3 with
  | String "/" r4 =>
      let (den, r5) := span Py.is_digit r4 in
      if (Py.is_empty whole || Py.is_empty gap || Py.is_empty num
          || Py.is_empty den)%bool
      then None
      else Some (whole ++ gap ++ num ++ "/" ++ den, r5)
  | _ => None
  end.

(** [\d+/\d+] at the start of [s]. *)
Definition fraction (s : string) : option (string * string) :=
  let (num, r1) := span Py.is_digit s in
  match r1 with
  | String "/" r2 =>
      let (den, r3) := span Py.is_digit r2 in
      if (Py.is_empty num || Py.is_empty den)%bool then None
      else Some (num ++ "/" ++ den, r3)
  | _ => None
  end.

(** [\d+] at the start of [s]. *)
Definition integer (s : string) : option (string * string) :=
  let (num, r1) := span Py.is_digit s in
  if Py.is_empty num then None else Some (num, r1).

Definition orelse {A} (a b : option A) : option A :=
  match a with
  | Some _ => a
  | None => b
  end.

(** [(\d+\s+\d+/\d+|\d+/\d+|\d+)] at the start of [s]. *)
Definition size_at (s : string) : option (string * string) :=
  orelse (mixed_number s) (orelse (fraction s) (integer s)).

(** [re.search] of that pattern: the leftmost start at which it matches. *)
Fixpoint search_size (s : string) : option string :=
  match size_at s with
  | Some (m, _) => Some m
  | None =>
      match s with
      | EmptyString => None
      | String _ s' => search_size s'
      end
  end.

(** [\s*$] on what follows a match. *)
Definition only_spaces (s : string) : bool :=
  Py.is_empty (snd (span Py.is_space s)).

Definition to_end (m : option (string * string)) : option string :=
  match m with
  | Some (txt, rest) => if only_spaces rest then Some txt else None
  | None => None
  end.

(** [re.match(r'^(\d+\s+\d+/\d+|\d+/\d+)\s*$', s)], group 1. *)
Definition match_item_size (s : string) : option string :=
  orelse (to_end (mixed_number s)) (to_end (fraction s)).

End Re.

(** ** [labor_matcher.py] *)

Definition SIZE_ALIASES : list (string * string) :=
  [ (".5", "1/2"); ("0.5", "1/2"); (".75", "3/4"); ("0.75", "3/4");
    ("1.25", "1 1/4"); ("1.5", "1 1/2"); ("2.5", "2 1/2"); ("3.5", "3 1/2") ].

Definition TYPE_ALIASES : list (string * list string) :=
  [ ("emt", ["EMT CONDUIT"; "EMT"]);
    ("rigid", ["RIGID STEEL CONDUIT"; "RIGID CONDUIT"]);
    ("pvc", ["PVC CONDUIT"]);
    ("mc", ["MC CABLE"]);
    ("romex", ["NON-METALLIC SHEATHED CABLE"; "NM CABLE"]);
    ("thhn", ["WIRE"]);
    ("awg", ["WIRE"]);
    ("coupling", ["COUPLINGS"; "COUPLING"]);
    ("connector", ["CONNECTORS"; "CONNECTOR"]);
    ("box", ["SQUARE BOXES"; "OCTAGON BOXES"; "SWITCH BOXES"; "PLASTIC BOXES"]);
    ("breaker", ["PLUG-IN CIRCUIT BREAKERS"; "BOLT-ON BREAKERS"]);
    ("strut", ["SUPPORT CHANNEL (STRUT)"; "SUPPORT CHANNEL"]);
    ("beam clamp", ["BEAM CLAMP"]);
    ("wire nut", ["WIRENUTS"]);
    ("fan", ["FANS"]);
    ("switch", ["SWITCHES"]);
    ("receptacle", ["RECEPTACLES"]) ].

(** The loop over [SIZE_ALIASES.items()], in the order of the dictionary. *)
Definition normalize_sizes (desc : string) : string :=
  fold_left (fun d '(alias, normalized) => Re.sub_bounded alias normalized d)
            SIZE_ALIASES desc.

Definition normalize_description (desc : string) : string :=
  let desc := Py.strip (Py.lower desc) in
  let desc := Py.replace "'" " "
                (Py.replace (String Py.dquote EmptyString) " inch " desc) in
  let desc := Py.strip (Re.sub_spaces false desc) in
  normalize_sizes desc.

Definition extract_size (desc : string) : string :=
  match Re.search_size desc with
  | Some m => Py.strip m
  | None => EmptyString
  end.

Definition extract_size_from_item (item : string) : string :=
  let item := Py.strip
                (Py.replace "''" EmptyString
                   (Py.replace (String Py.dquote EmptyString) EmptyString item)) in
  match Re.match_item_size item with
  | Some m => m
  | None => EmptyString
  end.


(** A row of the labor table as [csv.DictReader] yields it: every column is
    a string. *)
Record Entry := {
  e_Section : string;
  e_Category : string;
  e_Item : string;
  e_Easy : string;
  e_Average : string;
  e_Difficult : string;
  e_Remodel : string;
  e_Old_Work : string;
  e_Unit : string
}.

(** The module [thefuzz.fuzz], of which the matcher uses one function. *)
Record fuzz_module := {
  token_set_ratio : string -> string -> Z
}.

(** Python exceptions that the modelled code can raise.
    [UnicodeDecodeError] is a subclass of [ValueError]; the only handler of
    the modelled code, in [parse_quantity], encloses a call of [float], which
    raises a plain [ValueError]. *)
Inductive exn := ValueError | OSError | UnicodeDecodeError | csv_Error.

Inductive result (A : Type) :=
| Ok (a : A)
| Raise (e : exn).
Arguments Ok {A} a.
Arguments Raise {A} e.

(** [round(x, 1)]: to the nearest tenth, a tie going to the even tenth. *)
Definition round_half_even (x : Q) : Z :=
  let f := Qfloor x in
  match Qcompare (x - inject_Z f)%Q (1 # 2) with
  | Lt => f
  | Gt => f + 1
  | Eq => if Z.even f then f else f + 1
  end.

Definition round1 (x : Q) : Q := round_half_even (x * 10)%Q # 10.

(** [min(a, b)]: [b] when it is smaller than [a], otherwise [a]. *)
Definition py_min (a b : Q) : Q := if Qlt_le_dec b a then b else a.

(** [l[:n]] with Python's reading of a negative bound. *)
Definition slice_to {A : Type} (l : list A) (n : Z) : list A :=
  if 0 <=? n then firstn (Z.to_nat n) l
  else firstn (Z.to_nat (Z.of_nat (length l) + n)) l.

(** One element of the list that [search] returns:
    [(entry, score, match_reason)]. *)
Definition MatchResult : Type := Entry * Q * string.

Definition mr_entry (r : MatchResult) : Entry := fst (fst r).
Definition mr_score (r : MatchResult) : Q := snd (fst r).
Definition mr_reason (r : MatchResult) : string := snd r.

(** [results.sort(key=lambda x: x[1], reverse=True)].  [insert_desc r l]
    puts [r], which precedes every element of [l] in the unsorted list, in
    front of the first element whose score is not greater than its own. *)
Fixpoint insert_desc (r : MatchResult) (l : list MatchResult) : list MatchResult :=
  match l with
  | [] => [r]
  | y :: l' =>
      if Qlt_le_dec (mr_score r) (mr_score y)
      then y :: insert_desc r l'
      else r :: l
  end.

Fixpoint sort_desc (l : list MatchResult) : list MatchResult :=
  match l with
  | [] => []
  | r :: l' => insert_desc r (sort_desc l')
  end.

(** The running [score] and [reasons] of one iteration of the loop over the
    entries. *)
Definition tally : Type := Z * list string.

(** [score += d; reasons.append(tag)] *)
Definition bump (d : Z) (tag : string) (t : tally) : tally :=
  (fst t + d, (snd t ++ [tag])%list).

Definition conduit_types : list string :=
  ["emt"; "rigid"; "pvc"; "imc"; "ent"; "mc"].

Definition stop_words : list string :=
  ["with"; "and"; "for"; "the"; "a"; "an"; "or"; "in"; "on";
   "to"; "of"; "inch"; "feet"; "ft"; "ea"; "each"; "per"].

(** [w not in stop_words and len(w) > 1] *)
Definition is_keyword (w : string) : bool :=
  (negb (Py.mem w stop_words) && (1 <? String.length w)%nat)%bool.

Definition _extract_keywords (desc : string) : list string :=
  filter is_keyword (Py.split desc).

(** [item_lower] and [combined] of an entry. *)
Definition item_lower (entry : Entry) : string :=
  Py.replace (String Py.dquote EmptyString) EmptyString (Py.lower (e_Item entry)).

Definition combined_text (entry : Entry) : string :=
  Py.lower (e_Section entry) ++ " " ++ Py.lower (e_Category entry) ++ " "
  ++ item_lower entry.

(** The loop over [TYPE_ALIASES.items()]; the inner loop stops at the first
    target found. *)
Definition type_alias_hit (query_norm combined : string)
           (a : string * list string) : bool :=
  (Py.contains (fst a) query_norm
   && existsb (fun target => Py.contains (Py.lower target) combined) (snd a))%bool.

Definition score_type_aliases (query_norm combined : string) (t : tally) : tally :=
  fold_left (fun t a =>
               if type_alias_hit query_norm combined a
               then bump 40 ("type_match:" ++ fst a) t else t)
            TYPE_ALIASES t.

(** The first conduit type that is a word of the query, [None] otherwise. *)
Definition query_conduit (query_norm : string) : option string :=
  find (fun ct => Py.mem ct (Py.split query_norm)) conduit_types.

Definition conflicts (qc section_lower : string) (ct : string) : bool :=
  (negb (String.eqb ct qc) && Py.mem ct (Py.split section_lower))%bool.

Definition score_conduit_penalty (query_norm section_lower : string)
           (t : tally) : tally :=
  match query_conduit query_norm with
  | Some qc =>
      fold_left (fun t ct =>
                   if conflicts qc section_lower ct
                   then bump (-25) ("wrong_type_penalty:" ++ ct) t else t)
                conduit_types t
  | None => t
  end.

Definition entry_size (entry : Entry) : string :=
  let entry_size := extract_size_from_item (e_Item entry) in
  if Py.is_empty entry_size then extract_size (item_lower entry) else entry_size.

Definition score_size (query_size : string) (entry : Entry) (t : tally) : tally :=
  if Py.is_empty query_size then t
  else if String.eqb (entry_size entry) query_size
       then bump 30 ("size_match:" ++ query_size) t
       else t.

Definition score_keywords (keywords : list string) (combined : string)
           (t : tally) : tally :=
  fold_left (fun t kw =>
               if Py.contains kw combined then bump 15 ("keyword:" ++ kw) t else t)
            keywords t.

Record LaborMatcher := {
  entries : list Entry
}.

(** What is found at a path, as [open(path, encoding='utf-8')] and a
    [csv.DictReader] over the opened file see it. *)
Inductive file (A : Type) :=
| Unopenable
| Undecodable
| Unparsable
| Rows (rows : list A).
Arguments Unopenable {A}.
Arguments Undecodable {A}.
Arguments Unparsable {A}.
Arguments Rows {A} rows.

(** Opening the file and reading all its rows.  [open] raises an [OSError]
    (a [FileNotFoundError], a [PermissionError], an [IsADirectoryError])
    when the file cannot be opened; reading raises a [UnicodeDecodeError]
    when the bytes are not UTF-8, and the reader raises a [csv.Error] when
    it gives up on the text, as for a field beyond the size limit.  None of
    the callers handles any of them. *)
Definition read_rows {A : Type} (f : file A) : result (list A) :=
  match f with
  | Unopenable => Raise OSError
  | Undecodable => Raise UnicodeDecodeError
  | Unparsable => Raise csv_Error
  | Rows rows => Ok rows
  end.

Definition filesystem : Type := string -> file Entry.

Definition load_db (fs : filesystem) (db_path : string) : result LaborMatcher :=
  match read_rows (fs db_path) with
  | Raise e => Raise e
  | Ok rows => Ok {| entries := rows |}
  end.

(** [LaborMatcher(db_path)] *)
Definition LaborMatcher_init (fs : filesystem) (db_path : string)
  : result LaborMatcher :=
  load_db fs db_path.

Section Matcher.

Variable fuzz : fuzz_module.

(** The integer part of the score and its reasons, before the fuzzy
    term is added. *)
Definition score_signals (query_norm query_size : string)
           (keywords : list string) (entry : Entry) : tally :=
  let section_lower := Py.lower (e_Section entry) in
  let combined := combined_text entry in
  let t := (0, []) in
  let t := score_type_aliases query_norm combined t in
  let t := score_conduit_penalty query_norm section_lower t in
  let t := score_size query_size entry t in
  score_keywords keywords combined t.

(** The body of the loop over the entries, up to the test [score > 20]:
    the raw score and the reasons. *)
Definition score_entry (query_norm query_size : string)
           (keywords : list string) (entry : Entry) : Q * list string :=
  let t := score_signals query_norm query_size keywords entry in
  let fuzzy_score := token_set_ratio fuzz query_norm (combined_text entry) in
  let score := (inject_Z (fst t) + inject_Z fuzzy_score * (3 # 10))%Q in
  let reasons := if 60 <? fuzzy_score
                 then (snd t ++ [("fuzzy:" ++ Py.str_of_int fuzzy_score)%string])%list
                 else snd t in
  (score, reasons).

(** [results] when the loop over the entries ends, before it is sorted. *)
Fixpoint collect (query_norm query_size : string) (keywords : list string)
         (entries : list Entry) : list MatchResult :=
  match entries with
  | [] => []
  | entry :: rest =>
      let (score, reasons) := score_entry query_norm query_size keywords entry in
      if Qlt_le_dec 20 score
      then (entry, round1 score, Py.join ", " reasons)
             :: collect query_norm query_size keywords rest
      else collect query_norm query_size keywords rest
  end.

Definition candidates (self : LaborMatcher) (query : string) : list MatchResult :=
  let query_norm := normalize_description query in
  let query_size := extract_size query_norm in
  let keywords := _extract_keywords query_norm in
  collect query_norm query_size keywords (entries self).

Definition search (self : LaborMatcher) (query : string) (top_n : Z)
  : list MatchResult :=
  slice_to (sort_desc (candidates self query)) top_n.

Definition best_match (self : LaborMatcher) (query : string)
  : option Entry * Q * string :=
  match search self query 1 with
  | [] => (None, 0%Q, "No match found")
  | (entry, raw_score, reason) :: _ =>
      (Some entry, py_min 100 raw_score, reason)
  end.

End Matcher.

Section Scores.

Variable fuzz : fuzz_module.

(** The raw score of an entry for a query, as the loop of [search]
    computes it. *)
Definition entry_score (query : string) (entry : Entry) : Q :=
  let query_norm := normalize_description query in
  fst (score_entry fuzz query_norm (extract_size query_norm)
                   (_extract_keywords query_norm) entry).

(** The tuple that the loop appends for a qualifying entry. *)
Definition result_of (qn qs : string) (kws : list string) (e : Entry)
  : MatchResult :=
  (e, round1 (fst (score_entry fuzz qn qs kws e)),
   Py.join ", " (snd (score_entry fuzz qn qs kws e))).

(** The test [score > 20]. *)
Definition above_threshold (qn qs : string) (kws : list string) (e : Entry)
  : bool :=
  if Qlt_le_dec 20 (fst (score_entry fuzz qn qs kws e)) then true else false.

End Scores.

(** ** [cost_calculator.py] *)

(** A Python [float]: a binary64 value. *)
Definition number : Type := SpecFloat.spec_float.

Definition prec : Z := 53.
Definition emax : Z := 1024.

(** The [float] nearest to an [int], a tie going to the even mantissa: the
    conversion that [float(z)], and arithmetic between a [float] and an
    [int], apply to an [int] within the range of binary64. *)
Definition number_of_int (z : Z) : number :=
  SpecFloat.binary_normalize prec emax z 0 false.

(** [x * y] *)
Definition num_mul (x y : number) : number := SpecFloat.SFmul prec emax x y.

(** [x / d] for a non-zero [int] literal [d]: the literal is converted to a
    [float] and the division is that of two [float]s. *)
Definition num_div_int (x : number) (d : Z) : number :=
  SpecFloat.SFdiv prec emax x (number_of_int d).

Module PyFloat.

(** The whitespace that [float] ignores at both ends of its argument. *)
Definition is_float_space (c : ascii) : bool :=
  (Py.in_range 9 13 c || N.eqb (Py.code c) 32)%bool.

Fixpoint lstrip (s : string) : string :=
  match s with
  | EmptyString => EmptyString
  | String c s' => if is_float_space c then lstrip s' else s
  end.

Fixpoint rstrip (s : string) : string :=
  match s with
  | EmptyString => EmptyString
  | String c s' =>
      match rstrip s' with
      | EmptyString =>
          if is_float_space c then EmptyString else String c EmptyString
      | r => String c r
      end
  end.

(** An underscore is accepted only between two digits; [before] is the
    character in front of [s].  The result is [s] without its
    underscores. *)
Fixpoint drop_underscores (before : option ascii) (s : string) : option string :=
  match s with
  | EmptyString => Some EmptyString
  | String c s' =>
      if Ascii.eqb c "_"
      then match before, Py.head s' with
           | Some b, Some a =>
               if (Py.is_digit b && Py.is_digit a)%bool
               then drop_underscores (Some c) s' else None
           | _, _ => None
           end
      else match drop_underscores (Some c) s' with
           | Some r => Some (String c r)
           | None => None
           end
  end.

Definition digit_value (c : ascii) : Z := Z.of_N (Py.code c) - 48.

(** The value of a string of decimal digits, [acc] being the value of the
    digits already read. *)
Fixpoint digits_value (acc : Z) (s : string) : Z :=
  match s with
  | EmptyString => acc
  | String c s' => digits_value (10 * acc + digit_value c) s'
  end.

(** An optional sign: whether it is a minus, and what follows. *)
Definition sign (s : string) : bool * string :=
  match s with
  | String "-" r => (true, r)
  | String "+" r => (false, r)
  | _ => (false, s)
  end.

(** [("e" | "E") [sign] digitpart] up to the end of the string, or nothing
    at all: the exponent. *)
Definition exponent (s : string) : option Z :=
  match s with
  | EmptyString => Some 0
  | String c r =>
      if (Ascii.eqb c "e" || Ascii.eqb c "E")%bool
      then let (neg, r1) := sign r in
           let (ds, r2) := Re.span Py.is_digit r1 in
           if (Py.is_empty ds || negb (Py.is_empty r2))%bool then None
           else Some (if neg then - digits_value 0 ds else digits_value 0 ds)
      else None
  end.

(** The binary64 value nearest to [n * 10 ^ e], for [n] not negative, with
    the sign [neg]; a tie goes to the even mantissa, and a value beyond the
    range becomes an infinity.  An integer is rounded by [binary_normalize];
    a quotient [n / 10 ^ (- e)] is rounded once, by the division of the
    Standard Library applied to the two integers. *)
Definition decimal (neg : bool) (n e : Z) : number :=
  if 0 <=? e
  then SpecFloat.binary_normalize prec emax
         (SpecFloat.cond_Zopp neg (n * 10 ^ e)) 0 neg
  else match n with
       | Z.pos p =>
           SpecFloat.SFdiv prec emax
             (SpecFloat.S754_finite neg p 0)
             (SpecFloat.S754_finite false (Z.to_pos (10 ^ (- e))) 0)
       | _ => SpecFloat.S754_zero neg
       end.

(** [floatnumber]: digits with at most one point and at least one digit,
    then an optional exponent; [neg] is the sign in front of it. *)
Definition floatnumber (neg : bool) (s : string) : option number :=
  let (int_part, r1) := Re.span Py.is_digit s in
  let (frac_part, r2) :=
    match r1 with
    | String "." r => Re.span Py.is_digit r
    | _ => (EmptyString, r1)
    end in
  if (Py.is_empty int_part && Py.is_empty frac_part)%bool then None
  else match exponent r2 with
       | Some e =>
           Some (decimal neg (digits_value 0 (int_part ++ frac_part))
                         (e - Z.of_nat (String.length frac_part)))
       | None => None
       end.

(** [float(s)] for a string; [None] stands for [ValueError]. *)
Definition float (s : string) : option number :=
  match drop_underscores None (rstrip (lstrip s)) with
  | None => None
  | Some t =>
      let (neg, body) := sign t in
      let word := Py.lower body in
      if (String.eqb word "inf" || String.eqb word "infinity")%bool
      then Some (SpecFloat.S754_infinity neg)
      else if String.eqb word "nan" then Some SpecFloat.S754_nan
      else floatnumber neg body
  end.

End PyFloat.

Definition unit_words : list string :=
  ["feet"; "ft"; "foot"; "ea"; "each"; "lot"; "box"].

(** [(feet|ft|foot|ea|each|lot|box)?] under [re.I] at the start of [s]: the
    text matched by the first alternative that fits, [None] when none
    does. *)
Definition match_unit (s : string) : option string :=
  match find (fun w => prefix w (Py.lower s)) unit_words with
  | Some w => Some (substring 0 (String.length w) s)
  | None => None
  end.

Definition is_digit_or_comma (c : ascii) : bool :=
  (Py.is_digit c || Ascii.eqb c ",")%bool.

(** [re.match] of the quantity pattern under [re.I]: group 1 is a run of
    digits and commas, an optional point and a run of digits; whitespace may
    follow; group 2 is the optional unit word.  The result is the two groups
    when the pattern matches. *)
Definition match_quantity (s : string) : option (string * option string) :=
  let (lead, r1) := Re.span is_digit_or_comma s in
  if Py.is_empty lead then None
  else
    let (dot, r2) :=
      match r1 with
      | String "." r => (".", r)
      | _ => (EmptyString, r1)
      end in
    let (frac, r3) := Re.span Py.is_digit r2 in
    let (_, r4) := Re.span Py.is_space r3 in
    Some (lead ++ dot ++ frac, match_unit r4).

(** The [int] 0 that the last [return] gives is kept as the [float] zero: the
    two are equal in Python, and the callers multiply or divide the value
    with a [float], which converts it first. *)
Definition parse_quantity (qty_str : string) : result (number * string) :=
  let qty_str := Py.strip qty_str in
  match match_quantity qty_str with
  | Some (group1, group2) =>
      match PyFloat.float (Py.replace "," EmptyString group1) with
      | Some val =>
          let unit := Py.lower (match group2 with
                                | Some u => u
                                | None => EmptyString
                                end) in
          Ok (val, unit)
      | None => Raise ValueError
      end
  | None =>
      match PyFloat.float (Py.replace "," EmptyString qty_str) with
      | Some val => Ok (val, EmptyString)
      | None => Ok (SpecFloat.S754_zero false, EmptyString)
      end
  end.

Definition calculate_labor_extension (qty : number) (qty_unit : string)
           (labor_value : number) (labor_unit : string) : number :=
  if String.eqb labor_unit "E" then num_mul qty labor_value
  else if String.eqb labor_unit "C" then num_mul (num_div_int qty 100) labor_value
  else if String.eqb labor_unit "M" then num_mul (num_div_int qty 1000) labor_value
  else num_mul qty labor_value.

(** ** Quantities used in the statements *)

Definition by_score_desc (a b : MatchResult) : Prop :=
  (mr_score b <= mr_score a)%Q.

Definition has_score (s : Q) (r : MatchResult) : bool := Qeq_bool (mr_score r) s.

Definition alias_bonus (query_norm combined : string) : Z :=
  40 * Z.of_nat (length (filter (type_alias_hit query_norm combined) TYPE_ALIASES)).

Definition other_conduit_tokens (qc section_lower : string) : nat :=
  length (filter (conflicts qc section_lower) conduit_types).

Definition conduit_penalty (query_norm section_lower : string) : Z :=
  match query_conduit query_norm with
  | Some qc => 25 * Z.of_nat (other_conduit_tokens qc section_lower)
  | None => 0
  end.

Definition size_bonus (query_size : string) (entry : Entry) : Z :=
  if Py.is_empty query_size then 0
  else if String.eqb (entry_size entry) query_size then 30 else 0.

Definition keyword_hits (keywords : list string) (combined : string) : list string :=
  filter (fun kw => Py.contains kw combined) keywords.

Definition keyword_bonus (keywords : list string) (combined : string) : Z :=
  15 * Z.of_nat (length (keyword_hits keywords combined)).

(** What [thefuzz] documents about its ratios: an integer from 0 to 100. *)
Definition ratio_in_range (fuzz : fuzz_module) : Prop :=
  forall a b : string, 0 <= token_set_ratio fuzz a b <= 100.

(** The part of an entry's score that does not depend on [thefuzz]. *)
Definition signal_score (query : string) (entry : Entry) : Z :=
  let query_norm := normalize_description query in
  fst (score_signals query_norm (extract_size query_norm)
                     (_extract_keywords query_norm) entry).

Definition query_ratio (fuzz : fuzz_module) (query : string) (entry : Entry) : Z :=
  token_set_ratio fuzz (normalize_description query) (combined_text entry).

(** Sample rows, tables and queries on which the statements are run. *)
Definition inch (size : string) : string := size ++ String Py.dquote EmptyString.

Definition labor_row (section category item : string) : Entry :=
  {| e_Section := section; e_Category := category; e_Item := item;
     e_Easy := "4.0"; e_Average := "5.0"; e_Difficult := "6.0";
     e_Remodel := "7.0"; e_Old_Work := "8.0"; e_Unit := "C" |}.

Definition emt_half : Entry := labor_row "EMT CONDUIT" "EMT" (inch "1/2").
Definition emt_three_quarter : Entry := labor_row "EMT CONDUIT" "EMT" (inch "3/4").
Definition pvc_coupling : Entry := labor_row "PVC CONDUIT" "PVC COUPLINGS" (inch "3/4").

Definition emt_table : LaborMatcher := {| entries := [emt_half; emt_three_quarter] |}.
Definition mixed_table : LaborMatcher := {| entries := [emt_half; pvc_coupling] |}.

(** A ratio within the documented range, to run the matcher on concrete
    inputs: 100 for equal strings and 0 otherwise. *)
Definition exact_fuzz : fuzz_module :=
  {| token_set_ratio := fun a b => if String.eqb a b then 100 else 0 |}.

(** The reading of C7 as a property of one table and one query: when "emt"
    is a word of the query and an entry with "emt" in its section or
    category qualifies, the entry that [best_match] returns has no other
    conduit type among the words of its section. *)
Definition emt_match_excludes_other_types
           (fuzz : fuzz_module) (self : LaborMatcher) (query : string) : Prop :=
  In "emt" (Py.split (normalize_description query)) ->
  (exists e, In e (entries self)
             /\ (Py.contains "emt" (Py.lower (e_Section e))
                 || Py.contains "emt" (Py.lower (e_Category e)))%bool = true
             /\ (20 < entry_score fuzz query e)%Q) ->
  forall e conf reason,
    best_match fuzz self query = (Some e, conf, reason) ->
    forall ct, In ct conduit_types -> ct <> "emt" ->
               ~ In ct (Py.split (Py.lower (e_Section e))).

Definition transition_query : string := "3/4 pvc to emt coupling".

Definition emt_half_result : MatchResult :=
  (emt_half, 550 # 10, "type_match:emt, keyword:emt").

Definition default_db_path : string := "data/labor_units_db.csv".

(** A file system whose labor table has a header and no rows. *)
Definition empty_db_fs : filesystem :=
  fun path => if String.eqb path default_db_path then Rows [] else Unopenable.

Fixpoint all_chars (p : ascii -> bool) (s : string) : bool :=
  match s with
  | EmptyString => true
  | String c s' => (p c && all_chars p s')%bool
  end.

Definition is_digit_or_point (c : ascii) : bool :=
  (Py.is_digit c || Ascii.eqb c ".")%bool.

Definition is_digit_comma_point (c : ascii) : bool :=
  (is_digit_or_comma c || Ascii.eqb c ".")%bool.

(** The units of a quantity: none, or one of the unit words. *)
Definition quantity_units : list string := EmptyString :: unit_words.

(** [v >= 0]: the comparison of two [float]s, false of a NaN. *)
Definition nonnegative (v : number) : Prop :=
  SpecFloat.SFleb (SpecFloat.S754_zero false) v = true.

(** The sign bit of [v] is [s], and [v] is not a NaN. *)
Definition has_sign (s : bool) (v : number) : Prop :=
  match v with
  | SpecFloat.S754_zero s' | SpecFloat.S754_infinity s'
  | SpecFloat.S754_finite s' _ _ => s' = s
  | SpecFloat.S754_nan => False
  end.

(** The rational that a zero or a finite [float] stands for: the mantissa
    times a power of two. *)
Definition float_value (v : number) : option Q :=
  match v with
  | SpecFloat.S754_zero _ => Some 0%Q
  | SpecFloat.S754_finite s m e =>
      Some (inject_Z (SpecFloat.cond_Zopp s (Z.pos m)) * Qpower 2 e)%Q
  | _ => None
  end.

(** [v] is a zero or a finite [float], and stands for the rational [q]. *)
Definition has_value (v : number) (q : Q) : Prop :=
  exists q', float_value v = Some q' /\ (q' == q)%Q.

(** [v] is the [float] that stands for the integer [z]. *)
Definition is_integer (v : number) (z : Z) : Prop := has_value v (inject_Z z).

(** The score as Python computes it in binary64: the integer part [k]
    converted to a [float], plus the ratio [f] times the [float] nearest to
    3/10. *)
Definition float_of_int (z : Z) : PrimFloat.float :=
  match z with
  | Z0 => PrimFloat.zero
  | Zpos _ => PrimFloat.of_uint63 (Uint63.of_Z z)
  | Zneg p => PrimFloat.opp (PrimFloat.of_uint63 (Uint63.of_Z (Zpos p)))
  end.

Definition binary64_ratio (n d : Z) : PrimFloat.float :=
  PrimFloat.div (float_of_int n) (float_of_int d).

Definition binary64_score (k f : Z) : PrimFloat.float :=
  PrimFloat.add (float_of_int k)
                (PrimFloat.mul (float_of_int f) (binary64_ratio 3 10)).

Definition Z_range (lo : Z) (n : nat) : list Z :=
  map (fun i => lo + Z.of_nat i) (seq 0 n).

(** The binary64 score passes [score > 20] exactly when the exact score
    [(10 k + 3 f) / 10] does, and then it is at least 20.0625, so that
    [round(score, 1)] is at least 20.1. *)
Definition binary64_agrees (k f : Z) : bool :=
  let x := binary64_score k f in
  (Bool.eqb (PrimFloat.ltb (float_of_int 20) x) (200 <? 10 * k + 3 * f)
   && implb (PrimFloat.ltb (float_of_int 20) x)
            (PrimFloat.leb (binary64_ratio 321 16) x))%bool.

(** Decimal numerals, as a coefficient and a power of ten, with the binary64
    number that each of them denotes, written in hexadecimal: 0.1, 0.3, 12.5,
    7.2, 1e22, 1e23, 123456.789, the smallest subnormal number 5e-324, the
    subnormal number 1e-310, the largest finite number, and 1e309 and 1e-400,
    which are beyond the range at either end. *)
Module Binary64Literals.
Import PrimFloat.

Definition literals : list (Z * Z * float) :=
  [(1, -1, 0x1.999999999999ap-4%float);
   (3, -1, 0x1.3333333333333p-2%float);
   (125, -1, 0x1.9p+3%float);
   (72, -1, 0x1.ccccccccccccdp+2%float);
   (1, 22, 0x1.0f0cf064dd592p+73%float);
   (1, 23, 0x1.52d02c7e14af6p+76%float);
   (123456789, -3, 0x1.e240c9fbe76c9p+16%float);
   (5, -324, 0x0.0000000000001p-1022%float);
   (1, -310, 0x0.012688b70e62bp-1022%float);
   (17976931348623157, 292, 0x1.fffffffffffffp+1023%float);
   (1, 309, infinity);
   (1, -400, zero)].

End Binary64Literals.

(** ** Definitions for the further properties *)

Definition not_digit (c : ascii) : bool := negb (Py.is_digit c).

Definition not_space (c : ascii) : bool := negb (Py.is_space c).

(** The characters of a normalised description: no upper-case letter, no
    double quote, no apostrophe, and no whitespace but the space. *)
Definition normal_char (c : ascii) : bool :=
  (negb (Py.is_upper c) && negb (Ascii.eqb c Py.dquote)
   && negb (Ascii.eqb c "'")
   && (negb (Py.is_space c) || Ascii.eqb c " "))%bool.

Definition unquoted_char (c : ascii) : bool :=
  (negb (Py.is_upper c) && negb (Ascii.eqb c Py.dquote)
   && negb (Ascii.eqb c "'"))%bool.

Definition not_upper (c : ascii) : bool := negb (Py.is_upper c).

Definition not_float_space (c : ascii) : bool := negb (PyFloat.is_float_space c).

Definition not_underscore (c : ascii) : bool := negb (Ascii.eqb c "_").

Definition not_comma (c : ascii) : bool := negb (Ascii.eqb c ",").

(** The characters of a plain decimal literal: digits, the point and the
    minus sign. *)
Definition plain_char (c : ascii) : bool :=
  (is_digit_or_point c || Ascii.eqb c "-")%bool.

(** The index of a slice bound in a list of length [len]: a negative bound
    counts from the end, and the result is kept between 0 and [len]. *)
Definition slice_index (len i : Z) : Z :=
  Z.max 0 (Z.min len (if i <? 0 then i + len else i)).

(** [l[a:b]] *)
Definition py_slice {A : Type} (l : list A) (a b : Z) : list A :=
  let len := Z.of_nat (length l) in
  let a' := slice_index len a in
  let b' := slice_index len b in
  firstn (Z.to_nat (b' - a')) (skipn (Z.to_nat a') l).

Record BrowsePage := {
  bp_total : Z;
  bp_page : Z;
  bp_per_page : Z;
  bp_pages : Z;
  bp_data : list Entry
}.

(** The response of [labor_browse], or the [ZeroDivisionError] of
    [// per_page]. *)
Inductive browse_response :=
| BrowseOk (p : BrowsePage)
| BrowseZeroDivisionError.

(** The three optional filters of [labor_browse]; [search] is already
    lower-cased. *)
Definition browse_filter (rows : list Entry) (section category search : string)
  : list Entry :=
  let rows := if Py.is_empty section then rows
              else filter (fun r => String.eqb (e_Section r) section) rows in
  let rows := if Py.is_empty category then rows
              else filter (fun r => String.eqb (e_Category r) category) rows in
  if Py.is_empty search then rows
  else filter (fun r => Py.contains search
                          (Py.lower (e_Section r ++ " " ++ e_Category r ++ " "
                                     ++ e_Item r)))
              rows.

(** [labor_browse] once the request arguments are read ([page] and
    [per_page] converted by [int]) and the table is loaded into [rows]. *)
Definition labor_browse (rows : list Entry) (section category search_arg : string)
           (page per_page : Z) : browse_response :=
  let search := Py.lower search_arg in
  let rows := browse_filter rows section category search in
  let total := Z.of_nat (length rows) in
  let start := (page - 1) * per_page in
  let page_rows := py_slice rows start (start + per_page) in
  if per_page =? 0 then BrowseZeroDivisionError
  else BrowseOk {| bp_total := total;
                   bp_page := page;
                   bp_per_page := per_page;
                   bp_pages := (total + per_page - 1) / per_page;
                   bp_data := page_rows |}.

Definition browse_data (r : browse_response) : list Entry :=
  match r with
  | BrowseOk p => bp_data p
  | BrowseZeroDivisionError => []
  end.

(** A Python [dict] from strings to strings, in insertion order. *)
Definition str_dict : Type := list (string * string).

(** [d[k] = v]: the value of an existing key is replaced where the key
    stands, a new key goes to the end. *)
Fixpoint dict_set (k v : string) (d : str_dict) : str_dict :=
  match d with
  | [] => [(k, v)]
  | (k', v') :: d' =>
      if String.eqb k' k then (k', v) :: d' else (k', v') :: dict_set k v d'
  end.

(** A row of [csv.DictReader]: the key [None] holds the fields beyond the
    header (a list, which the loop never reads), and the value [None] stands
    for a field the line does not have. *)
Definition csv_row : Type := list (option string * option string).

(** The body of the loop over [row.items()]. *)
Definition clean_item (part : str_dict) (item : option string * option string)
  : str_dict :=
  match fst item with
  | None => part
  | Some key =>
      let key_clean := Py.strip key in
      if Py.is_empty key_clean then part
      else dict_set key_clean
                    (match snd item with
                     | Some val => if Py.is_empty val then EmptyString
                                   else Py.strip val
                     | None => EmptyString
                     end)
                    part
  end.

Definition clean_row (row : csv_row) : str_dict := fold_left clean_item row [].

Definition is_nil {A : Type} (l : list A) : bool :=
  match l with
  | [] => true
  | _ :: _ => false
  end.

(** The file system as [load_parts_list] sees it: what is found at a path,
    the rows being those that [csv.DictReader] reads. *)
Definition parts_filesystem : Type := string -> file csv_row.

Definition load_parts_list (fs : parts_filesystem) (csv_path : string)
  : result (list str_dict) :=
  match read_rows (fs csv_path) with
  | Raise e => Raise e
  | Ok rows =>
      Ok (filter (fun part => negb (is_nil part)) (map clean_row rows))
  end.

(** A key and a value as [load_parts_list] leaves them. *)
Definition clean_pair (kv : string * string) : Prop :=
  Py.is_empty (fst kv) = false
  /\ Py.strip (fst kv) = fst kv
  /\ Py.strip (snd kv) = snd kv.

Definition clean_part (part : str_dict) : Prop :=
  NoDup (map fst part) /\ Forall clean_pair part.

(** The status that [run_estimation] prints for a confidence. *)
Definition status (confidence : Q) : string :=
  if Qlt_le_dec 50 confidence then "OK"
  else if Qlt_le_dec 30 confidence then "LOW CONFIDENCE"
  else "NEEDS REVIEW".

(** The test under which [run_estimation] and [run_estimate] cost the labor
    of a part: [labor_entry and confidence > 30]. *)
Definition labor_accepted (best : option Entry * Q * string) : bool :=
  match best with
  | (Some _, confidence, _) => if Qlt_le_dec 30 confidence then true else false
  | (None, _, _) => false
  end.

(** [r.get('Labor_Confidence', 0)] of a result row that may lack the key. *)
Definition get_confidence (c : option Q) : Q :=
  match c with
  | Some x => x
  | None => 0%Q
  end.

(** The tests of the three lists of [generate_summary_report] and of the
    three counters of [run_estimate]. *)
Definition is_needs_review (c : option Q) : bool :=
  if Qlt_le_dec 30 (get_confidence c) then false else true.

Definition is_low_confidence (c : option Q) : bool :=
  if Qlt_le_dec 30 (get_confidence c)
  then (if Qlt_le_dec 50 (get_confidence c) then false else true)
  else false.

Definition is_good_match (c : option Q) : bool :=
  if Qlt_le_dec 50 (get_confidence c) then true else false.

Section ResultRows.

(** A result row is a [dict]; the lists and counters below read one key of
    it, the confidence, which may be missing. *)
Variable Row : Type.
Variable Labor_Confidence : Row -> option Q.

(** The lists [needs_review], [low_confidence] and [good_matches] of
    [generate_summary_report]; the counters of the same names in
    [run_estimate] are their lengths. *)
Definition needs_review (results : list Row) : list Row :=
  filter (fun r => is_needs_review (Labor_Confidence r)) results.

Definition low_confidence (results : list Row) : list Row :=
  filter (fun r => is_low_confidence (Labor_Confidence r)) results.

Definition good_matches (results : list Row) : list Row :=
  filter (fun r => is_good_match (Labor_Confidence r)) results.

End ResultRows.

Definition _cache_key (vendor query : string) : string :=
  vendor ++ "::" ++ Py.strip (Py.lower query).

(** The fraction [num/den]. *)
Definition fraction_text (num den : string) : string := num ++ "/" ++ den.

Definition not_quote (c : ascii) : bool :=
  (negb (Ascii.eqb c Py.dquote) && negb (Ascii.eqb c "'"))%bool.

(** * Properties *)

(** ** Rounding and minimum *)

Lemma round_half_even_int (x : Q) (m : Z) :
  (x == inject_Z m)%Q -> round_half_even x = m.
Proof.
  intros H. unfold round_half_even.
  rewrite (Qfloor_comp _ _ H), Qfloor_Z.
  assert (E : ((x - inject_Z m) ?= (1 # 2))%Q = Lt).
  { apply Qlt_alt.
    setoid_replace (x - inject_Z m)%Q with 0%Q by (rewrite H; ring).
    reflexivity. }
  now rewrite E.
Qed.

Lemma raw_score_tenths (k f : Z) :
  ((inject_Z k + inject_Z f * (3 # 10)) * 10 == inject_Z (10 * k + 3 * f))%Q.
Proof.
  rewrite inject_Z_plus, !inject_Z_mult. ring.
Qed.

Lemma round1_raw_score (k f : Z) :
  round1 (inject_Z k + inject_Z f * (3 # 10)) = (10 * k + 3 * f) # 10.
Proof.
  unfold round1. now rewrite (round_half_even_int _ _ (raw_score_tenths k f)).
Qed.

Lemma raw_score_eq_tenths (k f : Z) :
  (inject_Z k + inject_Z f * (3 # 10) == (10 * k + 3 * f) # 10)%Q.
Proof.
  rewrite (Qmake_Qdiv (10 * k + 3 * f) 10), inject_Z_plus, !inject_Z_mult. field.
Qed.

Lemma py_min_Qmin (a b : Q) : py_min a b = Qmin a b.
Proof.
  unfold py_min, Qmin, GenericMinMax.gmin.
  destruct (Qlt_le_dec b a) as [Hlt | Hle].
  - apply Qgt_alt in Hlt. now rewrite Hlt.
  - destruct (a ?= b)%Q eqn:E; try reflexivity.
    apply Qgt_alt in E. exfalso. exact (Qlt_not_le _ _ E Hle).
Qed.

(** On the grid of the integer parts from -200 to 200 and of the ratios from
    0 to 100 the binary64 score and the exact score agree on the test
    [score > 20]; in particular 5 + 50 * 0.3 and -10 + 100 * 0.3 are exactly
    20 in binary64 and do not pass it. *)
Lemma binary64_threshold_agrees :
  forallb (fun k => forallb (binary64_agrees k) (Z_range 0 101))
          (Z_range (-200) 401) = true.
Proof. vm_compute. reflexivity. Qed.

(** ** The stable descending sort and the slice *)

Lemma insert_desc_perm (r : MatchResult) (l : list MatchResult) :
  Permutation (r :: l) (insert_desc r l).
Proof.
  induction l as [| y l IH]; simpl.
  - apply Permutation_refl.
  - destruct (Qlt_le_dec (mr_score r) (mr_score y)).
    + eapply perm_trans; [apply perm_swap |]. now apply perm_skip.
    + apply Permutation_refl.
Qed.

Lemma sort_desc_perm (l : list MatchResult) : Permutation l (sort_desc l).
Proof.
  induction l as [| r l IH]; simpl.
  - constructor.
  - eapply perm_trans; [apply perm_skip, IH | apply insert_desc_perm].
Qed.

Lemma insert_desc_sorted (r : MatchResult) (l : list MatchResult) :
  StronglySorted by_score_desc l -> StronglySorted by_score_desc (insert_desc r l).
Proof.
  induction 1 as [| y l Hs IH Hall]; simpl.
  - repeat constructor.
  - destruct (Qlt_le_dec (mr_score r) (mr_score y)) as [Hlt | Hle].
    + constructor; [exact IH |].
      apply Forall_forall. intros z Hz.
      apply (Permutation_in _ (Permutation_sym (insert_desc_perm r l))) in Hz.
      destruct Hz as [<- | Hz].
      * now apply Qlt_le_weak.
      * exact (proj1 (Forall_forall _ _) Hall z Hz).
    + constructor; [now constructor |].
      constructor; [exact Hle |].
      apply Forall_forall. intros z Hz.
      unfold by_score_desc.
      apply Qle_trans with (mr_score y); [| exact Hle].
      exact (proj1 (Forall_forall _ _) Hall z Hz).
Qed.

Lemma sort_desc_sorted (l : list MatchResult) :
  StronglySorted by_score_desc (sort_desc l).
Proof.
  induction l as [| r l IH]; simpl.
  - constructor.
  - now apply insert_desc_sorted.
Qed.

(** Among the results of one score the sort changes nothing: it is stable. *)
Lemma insert_desc_stable (s : Q) (r : MatchResult) (l : list MatchResult) :
  filter (has_score s) (insert_desc r l) = filter (has_score s) (r :: l).
Proof.
  induction l as [| y l IH]; [reflexivity |].
  simpl insert_desc.
  destruct (Qlt_le_dec (mr_score r) (mr_score y)) as [Hlt | Hle]; [| reflexivity].
  simpl. rewrite IH. simpl.
  destruct (has_score s r) eqn:Er, (has_score s y) eqn:Ey; try reflexivity.
  exfalso. unfold has_score in Er, Ey.
  apply Qeq_bool_iff in Er. apply Qeq_bool_iff in Ey.
  rewrite Er, Ey in Hlt. exact (Qlt_irrefl _ Hlt).
Qed.

Lemma sort_desc_stable (s : Q) (l : list MatchResult) :
  filter (has_score s) (sort_desc l) = filter (has_score s) l.
Proof.
  induction l as [| r l IH]; [reflexivity |].
  simpl sort_desc. rewrite insert_desc_stable. simpl. now rewrite IH.
Qed.

Lemma slice_to_firstn {A : Type} (l : list A) (n : Z) :
  exists k, slice_to l n = firstn k l.
Proof.
  unfold slice_to. destruct (0 <=? n); eauto.
Qed.

Lemma slice_to_length {A : Type} (l : list A) (n : Z) :
  0 <= n -> Z.of_nat (length (slice_to l n)) <= n.
Proof.
  intros Hn. unfold slice_to.
  destruct (0 <=? n) eqn:E; [| lia].
  pose proof (firstn_le_length (Z.to_nat n) l). lia.
Qed.

Lemma firstn_incl {A : Type} (k : nat) (l : list A) (x : A) :
  In x (firstn k l) -> In x l.
Proof.
  revert k. induction l as [| y l IH]; intros [| k]; simpl; try tauto.
  intros [-> | H]; [now left | right; eauto].
Qed.

Lemma firstn_sorted {A : Type} (R : A -> A -> Prop) (k : nat) (l : list A) :
  StronglySorted R l -> StronglySorted R (firstn k l).
Proof.
  intros H. revert k.
  induction H as [| x l Hs IH Hall]; intros [| k]; simpl; try constructor.
  - apply IH.
  - apply Forall_forall. intros z Hz. apply firstn_incl in Hz.
    exact (proj1 (Forall_forall _ _) Hall z Hz).
Qed.

Lemma firstn_filter_prefix {A : Type} (p : A -> bool) (k : nat) (l : list A) :
  filter p l = (filter p (firstn k l) ++ filter p (skipn k l))%list.
Proof.
  rewrite <- filter_app. now rewrite firstn_skipn.
Qed.

(** ** The running tally *)

Lemma fold_bump {A : Type} (p : A -> bool) (d : Z) (tag : A -> string)
      (l : list A) (t : tally) :
  fold_left (fun t a => if p a then bump d (tag a) t else t) l t
  = (fst t + d * Z.of_nat (length (filter p l)),
     (snd t ++ map tag (filter p l))%list).
Proof.
  revert t. induction l as [| a l IH]; intros t; simpl.
  - rewrite Z.mul_0_r, Z.add_0_r, app_nil_r. now destruct t.
  - rewrite IH. destruct (p a); simpl.
    + rewrite <- app_assoc. simpl. f_equal. lia.
    + reflexivity.
Qed.

Lemma score_type_aliases_fst (q c : string) (t : tally) :
  fst (score_type_aliases q c t) = fst t + alias_bonus q c.
Proof.
  unfold score_type_aliases, alias_bonus.
  now rewrite (fold_bump (type_alias_hit q c) 40 (fun a => "type_match:" ++ fst a)).
Qed.

Lemma score_conduit_penalty_fst (q sec : string) (t : tally) :
  fst (score_conduit_penalty q sec t) = fst t - conduit_penalty q sec.
Proof.
  unfold score_conduit_penalty, conduit_penalty, other_conduit_tokens.
  destruct (query_conduit q) as [qc |]; [| lia].
  rewrite (fold_bump (conflicts qc sec) (-25) (fun ct => "wrong_type_penalty:" ++ ct)).
  cbn [fst]. lia.
Qed.

Lemma score_size_fst (qs : string) (e : Entry) (t : tally) :
  fst (score_size qs e t) = fst t + size_bonus qs e.
Proof.
  unfold score_size, size_bonus.
  destruct (Py.is_empty qs); [lia |].
  destruct (String.eqb (entry_size e) qs); cbn [fst bump]; lia.
Qed.

Lemma score_keywords_eq (kws : list string) (c : string) (t : tally) :
  score_keywords kws c t
  = (fst t + keyword_bonus kws c,
     (snd t ++ map (fun kw => ("keyword:" ++ kw)%string) (keyword_hits kws c))%list).
Proof.
  unfold score_keywords, keyword_bonus, keyword_hits.
  now rewrite (fold_bump (fun kw => Py.contains kw c) 15 (fun kw => "keyword:" ++ kw)).
Qed.

Lemma score_signals_sum (q qs : string) (kws : list string) (e : Entry) :
  fst (score_signals q qs kws e)
  = alias_bonus q (combined_text e) + size_bonus qs e
    + keyword_bonus kws (combined_text e)
    - conduit_penalty q (Py.lower (e_Section e)).
Proof.
  unfold score_signals.
  rewrite score_keywords_eq. cbn [fst].
  rewrite score_size_fst, score_conduit_penalty_fst, score_type_aliases_fst.
  cbn [fst]. lia.
Qed.

(** ** Candidates, search and best match *)

Section MatcherFacts.

Variable fuzz : fuzz_module.

Lemma collect_map_filter (qn qs : string) (kws : list string) (es : list Entry) :
  collect fuzz qn qs kws es
  = map (result_of fuzz qn qs kws) (filter (above_threshold fuzz qn qs kws) es).
Proof.
  induction es as [| e es IH]; [reflexivity |].
  cbn [collect filter]. unfold above_threshold at 1.
  destruct (score_entry fuzz qn qs kws e) as [score reasons] eqn:E; cbn [fst snd].
  destruct (Qlt_le_dec 20 score); cbn [map]; rewrite IH; [| reflexivity].
  unfold result_of. now rewrite E.
Qed.

Lemma score_entry_fst (qn qs : string) (kws : list string) (e : Entry) :
  fst (score_entry fuzz qn qs kws e)
  = (inject_Z (fst (score_signals qn qs kws e))
     + inject_Z (token_set_ratio fuzz qn (combined_text e)) * (3 # 10))%Q.
Proof. reflexivity. Qed.

Lemma round1_entry_score (query : string) (e : Entry) :
  (round1 (entry_score fuzz query e) == entry_score fuzz query e)%Q.
Proof.
  unfold entry_score. rewrite score_entry_fst, round1_raw_score.
  symmetry. apply raw_score_eq_tenths.
Qed.

(** A score above 20 is at least 20.1, and so is its rounding. *)
Lemma round1_above_threshold (query : string) (e : Entry) :
  (20 < entry_score fuzz query e)%Q -> (201 # 10 <= round1 (entry_score fuzz query e))%Q.
Proof.
  unfold entry_score. rewrite score_entry_fst, round1_raw_score.
  set (k := fst (score_signals _ _ _ e)).
  set (f := token_set_ratio fuzz _ _).
  rewrite raw_score_eq_tenths.
  unfold Qlt, Qle. simpl. lia.
Qed.

Lemma candidate_inv (self : LaborMatcher) (query : string) (r : MatchResult) :
  In r (candidates fuzz self query) ->
  In (mr_entry r) (entries self)
  /\ (20 < entry_score fuzz query (mr_entry r))%Q
  /\ mr_score r = round1 (entry_score fuzz query (mr_entry r)).
Proof.
  unfold candidates. rewrite collect_map_filter.
  intros H. apply in_map_iff in H. destruct H as [e [<- He]].
  apply filter_In in He. destruct He as [Hin Hq].
  unfold above_threshold in Hq.
  destruct (Qlt_le_dec 20 _) as [Hlt | _]; [| discriminate].
  repeat split; assumption.
Qed.

Lemma candidate_intro (self : LaborMatcher) (query : string) (e : Entry) :
  In e (entries self) -> (20 < entry_score fuzz query e)%Q ->
  exists r, In r (candidates fuzz self query)
            /\ mr_entry r = e /\ mr_score r = round1 (entry_score fuzz query e).
Proof.
  intros Hin Hq. unfold candidates. rewrite collect_map_filter.
  set (qn := normalize_description query) in *.
  exists (result_of fuzz qn (extract_size qn) (_extract_keywords qn) e).
  split; [| split; reflexivity].
  apply in_map. apply filter_In. split; [exact Hin |].
  unfold above_threshold. unfold entry_score in Hq.
  destruct (Qlt_le_dec 20 _) as [_ | Hle]; [reflexivity |].
  exfalso. exact (Qlt_not_le _ _ Hq Hle).
Qed.

(** The candidates are the qualifying entries in the order of the table. *)
Lemma candidates_table_order (self : LaborMatcher) (query : string) :
  map mr_entry (candidates fuzz self query)
  = filter (fun e => if Qlt_le_dec 20 (entry_score fuzz query e) then true else false)
           (entries self).
Proof.
  unfold candidates. rewrite collect_map_filter, map_map.
  unfold result_of, mr_entry. cbn [fst]. now rewrite map_id.
Qed.

Lemma search_incl (self : LaborMatcher) (query : string) (top_n : Z)
      (r : MatchResult) :
  In r (search fuzz self query top_n) -> In r (candidates fuzz self query).
Proof.
  unfold search. destruct (slice_to_firstn (sort_desc (candidates fuzz self query)) top_n)
    as [k ->].
  intros H. apply firstn_incl in H.
  exact (Permutation_in _ (Permutation_sym (sort_desc_perm _)) H).
Qed.

Lemma best_match_cases (self : LaborMatcher) (query : string) :
  (candidates fuzz self query = []
   /\ best_match fuzz self query = (None, 0%Q, "No match found"))
  \/ (exists top rest,
         sort_desc (candidates fuzz self query) = top :: rest
         /\ best_match fuzz self query
            = (Some (mr_entry top), py_min 100 (mr_score top), mr_reason top)).
Proof.
  unfold best_match, search, slice_to. simpl.
  destruct (sort_desc (candidates fuzz self query)) as [| top rest] eqn:E.
  - left. split; [| reflexivity].
    apply Permutation_nil. apply Permutation_sym.
    rewrite <- E. apply sort_desc_perm.
  - right. exists top, rest. split; [reflexivity |].
    now destruct top as [[e sc] rs].
Qed.

Lemma sorted_head_max (cands : list MatchResult) (top : MatchResult)
      (rest : list MatchResult) :
  sort_desc cands = top :: rest ->
  In top cands /\ forall r, In r cands -> (mr_score r <= mr_score top)%Q.
Proof.
  intros E. pose proof (sort_desc_perm cands) as P.
  pose proof (sort_desc_sorted cands) as S. rewrite E in P, S.
  split.
  - apply (Permutation_in _ (Permutation_sym P)). now left.
  - intros r Hr. apply (Permutation_in _ P) in Hr.
    destruct Hr as [<- | Hr]; [apply Qle_refl |].
    inversion S as [| ? ? _ Hall]; subst.
    exact (proj1 (Forall_forall _ _) Hall r Hr).
Qed.

End MatcherFacts.

Lemma entry_score_split (fuzz : fuzz_module) (query : string) (e : Entry) :
  entry_score fuzz query e
  = (inject_Z (signal_score query e) + inject_Z (query_ratio fuzz query e) * (3 # 10))%Q.
Proof. reflexivity. Qed.

Lemma entry_score_tenths (fuzz : fuzz_module) (query : string) (e : Entry) :
  (entry_score fuzz query e
   == (10 * signal_score query e + 3 * query_ratio fuzz query e) # 10)%Q.
Proof. rewrite entry_score_split. apply raw_score_eq_tenths. Qed.

Lemma tenths_lt (a b : Z) : (a # 10 < b # 10)%Q <-> a < b.
Proof. unfold Qlt. simpl. lia. Qed.

Lemma tenths_le (a b : Z) : (a # 10 <= b # 10)%Q <-> a <= b.
Proof. unfold Qle. simpl. lia. Qed.

Lemma entry_score_lt (fuzz : fuzz_module) (query : string) (e e' : Entry) :
  (entry_score fuzz query e < entry_score fuzz query e')%Q
  <-> 10 * signal_score query e + 3 * query_ratio fuzz query e
      < 10 * signal_score query e' + 3 * query_ratio fuzz query e'.
Proof. rewrite !entry_score_tenths. apply tenths_lt. Qed.

Lemma entry_score_above (fuzz : fuzz_module) (query : string) (e : Entry) :
  (20 < entry_score fuzz query e)%Q
  <-> 200 < 10 * signal_score query e + 3 * query_ratio fuzz query e.
Proof.
  rewrite entry_score_tenths.
  setoid_replace 20%Q with (200 # 10) by reflexivity. apply tenths_lt.
Qed.

Section BestMatchFacts.

Variable fuzz : fuzz_module.

(** What [best_match] returns when it returns an entry: a qualifying entry
    of the table whose score no entry of the table exceeds. *)
Lemma best_match_some_max (self : LaborMatcher) (query : string)
      (e : Entry) (conf : Q) (reason : string) :
  best_match fuzz self query = (Some e, conf, reason) ->
  In e (entries self)
  /\ (20 < entry_score fuzz query e)%Q
  /\ (forall e', In e' (entries self) ->
                 (entry_score fuzz query e' <= entry_score fuzz query e)%Q)
  /\ conf = py_min 100 (round1 (entry_score fuzz query e)).
Proof.
  intros H.
  destruct (best_match_cases fuzz self query) as [[_ E] | [top [rest [Es E]]]];
    rewrite E in H; [discriminate |].
  injection H as <- <- <-.
  destruct (sorted_head_max _ _ _ Es) as [Hin Hmax].
  destruct (candidate_inv fuzz self query top Hin) as [Hent [Hq Hsc]].
  repeat split; try assumption.
  - intros e' He'.
    destruct (Qlt_le_dec 20 (entry_score fuzz query e')) as [Hq' | Hle].
    + destruct (candidate_intro fuzz self query e' He' Hq') as [r [Hr [_ Hrs]]].
      specialize (Hmax r Hr). rewrite Hrs, Hsc in Hmax.
      now rewrite !round1_entry_score in Hmax.
    + apply Qle_trans with 20%Q; [exact Hle | now apply Qlt_le_weak].
  - now rewrite Hsc.
Qed.

Lemma best_match_none (self : LaborMatcher) (query : string) :
  (forall e, In e (entries self) -> ~ (20 < entry_score fuzz query e)%Q) ->
  best_match fuzz self query = (None, 0%Q, "No match found").
Proof.
  intros Hno.
  destruct (best_match_cases fuzz self query) as [[_ E] | [top [rest [Es _]]]];
    [exact E |].
  exfalso. destruct (sorted_head_max _ _ _ Es) as [Hin _].
  destruct (candidate_inv fuzz self query top Hin) as [Hent [Hq _]].
  exact (Hno _ Hent Hq).
Qed.

Lemma best_match_some (self : LaborMatcher) (query : string) (e : Entry) :
  In e (entries self) -> (20 < entry_score fuzz query e)%Q ->
  exists top,
    In top (candidates fuzz self query)
    /\ (forall r, In r (candidates fuzz self query) ->
                  (mr_score r <= mr_score top)%Q)
    /\ best_match fuzz self query
       = (Some (mr_entry top), py_min 100 (mr_score top), mr_reason top).
Proof.
  intros Hin Hq.
  destruct (candidate_intro fuzz self query e Hin Hq) as [r [Hr _]].
  destruct (best_match_cases fuzz self query) as [[En _] | [top [rest [Es E]]]].
  - rewrite En in Hr. destruct Hr.
  - exists top. destruct (sorted_head_max _ _ _ Es) as [Hint Hmax].
    repeat split; assumption.
Qed.

(** The confidence of a returned entry is above 20 and at most 100. *)
Lemma confidence_bounds (x : Q) :
  (201 # 10 <= x)%Q -> (20 < py_min 100 x /\ py_min 100 x <= 100)%Q.
Proof.
  intros Hx. unfold py_min.
  destruct (Qlt_le_dec x 100) as [Hlt | Hle].
  - split; [| now apply Qlt_le_weak].
    apply Qlt_le_trans with (201 # 10); [reflexivity | exact Hx].
  - split; [reflexivity | apply Qle_refl].
Qed.

End BestMatchFacts.

(** ** The sample ratio function *)

Lemma exact_fuzz_in_range : ratio_in_range exact_fuzz.
Proof.
  intros a b. simpl. destruct (String.eqb a b); lia.
Qed.

(** ** Confidence of the best match *)

(** C2. Over a non-empty reference table and for every query, the empty one
    included, the confidence that [best_match] returns lies in [0, 100]; when
    some entry qualifies it is [min(100, s)] for [s] the highest score among
    the candidates, and when no entry qualifies [best_match] returns no
    entry, the confidence 0 and the reason "No match found". *)
Theorem best_match_confidence
        (fuzz : fuzz_module) (self : LaborMatcher) (query : string) :
  entries self <> [] ->
  (let '(_, confidence, _) := best_match fuzz self query in
   (0 <= confidence /\ confidence <= 100)%Q)
  /\ ((exists e, In e (entries self) /\ (20 < entry_score fuzz query e)%Q) ->
      exists top,
        In top (candidates fuzz self query)
        /\ (forall r, In r (candidates fuzz self query) ->
                      (mr_score r <= mr_score top)%Q)
        /\ best_match fuzz self query
           = (Some (mr_entry top), Qmin 100 (mr_score top), mr_reason top))
  /\ ((forall e, In e (entries self) -> ~ (20 < entry_score fuzz query e)%Q) ->
      best_match fuzz self query = (None, 0%Q, "No match found")).
Proof.
  intros _. split; [| split].
  - destruct (best_match fuzz self query) as [[oe conf] reason] eqn:E.
    destruct oe as [e |].
    + destruct (best_match_some_max fuzz self query e conf reason E)
        as [_ [Hq [_ ->]]].
      destruct (confidence_bounds _ (round1_above_threshold fuzz query e Hq))
        as [Hlo Hhi].
      split; [| exact Hhi].
      apply Qlt_le_weak. apply Qlt_trans with 20%Q; [reflexivity | exact Hlo].
    + destruct (best_match_cases fuzz self query) as [[_ E'] | [top [rest [_ E']]]];
        rewrite E' in E; [| discriminate].
      injection E as <- _. split; [apply Qle_refl | discriminate].
  - intros [e [Hin Hq]].
    destruct (best_match_some fuzz self query e Hin Hq) as [top [H1 [H2 H3]]].
    exists top. rewrite <- py_min_Qmin. repeat split; assumption.
  - apply best_match_none.
Qed.

Lemma best_match_confidence_witness :
  entries emt_table <> []
  /\ (let '(_, confidence, _) := best_match exact_fuzz emt_table "3/4 emt" in
      (0 <= confidence /\ confidence <= 100)%Q).
Proof.
  assert (H : entries emt_table <> []) by (vm_compute; discriminate).
  split; [exact H |].
  exact (proj1 (best_match_confidence exact_fuzz emt_table "3/4 emt" H)).
Defined.

(** C10. Every result of [search] belongs to an entry whose raw score is
    strictly above 20 and carries that score rounded to one decimal place;
    hence the confidence of [best_match] is strictly above 20 and at most 100
    when an entry is returned, and exactly 0 when none is: no confidence lies
    in the interval from 0 (excluded) to 20 (included). *)
Theorem best_match_confidence_above_threshold
        (fuzz : fuzz_module) (self : LaborMatcher) (query : string) :
  (forall top_n r, In r (search fuzz self query top_n) ->
     (20 < entry_score fuzz query (mr_entry r))%Q
     /\ mr_score r = round1 (entry_score fuzz query (mr_entry r))
     /\ (20 < mr_score r)%Q)
  /\ match best_match fuzz self query with
     | (Some _, confidence, _) => (20 < confidence /\ confidence <= 100)%Q
     | (None, confidence, _) => confidence = 0%Q
     end.
Proof.
  split.
  - intros top_n r Hr. apply search_incl in Hr.
    destruct (candidate_inv fuzz self query r Hr) as [_ [Hq Hsc]].
    repeat split; try assumption.
    rewrite Hsc.
    apply Qlt_le_trans with (201 # 10);
      [reflexivity | now apply round1_above_threshold].
  - destruct (best_match fuzz self query) as [[oe conf] reason] eqn:E.
    destruct oe as [e |].
    + destruct (best_match_some_max fuzz self query e conf reason E)
        as [_ [Hq [_ ->]]].
      exact (confidence_bounds _ (round1_above_threshold fuzz query e Hq)).
    + destruct (best_match_cases fuzz self query) as [[_ E'] | [top [rest [_ E']]]];
        rewrite E' in E; [| discriminate].
      now injection E as <- _.
Qed.

Lemma best_match_confidence_above_threshold_witness :
  In emt_half_result (search exact_fuzz mixed_table "3/4 emt" 1)
  /\ (20 < mr_score emt_half_result)%Q.
Proof.
  assert (H : In emt_half_result (search exact_fuzz mixed_table "3/4 emt" 1))
    by (vm_compute; left; reflexivity).
  split; [exact H |].
  exact (proj2 (proj2 (proj1 (best_match_confidence_above_threshold
                                exact_fuzz mixed_table "3/4 emt")
                             1 emt_half_result H))).
Defined.

(** ** Ranking *)

Lemma qualifies_when (fuzz : fuzz_module) (query : string) (e : Entry) :
  ratio_in_range fuzz -> 21 <= signal_score query e ->
  (20 < entry_score fuzz query e)%Q.
Proof.
  intros Hr Hk. apply entry_score_above.
  pose proof (Hr (normalize_description query) (combined_text e)) as Hf.
  unfold query_ratio. lia.
Qed.

(** C3. [search] returns at most [top_n] results, [top_n] being a number of
    results and so not negative, in descending order of score; for each score, the results with
    that score are, in the same order, the first ones of the candidates with
    that score, and the candidates are the qualifying entries in the order of
    the reference table; two matchers over the same table content return the
    same list for the same query. *)
Theorem search_top_n_sorted_stable
        (fuzz : fuzz_module) (self : LaborMatcher) (query : string) (top_n : Z) :
  0 <= top_n ->
  let results := search fuzz self query top_n in
  Z.of_nat (length results) <= top_n
  /\ StronglySorted by_score_desc results
  /\ (forall s, exists later,
         filter (has_score s) (candidates fuzz self query)
         = (filter (has_score s) results ++ later)%list)
  /\ map mr_entry (candidates fuzz self query)
     = filter (fun e => if Qlt_le_dec 20 (entry_score fuzz query e)
                        then true else false)
              (entries self)
  /\ (forall self', entries self' = entries self ->
                    search fuzz self' query top_n = results).
Proof.
  intros Hn results. subst results. unfold search.
  split; [now apply slice_to_length |].
  destruct (slice_to_firstn (sort_desc (candidates fuzz self query)) top_n)
    as [k Hk].
  split; [| split; [| split]].
  - rewrite Hk. apply firstn_sorted, sort_desc_sorted.
  - intros s. rewrite Hk.
    exists (filter (has_score s) (skipn k (sort_desc (candidates fuzz self query)))).
    rewrite <- firstn_filter_prefix. symmetry. apply sort_desc_stable.
  - apply candidates_table_order.
  - intros self' E. unfold candidates. now rewrite E.
Qed.

Lemma search_top_n_sorted_stable_witness :
  0 <= 1
  /\ Z.of_nat (length (search exact_fuzz mixed_table "3/4 emt" 1)) <= 1.
Proof.
  assert (H : 0 <= 1) by lia.
  split; [exact H |].
  exact (proj1 (search_top_n_sorted_stable exact_fuzz mixed_table "3/4 emt" 1 H)).
Defined.

(** Both rows of [emt_table] qualify for the query "emt", whatever ratios
    [thefuzz] reports. *)
Lemma emt_table_candidates (fuzz : fuzz_module) :
  ratio_in_range fuzz -> length (candidates fuzz emt_table "emt") = 2%nat.
Proof.
  intros Hr.
  rewrite <- (length_map mr_entry), candidates_table_order.
  cbn [entries emt_table filter].
  assert (H1 : (20 < entry_score fuzz "emt" emt_half)%Q)
    by (apply qualifies_when; [exact Hr | vm_compute; discriminate]).
  assert (H2 : (20 < entry_score fuzz "emt" emt_three_quarter)%Q)
    by (apply qualifies_when; [exact Hr | vm_compute; discriminate]).
  destruct (Qlt_le_dec 20 (entry_score fuzz "emt" emt_half)) as [_ | Hle];
    [| exfalso; exact (Qlt_not_le _ _ H1 Hle)].
  destruct (Qlt_le_dec 20 (entry_score fuzz "emt" emt_three_quarter)) as [_ | Hle];
    [| exfalso; exact (Qlt_not_le _ _ H2 Hle)].
  reflexivity.
Qed.

(** A negative [top_n] is a slice bound counted from the end: with two
    qualifying entries and [top_n = -1] the last result is dropped. *)
Lemma search_minus_one_keeps_one (fuzz : fuzz_module) :
  ratio_in_range fuzz -> length (search fuzz emt_table "emt" (-1)) = 1%nat.
Proof.
  intros Hr. unfold search, slice_to.
  change (0 <=? -1) with false. cbv iota.
  rewrite length_firstn, <- (Permutation_length (sort_desc_perm _)).
  now rewrite (emt_table_candidates fuzz Hr).
Qed.

(** ** The conduit-type penalty *)

Lemma emt_word_query_conduit (query_norm : string) :
  In "emt" (Py.split query_norm) -> query_conduit query_norm = Some "emt".
Proof.
  intros H. unfold query_conduit, conduit_types. cbn [find].
  assert (E : Py.mem "emt" (Py.split query_norm) = true).
  { unfold Py.mem. apply existsb_exists. exists "emt".
    split; [exact H | apply String.eqb_refl]. }
  now rewrite E.
Qed.

(** On [mixed_table] the query for a PVC-to-EMT coupling names "emt", the
    EMT row qualifies, and the PVC row still wins: its bonuses exceed those of
    the EMT row by more than the penalty and the largest possible difference
    of the similarity terms together. *)
Lemma transition_query_scores (fuzz : fuzz_module) :
  ratio_in_range fuzz ->
  (20 < entry_score fuzz transition_query emt_half)%Q
  /\ (entry_score fuzz transition_query emt_half
      < entry_score fuzz transition_query pvc_coupling)%Q.
Proof.
  intros Hr.
  assert (Ka : signal_score transition_query emt_half = 55)
    by (vm_compute; reflexivity).
  assert (Kb : signal_score transition_query pvc_coupling = 130)
    by (vm_compute; reflexivity).
  split.
  - apply qualifies_when; [exact Hr | rewrite Ka; lia].
  - apply entry_score_lt. rewrite Ka, Kb.
    pose proof (Hr (normalize_description transition_query) (combined_text emt_half)).
    pose proof (Hr (normalize_description transition_query) (combined_text pvc_coupling)).
    unfold query_ratio. lia.
Qed.

(** C7 as stated fails: for no ratio function within the documented range
    does the property hold of [mixed_table] and the query
    "3/4 pvc to emt coupling"; [best_match] returns the row of the section
    "PVC CONDUIT". *)
Lemma emt_query_returns_pvc_counterexample :
  ~ exists fuzz : fuzz_module,
      ratio_in_range fuzz
      /\ emt_match_excludes_other_types fuzz mixed_table transition_query.
Proof.
  intros [fuzz [Hr H]].
  destruct (transition_query_scores fuzz Hr) as [Hq Hlt].
  assert (Hw : In "emt" (Py.split (normalize_description transition_query)))
    by (vm_compute; tauto).
  assert (Hin : In emt_half (entries mixed_table)) by (now left).
  assert (Hex : exists e, In e (entries mixed_table)
             /\ (Py.contains "emt" (Py.lower (e_Section e))
                 || Py.contains "emt" (Py.lower (e_Category e)))%bool = true
             /\ (20 < entry_score fuzz transition_query e)%Q).
  { exists emt_half. split; [exact Hin | split; [reflexivity | exact Hq]]. }
  destruct (best_match_some fuzz mixed_table transition_query emt_half Hin Hq)
    as [top [_ [_ Hb]]].
  specialize (H Hw Hex _ _ _ Hb).
  destruct (best_match_some_max fuzz _ _ _ _ _ Hb) as [He [_ [Hmax _]]].
  destruct He as [He | [He | []]].
  - specialize (Hmax pvc_coupling (or_intror (or_introl eq_refl))).
    rewrite <- He in Hmax. exact (Qlt_not_le _ _ Hlt Hmax).
  - apply (H "pvc").
    + vm_compute. tauto.
    + discriminate.
    + rewrite <- He. vm_compute. tauto.
Qed.

(** C7, amended. When "emt" is a word of the query, the score of every
    entry is the sum of its type-alias, size, keyword and similarity terms
    minus 25 for each conduit type other than "emt" that is a word of the
    entry's section; the entry that [best_match] returns is an entry of the
    table that scores above 20 and that no entry of the table outscores. *)
Theorem emt_query_conflict_penalty
        (fuzz : fuzz_module) (self : LaborMatcher) (query : string) :
  In "emt" (Py.split (normalize_description query)) ->
  (forall entry,
      let query_norm := normalize_description query in
      let combined := combined_text entry in
      (entry_score fuzz query entry
       == inject_Z (alias_bonus query_norm combined
                    + size_bonus (extract_size query_norm) entry
                    + keyword_bonus (_extract_keywords query_norm) combined)
          + inject_Z (token_set_ratio fuzz query_norm combined) * (3 # 10)
          - inject_Z (25 * Z.of_nat (other_conduit_tokens
                                       "emt" (Py.lower (e_Section entry)))))%Q)
  /\ (forall e conf reason,
         best_match fuzz self query = (Some e, conf, reason) ->
         In e (entries self)
         /\ (20 < entry_score fuzz query e)%Q
         /\ (forall e', In e' (entries self) ->
                        (entry_score fuzz query e' <= entry_score fuzz query e)%Q)).
Proof.
  intros Hw. split.
  - intros entry. cbv zeta.
    rewrite entry_score_split. unfold signal_score, query_ratio.
    rewrite score_signals_sum.
    unfold conduit_penalty. rewrite (emt_word_query_conduit _ Hw).
    unfold Z.sub. rewrite inject_Z_plus, inject_Z_opp. ring.
  - intros e conf reason Hb.
    destruct (best_match_some_max fuzz self query e conf reason Hb)
      as [H1 [H2 [H3 _]]].
    repeat split; assumption.
Qed.

Lemma emt_query_conflict_penalty_witness :
  In "emt" (Py.split (normalize_description transition_query))
  /\ (forall e conf reason,
         best_match exact_fuzz mixed_table transition_query = (Some e, conf, reason) ->
         In e (entries mixed_table)).
Proof.
  assert (Hw : In "emt" (Py.split (normalize_description transition_query)))
    by (vm_compute; tauto).
  split; [exact Hw |].
  intros e conf reason Hb.
  exact (proj1 (proj2 (emt_query_conflict_penalty exact_fuzz mixed_table
                         transition_query Hw) e conf reason Hb)).
Defined.

(** ** Keywords *)

Lemma count_occ_filter (p : string -> bool) (l : list string) (w : string) :
  count_occ string_dec (filter p l) w
  = if p w then count_occ string_dec l w else 0%nat.
Proof.
  induction l as [| x l IH]; simpl.
  - now destruct (p w).
  - destruct (p x) eqn:Ex; simpl; destruct (string_dec x w) as [-> | Hne].
    + rewrite IH, Ex. reflexivity.
    + exact IH.
    + rewrite IH, Ex. reflexivity.
    + exact IH.
Qed.

Lemma keyword_hits_repeat (kw c : string) (n : nat) :
  length (keyword_hits (repeat kw n) c) = if Py.contains kw c then n else 0%nat.
Proof.
  unfold keyword_hits. induction n as [| n IH]; simpl.
  - now destruct (Py.contains kw c).
  - destruct (Py.contains kw c); simpl; now rewrite IH.
Qed.

(** C6 as stated fails: the keywords of "emt emt" are "emt" twice, and the
    keyword bonus of the EMT row for them is 30, the reason recorded
    twice. *)
Lemma repeated_keyword_counterexample :
  _extract_keywords (normalize_description "emt emt") = ["emt"; "emt"]
  /\ ~ NoDup (_extract_keywords (normalize_description "emt emt"))
  /\ score_keywords (_extract_keywords (normalize_description "emt emt"))
                    (combined_text emt_half) (0, [])
     = (30, ["keyword:emt"; "keyword:emt"]).
Proof.
  split; [reflexivity | split; [| reflexivity]].
  change (_extract_keywords (normalize_description "emt emt")) with ["emt"; "emt"].
  intros H. inversion H as [| x l Hnotin _]; subst.
  apply Hnotin. now left.
Qed.

(** C6, amended. [_extract_keywords] returns the words of the text that are
    not stop words and are longer than one character, each as many times as
    it occurs in the text; scoring adds 15 for every element of that list
    that occurs in the combined text, so a keyword repeated [n] times in the
    query earns the bonus [n] times. *)
Theorem keyword_bonus_per_occurrence :
  (forall desc w,
      count_occ string_dec (_extract_keywords desc) w
      = if is_keyword w then count_occ string_dec (Py.split desc) w else 0%nat)
  /\ (forall kws c t,
         fst (score_keywords kws c t)
         = fst t + 15 * Z.of_nat (length (filter (fun kw => Py.contains kw c) kws)))
  /\ (forall kw n c t,
         fst (score_keywords (repeat kw n) c t)
         = fst t + (if Py.contains kw c then 15 * Z.of_nat n else 0)).
Proof.
  split; [| split].
  - intros desc w. unfold _extract_keywords. apply count_occ_filter.
  - intros kws c t. now rewrite score_keywords_eq.
  - intros kw n c t. rewrite score_keywords_eq. cbn [fst].
    unfold keyword_bonus. rewrite keyword_hits_repeat.
    destruct (Py.contains kw c); lia.
Qed.

(** ** Construction of the matcher *)

(** C5 as stated fails: over a table without rows the construction raises
    nothing and yields a matcher. *)
Lemma empty_table_constructs_counterexample :
  LaborMatcher_init empty_db_fs default_db_path = Ok {| entries := [] |}
  /\ ~ exists e, LaborMatcher_init empty_db_fs default_db_path = Raise e.
Proof.
  split; [reflexivity |].
  intros [e H]. discriminate H.
Qed.

(** C5, amended. Constructing a matcher raises when the table file cannot be
    loaded, with the exception of the step that fails: an [OSError] when the
    file cannot be opened, a [UnicodeDecodeError] when its bytes are not
    UTF-8, a [csv.Error] when the reader rejects its text.  Otherwise it
    succeeds with the rows of the file, also when there are none; a matcher
    without entries answers every query with no entry, the confidence 0 and
    "No match found". *)
Theorem matcher_construction (fs : filesystem) (db_path : string) :
  match fs db_path with
  | Unopenable => LaborMatcher_init fs db_path = Raise OSError
  | Undecodable => LaborMatcher_init fs db_path = Raise UnicodeDecodeError
  | Unparsable => LaborMatcher_init fs db_path = Raise csv_Error
  | Rows rows => LaborMatcher_init fs db_path = Ok {| entries := rows |}
  end
  /\ (forall fuzz query,
         best_match fuzz {| entries := [] |} query
         = (None, 0%Q, "No match found")).
Proof.
  split.
  - unfold LaborMatcher_init, load_db. now destruct (fs db_path).
  - reflexivity.
Qed.

(** ** Labor extension *)

(** The [float]s 100.0 and 1000.0 of the machine are the values that the
    model divides by. *)
Lemma number_of_int_literals :
  FloatOps.Prim2SF (float_of_int 100) = number_of_int 100
  /\ FloatOps.Prim2SF (float_of_int 1000) = number_of_int 1000.
Proof. split; reflexivity. Qed.

(** C1. For every binary64 quantity and labor value, NaN and the infinities
    included, [calculate_labor_extension] returns the binary64 product
    quantity times labor value for the unit "E", the quantity divided by
    100.0 and then multiplied by the labor value for "C", the quantity
    divided by 1000.0 and then multiplied by the labor value for "M", and the
    per-each product for every other unit string; the quantity unit has no
    effect on the result.  The product and the quotient are those of the
    primitive binary64 numbers. *)
Theorem calculate_labor_extension_by_unit
        (qty : PrimFloat.float) (qty_unit : string) (labor_value : PrimFloat.float)
        (labor_unit : string) :
  calculate_labor_extension (FloatOps.Prim2SF qty) qty_unit
                            (FloatOps.Prim2SF labor_value) "E"
  = FloatOps.Prim2SF (PrimFloat.mul qty labor_value)
  /\ calculate_labor_extension (FloatOps.Prim2SF qty) qty_unit
                               (FloatOps.Prim2SF labor_value) "C"
     = FloatOps.Prim2SF
         (PrimFloat.mul (PrimFloat.div qty (float_of_int 100)) labor_value)
  /\ calculate_labor_extension (FloatOps.Prim2SF qty) qty_unit
                               (FloatOps.Prim2SF labor_value) "M"
     = FloatOps.Prim2SF
         (PrimFloat.mul (PrimFloat.div qty (float_of_int 1000)) labor_value)
  /\ (labor_unit <> "E" -> labor_unit <> "C" -> labor_unit <> "M" ->
      calculate_labor_extension (FloatOps.Prim2SF qty) qty_unit
                                (FloatOps.Prim2SF labor_value) labor_unit
      = FloatOps.Prim2SF (PrimFloat.mul qty labor_value))
  /\ (forall other_unit,
         calculate_labor_extension (FloatOps.Prim2SF qty) other_unit
                                   (FloatOps.Prim2SF labor_value) labor_unit
         = calculate_labor_extension (FloatOps.Prim2SF qty) qty_unit
                                     (FloatOps.Prim2SF labor_value) labor_unit).
Proof.
  destruct number_of_int_literals as [H100 H1000].
  assert (HE : num_mul (FloatOps.Prim2SF qty) (FloatOps.Prim2SF labor_value)
               = FloatOps.Prim2SF (PrimFloat.mul qty labor_value))
    by (symmetry; apply FloatAxioms.mul_spec).
  assert (HD : forall d : PrimFloat.float,
             num_mul (SpecFloat.SFdiv prec emax (FloatOps.Prim2SF qty)
                                      (FloatOps.Prim2SF d))
                     (FloatOps.Prim2SF labor_value)
             = FloatOps.Prim2SF (PrimFloat.mul (PrimFloat.div qty d) labor_value)).
  { intros d. rewrite FloatAxioms.mul_spec, FloatAxioms.div_spec. reflexivity. }
  split; [exact HE |].
  split; [unfold calculate_labor_extension, num_div_int; cbn [String.eqb];
          rewrite <- H100; apply HD |].
  split; [unfold calculate_labor_extension, num_div_int; cbn [String.eqb];
          rewrite <- H1000; apply HD |].
  split; [| reflexivity].
  intros NE NC NM. unfold calculate_labor_extension.
  apply String.eqb_neq in NE, NC, NM. rewrite NE, NC, NM. exact HE.
Qed.

Lemma calculate_labor_extension_by_unit_witness :
  "each" <> "E" /\ "each" <> "C" /\ "each" <> "M"
  /\ calculate_labor_extension (FloatOps.Prim2SF (float_of_int 250)) "feet"
                               (FloatOps.Prim2SF (float_of_int 5)) "each"
     = FloatOps.Prim2SF (PrimFloat.mul (float_of_int 250) (float_of_int 5)).
Proof.
  assert (HE : "each" <> "E") by discriminate.
  assert (HC : "each" <> "C") by discriminate.
  assert (HM : "each" <> "M") by discriminate.
  split; [exact HE | split; [exact HC | split; [exact HM |]]].
  exact (proj1 (proj2 (proj2 (proj2
           (calculate_labor_extension_by_unit
              (float_of_int 250) "feet" (float_of_int 5) "each"))))
           HE HC HM).
Defined.

(** The end-to-end scenario of the specification: 250 feet at 5.0 hours per
    hundred are 12.5 hours, exactly.  The hours are binary64 numbers all the
    same: 240 feet at 3.0 hours per hundred are not the [float] 7.2 but the
    one below it, 7.199999999999999, the quotient 2.4 being rounded before
    the product is. *)
Lemma labor_extension_examples :
  calculate_labor_extension (number_of_int 250) "feet" (number_of_int 5) "C"
  = FloatOps.Prim2SF (binary64_ratio 125 10)
  /\ has_value (FloatOps.Prim2SF (binary64_ratio 125 10)) (125 # 10)
  /\ calculate_labor_extension (number_of_int 240) "feet" (number_of_int 3) "C"
     = FloatOps.Prim2SF (PrimFloat.next_down (binary64_ratio 72 10))
  /\ FloatOps.Prim2SF (PrimFloat.next_down (binary64_ratio 72 10))
     <> FloatOps.Prim2SF (binary64_ratio 72 10).
Proof.
  split; [vm_compute; reflexivity |].
  split; [eexists; split; [vm_compute; reflexivity | reflexivity] |].
  split; [vm_compute; reflexivity | vm_compute; discriminate].
Qed.

(** ** Normalisation of decimal sizes *)

(** C8, on the inputs where the code departs from it. A standalone ".75"
    is left as it is, because no word boundary precedes a point that starts a
    token; "1.5" becomes "11/2", "0.75" becomes "03/4" and "12.5" becomes
    "121/2", because the entries ".5" and ".75" of the table match behind a
    digit, inside the longer token; of these only "1.25" is rewritten as the
    table says. *)
Theorem normalize_description_decimal_sizes :
  normalize_description ".75 emt" = ".75 emt"
  /\ normalize_description "1.5 emt" = "11/2 emt"
  /\ normalize_description "0.75 emt" = "03/4 emt"
  /\ normalize_description "12.5 emt" = "121/2 emt"
  /\ normalize_description "1.25 emt" = "1 1/4 emt".
Proof.
  repeat split; reflexivity.
Qed.

(** ** Rounding to binary64 *)

Lemma shr_1_nonneg (mrs : SpecFloat.shr_record) :
  0 <= SpecFloat.shr_m mrs -> 0 <= SpecFloat.shr_m (SpecFloat.shr_1 mrs).
Proof.
  destruct mrs as [m r s]. cbn [SpecFloat.shr_m].
  destruct m as [| [p | p |] | p]; cbn; lia.
Qed.

Lemma iter_pos_inv {A : Type} (P : A -> Prop) (f : A -> A) :
  (forall x, P x -> P (f x)) ->
  forall n x, P x -> P (SpecFloat.iter_pos f n x).
Proof.
  intros Hf. induction n as [n IH | n IH |]; intros x Hx;
    cbn [SpecFloat.iter_pos]; auto.
Qed.

Lemma shr_fexp_nonneg (m e : Z) (l : SpecFloat.location) :
  0 <= m -> 0 <= SpecFloat.shr_m (fst (SpecFloat.shr_fexp prec emax m e l)).
Proof.
  intros Hm. unfold SpecFloat.shr_fexp, SpecFloat.shr.
  assert (H0 : 0 <= SpecFloat.shr_m (SpecFloat.shr_record_of_loc m l)).
  { destruct l as [| []]; exact Hm. }
  destruct (SpecFloat.fexp prec emax (SpecFloat.Zdigits2 m + e) - e);
    cbn [fst]; try exact H0.
  apply (iter_pos_inv (fun mrs => 0 <= SpecFloat.shr_m mrs));
    [apply shr_1_nonneg | exact H0].
Qed.

Lemma round_nearest_even_nonneg (m : Z) (l : SpecFloat.location) :
  0 <= m -> 0 <= SpecFloat.round_nearest_even m l.
Proof.
  intros Hm. destruct l as [| []]; cbn; try lia.
  destruct (Z.even m); lia.
Qed.

(** Rounding a mantissa that is not negative gives a zero, a finite number
    or an infinity of the sign that was asked for. *)
Lemma binary_round_aux_sign (s : bool) (mx ex : Z) (lx : SpecFloat.location) :
  0 <= mx -> has_sign s (SpecFloat.binary_round_aux prec emax s mx ex lx).
Proof.
  intros Hm. unfold SpecFloat.binary_round_aux.
  pose proof (shr_fexp_nonneg mx ex lx Hm) as H1.
  destruct (SpecFloat.shr_fexp prec emax mx ex lx) as [mrs' e']. cbn [fst] in H1.
  pose proof (shr_fexp_nonneg
                (SpecFloat.round_nearest_even (SpecFloat.shr_m mrs')
                                              (SpecFloat.loc_of_shr_record mrs'))
                e' SpecFloat.loc_Exact
                (round_nearest_even_nonneg _ _ H1)) as H2.
  destruct (SpecFloat.shr_fexp prec emax _ e' SpecFloat.loc_Exact) as [mrs'' e''].
  cbn [fst] in H2.
  destruct (SpecFloat.shr_m mrs'') as [| m | m]; [reflexivity | | lia].
  destruct (e'' <=? emax - prec); reflexivity.
Qed.

Lemma binary_normalize_round (s : bool) (p : positive) :
  SpecFloat.binary_normalize prec emax (SpecFloat.cond_Zopp s (Z.pos p)) 0 s
  = SpecFloat.binary_round prec emax s p 0.
Proof. now destruct s. Qed.

Lemma binary_normalize_sign (s : bool) (z : Z) :
  0 <= z ->
  has_sign s (SpecFloat.binary_normalize prec emax (SpecFloat.cond_Zopp s z) 0 s).
Proof.
  intros Hz. destruct z as [| p | p]; [now destruct s | | lia].
  rewrite binary_normalize_round. unfold SpecFloat.binary_round.
  destruct (SpecFloat.shl_align p 0 _) as [mz ez].
  apply binary_round_aux_sign. lia.
Qed.

Lemma SFdiv_core_nonneg (m1 e1 m2 e2 : Z) :
  0 <= m1 -> 0 < m2 ->
  0 <= fst (fst (SpecFloat.SFdiv_core_binary prec emax m1 e1 m2 e2)).
Proof.
  intros H1 H2. unfold SpecFloat.SFdiv_core_binary.
  set (s := e1 - e2 - _).
  set (m' := match s with
             | Z.pos _ => Z.shiftl m1 s
             | Z0 => m1
             | Z.neg _ => 0
             end).
  assert (Hm' : 0 <= m').
  { subst m'. destruct s; try lia. now apply Z.shiftl_nonneg. }
  pose proof (Z_div_mod m' m2 ltac:(lia)) as Hd.
  destruct (Z.div_eucl m' m2) as [q r]. cbn [fst].
  destruct Hd as [Hq Hr]. nia.
Qed.

(** The [float] read from digits has the sign that stands in front of the
    digits, and is not a NaN. *)
Lemma decimal_sign (s : bool) (n e : Z) :
  0 <= n -> has_sign s (PyFloat.decimal s n e).
Proof.
  intros Hn. unfold PyFloat.decimal.
  destruct (0 <=? e) eqn:He.
  - apply binary_normalize_sign. apply Z.leb_le in He.
    apply Z.mul_nonneg_nonneg; [exact Hn | now apply Z.pow_nonneg].
  - destruct n as [| p | p]; [reflexivity | | reflexivity].
    unfold SpecFloat.SFdiv.
    pose proof (SFdiv_core_nonneg (Z.pos p) 0 (Z.pos (Z.to_pos (10 ^ (- e)))) 0
                                  ltac:(lia) ltac:(lia)) as Hq.
    destruct (SpecFloat.SFdiv_core_binary _ _ _ _ _ _) as [[mz ez] lz].
    cbn [fst] in Hq.
    rewrite xorb_false_r. now apply binary_round_aux_sign.
Qed.

(** On the numerals of [Binary64Literals] the rounding of [decimal] gives the
    binary64 number that the numeral denotes. *)
Lemma decimal_agrees_with_literals :
  Forall (fun '(n, e, f) => PyFloat.decimal false n e = FloatOps.Prim2SF f)
         Binary64Literals.literals.
Proof. repeat constructor; vm_compute; reflexivity. Qed.

Lemma has_sign_nonnegative (v : number) : has_sign false v -> nonnegative v.
Proof.
  destruct v as [s | s | | s m e]; cbn; try (now intros ->); intros [].
Qed.

Lemma decimal_int (s : bool) (n : Z) :
  PyFloat.decimal s n 0
  = SpecFloat.binary_normalize prec emax (SpecFloat.cond_Zopp s n) 0 s.
Proof.
  unfold PyFloat.decimal. cbn [Z.leb Z.compare]. now rewrite Z.pow_0_r, Z.mul_1_r.
Qed.

(** *** Integers below 2^53 *)

Lemma digits2_pos_lower (m : positive) :
  2 ^ (Z.pos (SpecFloat.digits2_pos m) - 1) <= Z.pos m.
Proof.
  induction m as [m IH | m IH |]; cbn [SpecFloat.digits2_pos]; [| | cbn; lia].
  - rewrite Pos2Z.inj_succ.
    replace (Z.succ (Z.pos (SpecFloat.digits2_pos m)) - 1)
      with (Z.succ (Z.pos (SpecFloat.digits2_pos m) - 1)) by lia.
    rewrite Z.pow_succ_r by lia. lia.
  - rewrite Pos2Z.inj_succ.
    replace (Z.succ (Z.pos (SpecFloat.digits2_pos m)) - 1)
      with (Z.succ (Z.pos (SpecFloat.digits2_pos m) - 1)) by lia.
    rewrite Z.pow_succ_r by lia. lia.
Qed.

Lemma iter_xO_value (m k : positive) :
  Z.pos (Pos.iter xO m k) = Z.pos m * 2 ^ Z.pos k.
Proof.
  induction k as [| k IH] using Pos.peano_ind.
  - cbn. lia.
  - rewrite Pos.iter_succ, Pos2Z.inj_succ, Z.pow_succ_r by lia.
    rewrite Pos2Z.inj_xO, IH. lia.
Qed.

Lemma iter_xO_digits (m k : positive) :
  SpecFloat.digits2_pos (Pos.iter xO m k) = (SpecFloat.digits2_pos m + k)%positive.
Proof.
  induction k as [| k IH] using Pos.peano_ind.
  - cbn. lia.
  - rewrite Pos.iter_succ. cbn [SpecFloat.digits2_pos]. rewrite IH. lia.
Qed.

(** A mantissa of 53 bits with an exponent within the range is a binary64
    number as it stands. *)
Lemma binary_round_aux_canonical (s : bool) (m : positive) (e : Z) :
  Z.pos (SpecFloat.digits2_pos m) = prec -> -1074 <= e <= 971 ->
  SpecFloat.binary_round_aux prec emax s (Z.pos m) e SpecFloat.loc_Exact
  = SpecFloat.S754_finite s m e.
Proof.
  intros Hd He. unfold SpecFloat.binary_round_aux.
  assert (E : SpecFloat.shr_fexp prec emax (Z.pos m) e SpecFloat.loc_Exact
              = ({| SpecFloat.shr_m := Z.pos m;
                    SpecFloat.shr_r := false;
                    SpecFloat.shr_s := false |}, e)).
  { unfold SpecFloat.shr_fexp, SpecFloat.shr. cbn [SpecFloat.Zdigits2]. rewrite Hd.
    unfold SpecFloat.fexp, SpecFloat.emin, prec, emax.
    replace (Z.max (53 + e - 53) (3 - 1024 - 53) - e) with 0 by lia.
    reflexivity. }
  rewrite E.
  cbn [SpecFloat.shr_m SpecFloat.loc_of_shr_record SpecFloat.round_nearest_even].
  rewrite E. cbn [SpecFloat.shr_m].
  replace (e <=? emax - prec) with true; [reflexivity |].
  symmetry. apply Z.leb_le. unfold emax, prec. lia.
Qed.

Lemma binary_round_small (s : bool) (m : positive) :
  Z.pos m < 2 ^ 53 ->
  exists m' e, SpecFloat.binary_round prec emax s m 0 = SpecFloat.S754_finite s m' e
               /\ e <= 0 /\ Z.pos m' = Z.pos m * 2 ^ (- e).
Proof.
  intros Hm. unfold SpecFloat.binary_round.
  pose proof (digits2_pos_lower m) as Hl.
  assert (Hd : Z.pos (SpecFloat.digits2_pos m) <= 53).
  { destruct (Z_le_gt_dec (Z.pos (SpecFloat.digits2_pos m)) 53) as [H | H];
      [exact H |].
    exfalso. assert (2 ^ 53 <= 2 ^ (Z.pos (SpecFloat.digits2_pos m) - 1))
      by (apply Z.pow_le_mono_r; lia). lia. }
  unfold SpecFloat.shl_align, SpecFloat.fexp, SpecFloat.emin.
  replace (Z.max (Z.pos (SpecFloat.digits2_pos m) + 0 - prec) (3 - emax - prec) - 0)
    with (Z.pos (SpecFloat.digits2_pos m) - 53) by (unfold prec, emax; lia).
  destruct (Z.pos (SpecFloat.digits2_pos m) - 53) as [| k | k] eqn:Ek; [| lia |].
  - exists m, 0. split; [| split; [lia | cbn; lia]].
    replace (Z.max (Z.pos (SpecFloat.digits2_pos m) + 0 - prec) (3 - emax - prec))
      with 0 by (unfold prec, emax; lia).
    apply binary_round_aux_canonical; [unfold prec; lia | lia].
  - exists (Pos.iter xO m k), (Z.neg k).
    split; [| split; [lia | now rewrite iter_xO_value]].
    replace (Z.max (Z.pos (SpecFloat.digits2_pos m) + 0 - prec) (3 - emax - prec))
      with (Z.neg k) by (unfold prec, emax; lia).
    apply binary_round_aux_canonical; [| lia].
    rewrite iter_xO_digits. unfold prec. lia.
Qed.

Lemma finite_value (s : bool) (m' : positive) (e z : Z) :
  e <= 0 -> Z.pos m' = z * 2 ^ (- e) ->
  (inject_Z (SpecFloat.cond_Zopp s (Z.pos m')) * Qpower 2 e
   == inject_Z (SpecFloat.cond_Zopp s z))%Q.
Proof.
  intros He Hm.
  assert (E : SpecFloat.cond_Zopp s (Z.pos m')
              = SpecFloat.cond_Zopp s z * 2 ^ (- e)).
  { destruct s; cbn [SpecFloat.cond_Zopp]; lia. }
  rewrite E. clear E Hm.
  assert (Hk : 0 <= - e) by lia.
  replace e with (- (- e)) at 2 by lia.
  generalize dependent (- e). clear He. intros k Hk.
  rewrite inject_Z_mult, (Zpower_Qpower 2 k Hk), Qpower_opp.
  change (inject_Z 2) with 2%Q.
  assert (Hp : ~ (2 ^ k == 0)%Q) by (apply Qpower_not_0; discriminate).
  revert Hp. generalize (2 ^ k)%Q. intros p Hp. now field.
Qed.

(** The [float] nearest to an integer below 2^53 in absolute value is that
    integer: nothing is rounded. *)
Lemma binary_normalize_exact (s : bool) (z : Z) :
  0 <= z < 2 ^ 53 ->
  is_integer (SpecFloat.binary_normalize prec emax (SpecFloat.cond_Zopp s z) 0 s)
             (SpecFloat.cond_Zopp s z).
Proof.
  intros [H0 H1]. unfold is_integer. destruct z as [| p | p]; [| | lia].
  - exists 0%Q. now destruct s.
  - rewrite binary_normalize_round.
    destruct (binary_round_small s p H1) as (m' & e & -> & He & Hm).
    cbn [float_value]. eexists. split; [reflexivity |].
    now apply finite_value.
Qed.

(** ** Quantity parsing *)

Lemma all_chars_app (p : ascii -> bool) (a b : string) :
  all_chars p (a ++ b) = (all_chars p a && all_chars p b)%bool.
Proof.
  induction a as [| c a IH]; simpl; [reflexivity |].
  now rewrite IH, andb_assoc.
Qed.

Lemma all_chars_weaken (p q : ascii -> bool) (s : string) :
  (forall c, p c = true -> q c = true) ->
  all_chars p s = true -> all_chars q s = true.
Proof.
  intros Hpq. induction s as [| c s IH]; simpl; [reflexivity |].
  intros H. apply andb_true_iff in H. destruct H as [Hc Hs].
  now rewrite (Hpq c Hc), (IH Hs).
Qed.

Lemma span_fst_all (cls : ascii -> bool) (s : string) :
  all_chars cls (fst (Re.span cls s)) = true.
Proof.
  induction s as [| c s IH]; simpl; [reflexivity |].
  destruct (cls c) eqn:E; [| reflexivity].
  destruct (Re.span cls s) as [run rest]. simpl in *. now rewrite E, IH.
Qed.

Lemma all_chars_lstrip (p : ascii -> bool) (s : string) :
  all_chars p s = true -> all_chars p (PyFloat.lstrip s) = true.
Proof.
  induction s as [| c s IH]; simpl; [reflexivity |].
  intros H. destruct (PyFloat.is_float_space c); [| exact H].
  apply andb_true_iff in H. now apply IH.
Qed.

Lemma all_chars_rstrip (p : ascii -> bool) (s : string) :
  all_chars p s = true -> all_chars p (PyFloat.rstrip s) = true.
Proof.
  induction s as [| c s IH]; simpl; [reflexivity |].
  intros H. apply andb_true_iff in H. destruct H as [Hc Hs].
  specialize (IH Hs).
  destruct (PyFloat.rstrip s) as [| c' r].
  - destruct (PyFloat.is_float_space c); simpl; [reflexivity | now rewrite Hc].
  - simpl in *. now rewrite Hc, IH.
Qed.

Lemma all_chars_drop_underscores (p : ascii -> bool) (s t : string)
      (before : option ascii) :
  all_chars p s = true -> PyFloat.drop_underscores before s = Some t ->
  all_chars p t = true.
Proof.
  revert t before. induction s as [| c s IH]; intros t before H E; simpl in *.
  - now injection E as <-.
  - apply andb_true_iff in H. destruct H as [Hc Hs].
    destruct (Ascii.eqb c "_").
    + destruct before as [b |]; [| discriminate].
      destruct (Py.head s) as [a |]; [| discriminate].
      destruct (Py.is_digit b && Py.is_digit a)%bool; [| discriminate].
      now apply (IH t (Some c)).
    + destruct (PyFloat.drop_underscores (Some c) s) as [r |] eqn:Er;
        [| discriminate].
      injection E as <-. simpl. now rewrite Hc, (IH r (Some c) Hs Er).
Qed.

Lemma remove_commas_cons (c : ascii) (s : string) :
  Py.replace "," EmptyString (String c s)
  = if ascii_dec "," c then Py.replace "," EmptyString s
    else String c (Py.replace "," EmptyString s).
Proof.
  unfold Py.replace. cbn [Py.replace_from prefix].
  destruct (ascii_dec "," c); [| reflexivity].
  now destruct s.
Qed.

(** Removing the commas of a quantity leaves digits and points. *)
Lemma all_chars_remove_commas (s : string) :
  all_chars is_digit_comma_point s = true ->
  all_chars is_digit_or_point (Py.replace "," EmptyString s) = true.
Proof.
  induction s as [| c s IH]; [reflexivity |].
  cbn [all_chars]. intros H. apply andb_true_iff in H. destruct H as [Hc Hs].
  rewrite remove_commas_cons.
  destruct (ascii_dec "," c) as [<- | Hne]; [now apply IH |].
  cbn [all_chars]. rewrite (IH Hs), andb_true_r.
  unfold is_digit_comma_point, is_digit_or_comma in Hc.
  unfold is_digit_or_point.
  assert (E : Ascii.eqb c "," = false)
    by (apply Ascii.eqb_neq; congruence).
  now rewrite E, orb_false_r in Hc.
Qed.

Lemma digit_value_nonneg (c : ascii) : Py.is_digit c = true -> 0 <= PyFloat.digit_value c.
Proof.
  unfold Py.is_digit, Py.in_range, PyFloat.digit_value.
  intros H. apply andb_true_iff in H. destruct H as [H _].
  apply N.leb_le in H. lia.
Qed.

Lemma digits_value_nonneg (s : string) (acc : Z) :
  all_chars Py.is_digit s = true -> 0 <= acc -> 0 <= PyFloat.digits_value acc s.
Proof.
  revert acc.
  induction s as [| c s IH]; intros acc H Hacc;
    cbn [PyFloat.digits_value all_chars] in *.
  - exact Hacc.
  - apply andb_true_iff in H. destruct H as [Hc Hs].
    apply IH; [exact Hs |]. pose proof (digit_value_nonneg c Hc). lia.
Qed.

(** A number read from digits has the sign in front of them. *)
Lemma floatnumber_sign (neg : bool) (s : string) (v : number) :
  PyFloat.floatnumber neg s = Some v -> has_sign neg v.
Proof.
  unfold PyFloat.floatnumber.
  pose proof (span_fst_all Py.is_digit s) as Hi.
  destruct (Re.span Py.is_digit s) as [int_part r1]. simpl in Hi.
  assert (Hf : forall frac_part r2,
             (match r1 with
              | String "." r => Re.span Py.is_digit r
              | _ => (EmptyString, r1)
              end) = (frac_part, r2) ->
             all_chars Py.is_digit frac_part = true).
  { intros frac_part r2 E.
    destruct r1 as [| c r]; [now injection E as <- _ |].
    destruct (Ascii.eqb c ".") eqn:Ec.
    - apply Ascii.eqb_eq in Ec. subst c.
      pose proof (span_fst_all Py.is_digit r) as Hs. rewrite E in Hs. exact Hs.
    - assert (E' : (EmptyString, String c r) = (frac_part, r2)).
      { rewrite <- E. apply Ascii.eqb_neq in Ec.
        destruct c as [[] [] [] [] [] [] [] []]; try reflexivity.
        now elim Ec. }
      now injection E' as <- _. }
  destruct (match r1 with
            | String "." r => Re.span Py.is_digit r
            | _ => (EmptyString, r1)
            end) as [frac_part r2] eqn:E.
  specialize (Hf frac_part r2 eq_refl).
  destruct (Py.is_empty int_part && Py.is_empty frac_part)%bool; [discriminate |].
  destruct (PyFloat.exponent r2) as [e |]; [| discriminate].
  intros H. injection H as <-.
  apply decimal_sign, digits_value_nonneg; [| lia].
  now rewrite all_chars_app, Hi, Hf.
Qed.

Lemma unsigned_body (t : string) :
  all_chars is_digit_or_point t = true ->
  PyFloat.sign t = (false, t)
  /\ String.eqb (Py.lower t) "inf" = false
  /\ String.eqb (Py.lower t) "infinity" = false
  /\ String.eqb (Py.lower t) "nan" = false.
Proof.
  destruct t as [| c r]; [now repeat split |].
  cbn [all_chars]. intros H. apply andb_true_iff in H. destruct H as [Hc _].
  destruct c as [[] [] [] [] [] [] [] []]; try discriminate Hc;
    now repeat split.
Qed.

(** [float] of digits and points, when it succeeds, is not a NaN and has
    no minus sign. *)
Lemma float_unsigned (s : string) (v : number) :
  all_chars is_digit_or_point s = true ->
  PyFloat.float s = Some v -> has_sign false v.
Proof.
  intros Hs. unfold PyFloat.float.
  destruct (PyFloat.drop_underscores None (PyFloat.rstrip (PyFloat.lstrip s)))
    as [t |] eqn:Et; [| discriminate].
  assert (Ht : all_chars is_digit_or_point t = true).
  { apply (all_chars_drop_underscores _ _ _ None) with (2 := Et).
    now apply all_chars_rstrip, all_chars_lstrip. }
  destruct (unsigned_body t Ht) as [-> [E1 [E2 E3]]].
  rewrite E1, E2, E3. cbn [orb].
  exact (floatnumber_sign false t v).
Qed.

Lemma lower_substring (m : nat) (s : string) :
  Py.lower (substring 0 m s) = substring 0 m (Py.lower s).
Proof.
  revert s. induction m as [| m IH]; intros [| c s]; simpl; try reflexivity.
  now rewrite IH.
Qed.

Lemma match_unit_word (s u : string) :
  match_unit s = Some u -> In (Py.lower u) unit_words.
Proof.
  unfold match_unit.
  destruct (find (fun w => prefix w (Py.lower s)) unit_words) as [w |] eqn:F;
    [| discriminate].
  intros H. injection H as <-.
  apply find_some in F. destruct F as [Hin Hp].
  apply prefix_correct in Hp.
  now rewrite lower_substring, Hp.
Qed.

Lemma match_quantity_groups (s group1 : string) (group2 : option string) :
  match_quantity s = Some (group1, group2) ->
  all_chars is_digit_comma_point group1 = true
  /\ match group2 with
     | Some u => In (Py.lower u) unit_words
     | None => True
     end.
Proof.
  unfold match_quantity.
  pose proof (span_fst_all is_digit_or_comma s) as Hl.
  destruct (Re.span is_digit_or_comma s) as [lead r1]. cbn [fst] in Hl.
  destruct (Py.is_empty lead); [discriminate |].
  set (dotrest := match r1 with
                  | String "." r => (".", r)
                  | _ => (EmptyString, r1)
                  end).
  assert (Hd : all_chars is_digit_comma_point (fst dotrest) = true).
  { subst dotrest. destruct r1 as [| c r]; [reflexivity |].
    destruct c as [[] [] [] [] [] [] [] []]; reflexivity. }
  destruct dotrest as [dot r2]. cbn [fst] in Hd.
  pose proof (span_fst_all Py.is_digit r2) as Hf.
  destruct (Re.span Py.is_digit r2) as [frac r3]. cbn [fst] in Hf.
  destruct (Re.span Py.is_space r3) as [gap r4].
  intros H. injection H as <- <-. split.
  - rewrite !all_chars_app, Hd, andb_true_iff. split.
    + apply (all_chars_weaken is_digit_or_comma); [| exact Hl].
      intros c Hc. unfold is_digit_comma_point. now rewrite Hc.
    + apply (all_chars_weaken Py.is_digit); [| exact Hf].
      intros c Hc. unfold is_digit_comma_point, is_digit_or_comma. now rewrite Hc.
  - destruct (match_unit r4) as [u |] eqn:E; [| exact I].
    exact (match_unit_word r4 u E).
Qed.

Lemma quantity_units_lower (u : string) :
  In u quantity_units -> Py.lower u = u.
Proof.
  unfold quantity_units, unit_words. cbn [In].
  intros H. repeat (destruct H as [<- | H]; [reflexivity |]). destruct H.
Qed.

(** C4, at an input where the code departs from it: a quantity made of a
    comma matches the leading pattern, and [float] is then called on the
    empty string outside the [try]; the [ValueError] escapes.  The same
    happens for a comma followed by a point. *)
Theorem parse_quantity_comma_raises :
  parse_quantity "," = Raise ValueError
  /\ parse_quantity " ,. " = Raise ValueError.
Proof.
  split; reflexivity.
Qed.

(** When the leading pattern does not match, the whole stripped string
    without its commas is read as a number, and 0 is returned when that
    fails: this branch raises nothing. *)
Lemma parse_quantity_fallback (qty_str : string) :
  match_quantity (Py.strip qty_str) = None ->
  parse_quantity qty_str
  = Ok (match PyFloat.float (Py.replace "," EmptyString (Py.strip qty_str)) with
        | Some v => v
        | None => SpecFloat.S754_zero false
        end, EmptyString).
Proof.
  intros H. unfold parse_quantity. rewrite H.
  now destruct (PyFloat.float _).
Qed.

Lemma parse_quantity_examples :
  parse_quantity "2,500 feet" = Ok (number_of_int 2500, "feet")
  /\ parse_quantity "garbage" = Ok (number_of_int 0, EmptyString)
  /\ parse_quantity "40" = Ok (number_of_int 40, EmptyString)
  /\ parse_quantity "250 feet" = Ok (number_of_int 250, "feet")
  /\ parse_quantity "12 EACH" = Ok (number_of_int 12, "ea")
  /\ parse_quantity "12.5 ft" = Ok (FloatOps.Prim2SF (binary64_ratio 125 10), "ft").
Proof.
  repeat split; reflexivity.
Qed.

(** Digits that spell a number beyond the range of binary64 are read as the
    positive infinity, and digits beyond the precision are rounded. *)
Lemma parse_quantity_rounds :
  parse_quantity (Py.str_of_int (10 ^ 309)) = Ok (SpecFloat.S754_infinity false, EmptyString)
  /\ parse_quantity "9007199254740993" = Ok (number_of_int 9007199254740992, EmptyString)
  /\ is_integer (number_of_int 9007199254740992) (2 ^ 53).
Proof.
  split; [vm_compute; reflexivity | split; [vm_compute; reflexivity |]].
  eexists. split; [reflexivity | reflexivity].
Qed.

(** C9 as stated fails: the fallback reads "-5" as the number -5.0, which is
    negative. *)
Lemma negative_quantity_counterexample :
  parse_quantity "-5" = Ok (SpecFloat.SFopp (number_of_int 5), EmptyString)
  /\ is_integer (SpecFloat.SFopp (number_of_int 5)) (-5)
  /\ ~ nonnegative (SpecFloat.SFopp (number_of_int 5)).
Proof.
  split; [reflexivity | split].
  - eexists. split; reflexivity.
  - unfold nonnegative. cbn. discriminate.
Qed.

(** C9, amended. Whenever [parse_quantity] returns a pair, its unit has no
    upper-case letter and is the empty string or one of the seven unit
    words; when the leading pattern matches, the value is not negative and
    not a NaN: it compares [>= 0], being a zero, a positive binary64 number
    or the positive infinity; when the pattern does not match, the unit is
    empty and the value is what [float] reads from the stripped string
    without its commas, whatever its sign, or 0 when [float] fails. *)
Theorem parse_quantity_well_formed
        (qty_str : string) (val : number) (unit : string) :
  parse_quantity qty_str = Ok (val, unit) ->
  In unit quantity_units
  /\ Py.lower unit = unit
  /\ (match_quantity (Py.strip qty_str) <> None ->
      nonnegative val /\ has_sign false val)
  /\ (match_quantity (Py.strip qty_str) = None ->
      unit = EmptyString
      /\ val = match PyFloat.float
                       (Py.replace "," EmptyString (Py.strip qty_str)) with
               | Some v => v
               | None => SpecFloat.S754_zero false
               end).
Proof.
  intros H.
  assert (Hu : In unit quantity_units
               /\ (match_quantity (Py.strip qty_str) <> None -> has_sign false val)
               /\ (match_quantity (Py.strip qty_str) = None ->
                   unit = EmptyString
                   /\ val = match PyFloat.float
                                    (Py.replace "," EmptyString (Py.strip qty_str)) with
                            | Some v => v
                            | None => SpecFloat.S754_zero false
                            end)).
  { unfold parse_quantity in H.
    destruct (match_quantity (Py.strip qty_str)) as [[group1 group2] |] eqn:M.
    - destruct (match_quantity_groups _ _ _ M) as [Hg Hunit].
      destruct (PyFloat.float (Py.replace "," EmptyString group1)) as [v |] eqn:F;
        [| discriminate].
      injection H as <- <-. split; [| split].
      + destruct group2 as [u |]; [right; exact Hunit | now left].
      + intros _. apply (float_unsigned _ _ (all_chars_remove_commas _ Hg) F).
      + discriminate.
    - split; [| split].
      + destruct (PyFloat.float _); injection H as _ <-; now left.
      + intros Hne. now elim Hne.
      + intros _. destruct (PyFloat.float _); now injection H as <- <-. }
  destruct Hu as [H1 [H2 H3]].
  split; [exact H1 |].
  split; [now apply quantity_units_lower |].
  split; [| exact H3].
  intros Hm. split; [apply has_sign_nonnegative |]; now apply H2.
Qed.

Lemma parse_quantity_well_formed_witness :
  parse_quantity "2,500 feet" = Ok (number_of_int 2500, "feet")
  /\ In "feet" quantity_units.
Proof.
  assert (H : parse_quantity "2,500 feet" = Ok (number_of_int 2500, "feet"))
    by reflexivity.
  split; [exact H |].
  exact (proj1 (parse_quantity_well_formed "2,500 feet" (number_of_int 2500) "feet" H)).
Defined.

(** * Further properties of the matcher *)

(** ** How many results and which *)

Lemma candidates_length (fuzz : fuzz_module) (self : LaborMatcher) (query : string) :
  length (candidates fuzz self query)
  = length (filter (fun e => if Qlt_le_dec 20 (entry_score fuzz query e)
                             then true else false)
                   (entries self)).
Proof.
  now rewrite <- (length_map mr_entry), candidates_table_order.
Qed.

(** X1. The number of results of [search] is [min(top_n, c)] for a
    non-negative [top_n] and [max(0, c + top_n)] for a negative one, [c]
    being the number of entries of the table that score above 20; every
    result carries an entry of the table. *)
Theorem search_length
        (fuzz : fuzz_module) (self : LaborMatcher) (query : string) (top_n : Z) :
  let c := Z.of_nat
             (length (filter (fun e => if Qlt_le_dec 20 (entry_score fuzz query e)
                                       then true else false)
                             (entries self))) in
  Z.of_nat (length (search fuzz self query top_n))
  = (if 0 <=? top_n then Z.min top_n c else Z.max 0 (c + top_n))
  /\ Forall (fun r => In (mr_entry r) (entries self)) (search fuzz self query top_n).
Proof.
  intros c. subst c. rewrite <- candidates_length. split.
  - unfold search, slice_to.
    destruct (0 <=? top_n) eqn:E;
      rewrite length_firstn, <- (Permutation_length (sort_desc_perm _)); lia.
  - apply Forall_forall. intros r Hr. apply search_incl in Hr.
    exact (proj1 (candidate_inv fuzz self query r Hr)).
Qed.

(** X2. Asking for more results never changes the earlier ones: for
    [0 <= n <= m] the results for [top_n = n] are the first [n] results for
    [top_n = m]. *)
Theorem search_prefix
        (fuzz : fuzz_module) (self : LaborMatcher) (query : string) (n m : Z) :
  0 <= n -> n <= m ->
  search fuzz self query n = firstn (Z.to_nat n) (search fuzz self query m).
Proof.
  intros Hn Hm. unfold search, slice_to.
  assert (En : (0 <=? n) = true) by (apply Z.leb_le; lia).
  assert (Em : (0 <=? m) = true) by (apply Z.leb_le; lia).
  rewrite En, Em, firstn_firstn. f_equal. lia.
Qed.

Lemma search_prefix_witness :
  0 <= 1 /\ 1 <= 5
  /\ search exact_fuzz mixed_table transition_query 1
     = firstn 1 (search exact_fuzz mixed_table transition_query 5).
Proof.
  assert (H1 : 0 <= 1) by lia.
  assert (H2 : 1 <= 5) by lia.
  split; [exact H1 | split; [exact H2 |]].
  exact (search_prefix exact_fuzz mixed_table transition_query 1 5 H1 H2).
Defined.

(** ** Ties *)

Lemma filter_head_split {A : Type} (p : A -> bool) (l : list A) (x : A)
      (xs : list A) :
  filter p l = x :: xs ->
  exists l1 l2, l = (l1 ++ x :: l2)%list
                /\ (forall y, In y l1 -> p y = false)
                /\ filter p l2 = xs.
Proof.
  induction l as [| a l IH]; simpl; [discriminate |].
  destruct (p a) eqn:Ea.
  - intros H. injection H as -> <-.
    exists [], l. repeat split. intros y [].
  - intros H. destruct (IH H) as [l1 [l2 [-> [H1 H2]]]].
    exists (a :: l1), l2. repeat split; [| exact H2].
    intros y [<- | Hy]; [exact Ea | now apply H1].
Qed.

Lemma map_head_split {A B : Type} (f : A -> B) (l : list A) (l1 : list B) (y : B)
      (l2 : list B) :
  map f l = (l1 ++ y :: l2)%list ->
  exists k1 x k2, l = (k1 ++ x :: k2)%list /\ map f k1 = l1 /\ f x = y.
Proof.
  revert l. induction l1 as [| b l1 IH]; intros [| a l]; simpl; try discriminate.
  - intros H. injection H as <- _. now exists [], a, l.
  - intros H. injection H as <- H.
    destruct (IH l H) as [k1 [x [k2 [-> [<- <-]]]]].
    now exists (a :: k1), x, k2.
Qed.

Lemma filter_split_inv {A : Type} (p : A -> bool) (l l1 : list A) (x : A)
      (l2 : list A) :
  filter p l = (l1 ++ x :: l2)%list ->
  exists k1 k2, l = (k1 ++ x :: k2)%list /\ filter p k1 = l1.
Proof.
  revert l1. induction l as [| a l IH]; intros l1; simpl.
  - destruct l1; discriminate.
  - destruct (p a) eqn:Ea.
    + destruct l1 as [| b l1]; simpl; intros H; injection H as <- H.
      * now exists [], l.
      * destruct (IH l1 H) as [k1 [k2 [-> <-]]].
        exists (a :: k1), k2. simpl. now rewrite Ea.
    + intros H. destruct (IH l1 H) as [k1 [k2 [-> <-]]].
      exists (a :: k1), k2. simpl. now rewrite Ea.
Qed.

(** X3. Among the entries with the highest score [best_match] returns the
    one that comes first in the table: the table splits around the returned
    entry so that every entry before it scores strictly lower, and no entry
    scores higher. *)
Theorem best_match_first_in_table
        (fuzz : fuzz_module) (self : LaborMatcher) (query : string)
        (e : Entry) (conf : Q) (reason : string) :
  best_match fuzz self query = (Some e, conf, reason) ->
  exists before after,
    entries self = (before ++ e :: after)%list
    /\ (forall e', In e' before ->
                   (entry_score fuzz query e' < entry_score fuzz query e)%Q)
    /\ (forall e', In e' after ->
                   (entry_score fuzz query e' <= entry_score fuzz query e)%Q).
Proof.
  intros Hb.
  destruct (best_match_some_max fuzz self query e conf reason Hb)
    as [_ [Hq [Hmax _]]].
  destruct (best_match_cases fuzz self query) as [[_ E] | [top [rest [Es E]]]];
    rewrite E in Hb; [discriminate |].
  injection Hb as He _ _.
  pose proof (sort_desc_stable (mr_score top) (candidates fuzz self query)) as St.
  rewrite Es in St. simpl in St.
  assert (Ht : has_score (mr_score top) top = true)
    by (apply Qeq_bool_iff; reflexivity).
  rewrite Ht in St. symmetry in St.
  destruct (filter_head_split _ _ _ _ St) as [c1 [c2 [Ec [Hc1 _]]]].
  pose proof (candidates_table_order fuzz self query) as Ho.
  rewrite Ec, map_app in Ho. simpl in Ho. symmetry in Ho.
  destruct (filter_split_inv _ _ _ _ _ Ho) as [before [after [Et Hf]]].
  rewrite He in Et. exists before, after.
  split; [exact Et | split].
  - intros e' He'.
    destruct (Qlt_le_dec 20 (entry_score fuzz query e')) as [Hq' | Hle];
      [| exact (Qle_lt_trans _ _ _ Hle Hq)].
    assert (Hin : In e' (map mr_entry c1)).
    { rewrite <- Hf. apply filter_In. split; [exact He' |].
      destruct (Qlt_le_dec 20 (entry_score fuzz query e')) as [_ | Hle];
        [reflexivity | exfalso; exact (Qlt_not_le _ _ Hq' Hle)]. }
    apply in_map_iff in Hin. destruct Hin as [r [Hr1 Hr2]].
    assert (Hrc : In r (candidates fuzz self query))
      by (rewrite Ec; apply in_or_app; now left).
    destruct (candidate_inv fuzz self query r Hrc) as [_ [_ Hrs]].
    assert (Htc : In top (candidates fuzz self query))
      by (rewrite Ec; apply in_or_app; right; now left).
    destruct (candidate_inv fuzz self query top Htc) as [_ [_ Hts]].
    rewrite Hr1 in Hrs. rewrite He in Hts.
    specialize (Hc1 r Hr2). unfold has_score in Hc1.
    assert (Hle : (entry_score fuzz query e' <= entry_score fuzz query e)%Q).
    { apply Hmax. rewrite Et. apply in_or_app. now left. }
    apply Qle_lteq in Hle. destruct Hle as [Hlt | Heq]; [exact Hlt |].
    exfalso. rewrite Hrs, Hts, !round1_entry_score in Hc1.
    apply Qeq_bool_iff in Heq. rewrite Heq in Hc1. discriminate.
  - intros e' He'. apply Hmax. rewrite Et. apply in_or_app. right. now right.
Qed.

Lemma best_match_first_in_table_witness :
  best_match exact_fuzz emt_table "emt"
  = (Some emt_half, 550 # 10, "type_match:emt, keyword:emt")
  /\ exists before after,
       entries emt_table = (before ++ emt_half :: after)%list.
Proof.
  assert (H : best_match exact_fuzz emt_table "emt"
              = (Some emt_half, 550 # 10, "type_match:emt, keyword:emt"))
    by (vm_compute; reflexivity).
  split; [exact H |].
  destruct (best_match_first_in_table exact_fuzz emt_table "emt" _ _ _ H)
    as [before [after [E _]]].
  now exists before, after.
Defined.

(** ** Bounds of the penalty *)

Lemma query_conduit_in (query_norm qc : string) :
  query_conduit query_norm = Some qc -> In qc conduit_types.
Proof.
  unfold query_conduit. intros H. now apply find_some in H.
Qed.

Lemma other_conduit_tokens_le (qc section_lower : string) :
  In qc conduit_types -> (other_conduit_tokens qc section_lower <= 5)%nat.
Proof.
  unfold other_conduit_tokens, conflicts, conduit_types.
  set (words := Py.split section_lower).
  cbn [In]. intros H.
  repeat (destruct H as [<- | H];
          [cbn [filter String.eqb Ascii.eqb Bool.eqb negb andb];
           destruct (Py.mem "emt" words), (Py.mem "rigid" words),
             (Py.mem "pvc" words), (Py.mem "imc" words),
             (Py.mem "ent" words), (Py.mem "mc" words);
           cbn [length]; lia |]).
  destruct H.
Qed.

(** X4. The conduit-type penalty of an entry is a multiple of 25 between 0
    and 125, and it is 0 when no conduit type is a word of the query; the
    integer part of a score is therefore never below -125. *)
Theorem conduit_penalty_bounds (query : string) (entry : Entry) :
  let query_norm := normalize_description query in
  let penalty := conduit_penalty query_norm (Py.lower (e_Section entry)) in
  0 <= penalty <= 125
  /\ (exists n, penalty = 25 * Z.of_nat n)
  /\ (query_conduit query_norm = None -> penalty = 0)
  /\ -125 <= signal_score query entry.
Proof.
  intros query_norm penalty.
  assert (Hp : 0 <= penalty <= 125 /\ exists n, penalty = 25 * Z.of_nat n).
  { subst penalty. unfold conduit_penalty.
    destruct (query_conduit query_norm) as [qc |] eqn:E.
    - pose proof (other_conduit_tokens_le qc (Py.lower (e_Section entry))
                    (query_conduit_in _ _ E)).
      split; [lia | eauto].
    - split; [lia | now exists 0%nat]. }
  destruct Hp as [Hb Hn].
  split; [exact Hb | split; [exact Hn | split]].
  - subst penalty. unfold conduit_penalty. now intros ->.
  - unfold signal_score. rewrite score_signals_sum.
    fold query_norm. fold penalty.
    unfold alias_bonus, size_bonus, keyword_bonus.
    destruct (Py.is_empty (extract_size query_norm));
      [| destruct (String.eqb _ _)]; lia.
Qed.

Lemma conduit_penalty_bounds_witness :
  query_conduit (normalize_description "3/4 coupling") = None
  /\ conduit_penalty (normalize_description "3/4 coupling")
                     (Py.lower (e_Section pvc_coupling)) = 0.
Proof.
  assert (H : query_conduit (normalize_description "3/4 coupling") = None)
    by reflexivity.
  split; [exact H |].
  exact (proj1 (proj2 (proj2 (conduit_penalty_bounds "3/4 coupling" pvc_coupling))) H).
Defined.

(** * Further properties of the feature extractors *)

(** ** [extract_size] *)

Lemma span_nil_head (cls : ascii -> bool) (c : ascii) (s : string) :
  cls c = false -> Re.span cls (String c s) = (EmptyString, String c s).
Proof. intros H. simpl. now rewrite H. Qed.

Lemma span_cons_head (cls : ascii -> bool) (c : ascii) (s : string) :
  cls c = true ->
  Re.span cls (String c s)
  = (String c (fst (Re.span cls s)), snd (Re.span cls s)).
Proof.
  intros H. simpl. rewrite H. now destruct (Re.span cls s).
Qed.

Lemma str_app_assoc (a b c : string) : ((a ++ b) ++ c = a ++ (b ++ c))%string.
Proof. induction a as [| x a IH]; simpl; [reflexivity | now rewrite IH]. Qed.

Lemma head_app (a b : string) :
  Py.head (a ++ b) = match Py.head a with
                     | Some c => Some c
                     | None => Py.head b
                     end.
Proof. now destruct a. Qed.

Lemma last_app_nonempty (a b : string) :
  Py.is_empty b = false -> Py.last (a ++ b) = Py.last b.
Proof.
  intros Hb. induction a as [| c a IH]; [reflexivity |].
  simpl. rewrite IH. destruct (a ++ b) eqn:E; [| reflexivity].
  destruct a; simpl in E; [subst b; discriminate | discriminate].
Qed.

Lemma last_all_chars (p : ascii -> bool) (s : string) :
  all_chars p s = true -> Py.is_empty s = false ->
  exists c, Py.last s = Some c /\ p c = true.
Proof.
  induction s as [| c s IH]; [discriminate |].
  cbn [all_chars]. intros H _. apply andb_true_iff in H. destruct H as [Hc Hs].
  destruct s as [| c' s'].
  - now exists c.
  - destruct (IH Hs eq_refl) as [d [Hd Hpd]]. exists d. split; [| exact Hpd].
    exact Hd.
Qed.

(** What a match of the size pattern looks like: it starts with the digit
    the subject starts with, and it ends with a digit. *)
Lemma size_at_shape (c : ascii) (s : string) :
  Py.is_digit c = true ->
  exists m rest, Re.size_at (String c s) = Some (m, rest)
                 /\ Py.head m = Some c
                 /\ exists d, Py.last m = Some d /\ Py.is_digit d = true.
Proof.
  intros Hc.
  assert (Hint : exists num r, Re.span Py.is_digit (String c s) = (String c num, r)
                               /\ all_chars Py.is_digit (String c num) = true).
  { rewrite (span_cons_head _ _ _ Hc). eexists _, _. split; [reflexivity |].
    cbn [all_chars]. now rewrite Hc, span_fst_all. }
  destruct Hint as [num [r1 [Es Hnum]]].
  assert (Hlast : forall den, all_chars Py.is_digit den = true ->
                              Py.is_empty den = false ->
                              forall pre, exists d,
                                Py.last (pre ++ den) = Some d /\ Py.is_digit d = true).
  { intros den Hden Hne pre. rewrite (last_app_nonempty _ _ Hne).
    exact (last_all_chars _ _ Hden Hne). }
  unfold Re.size_at, Re.orelse.
  destruct (Re.mixed_number (String c s)) as [[m rest] |] eqn:Em.
  - exists m, rest. split; [reflexivity |].
    unfold Re.mixed_number in Em. rewrite Es in Em.
    destruct (Re.span Py.is_space r1) as [gap r2].
    destruct (Re.span Py.is_digit r2) as [num2 r3].
    destruct r3 as [| c3 r4]; [discriminate |].
    destruct (Ascii.eqb c3 "/") eqn:E3.
    + apply Ascii.eqb_eq in E3. subst c3.
      pose proof (span_fst_all Py.is_digit r4) as Hden.
      destruct (Re.span Py.is_digit r4) as [den r5]. cbn [fst] in Hden.
      destruct (Py.is_empty den) eqn:Ed.
      * rewrite !orb_true_r in Em. discriminate.
      * destruct (_ || _ || _ || _)%bool; [discriminate |].
        injection Em as <- _. split; [reflexivity |].
        destruct (Hlast den Hden Ed (String c num ++ gap ++ num2 ++ "/")) as [d Hd].
        exists d. now rewrite !str_app_assoc in Hd.
    + exfalso. apply Ascii.eqb_neq in E3.
      destruct c3 as [[] [] [] [] [] [] [] []]; try discriminate Em.
      now elim E3.
  - destruct (Re.fraction (String c s)) as [[m rest] |] eqn:Ef.
    + exists m, rest. split; [reflexivity |].
      unfold Re.fraction in Ef. rewrite Es in Ef.
      destruct r1 as [| c1 r2]; [discriminate |].
      destruct (Ascii.eqb c1 "/") eqn:E1.
      * apply Ascii.eqb_eq in E1. subst c1.
        pose proof (span_fst_all Py.is_digit r2) as Hden.
        destruct (Re.span Py.is_digit r2) as [den r3]. cbn [fst] in Hden.
        destruct (Py.is_empty den) eqn:Ed.
        -- rewrite orb_true_r in Ef. discriminate.
        -- cbn [Py.is_empty orb] in Ef. injection Ef as <- _.
           split; [reflexivity |].
           destruct (Hlast den Hden Ed (String c num ++ "/")) as [d Hd].
           exists d. now rewrite !str_app_assoc in Hd.
      * exfalso. apply Ascii.eqb_neq in E1.
        destruct c1 as [[] [] [] [] [] [] [] []]; try discriminate Ef.
        now elim E1.
    + unfold Re.integer. rewrite Es. cbn [Py.is_empty].
      exists (String c num), r1. split; [reflexivity | split; [reflexivity |]].
      exact (last_all_chars _ _ Hnum eq_refl).
Qed.

Lemma size_at_none (s : string) :
  (match s with
   | EmptyString => true
   | String c _ => negb (Py.is_digit c)
   end) = true ->
  Re.size_at s = None.
Proof.
  destruct s as [| c s]; [reflexivity |].
  intros H. apply negb_true_iff in H.
  unfold Re.size_at, Re.orelse, Re.mixed_number, Re.fraction, Re.integer.
  rewrite (span_nil_head _ _ _ H).
  cbn [Py.is_empty orb].
  destruct (Re.span Py.is_space (String c s)) as [gap r2].
  destruct (Re.span Py.is_digit r2) as [num2 r3].
  assert (E1 : match r3 with
               | String "/" r4 =>
                   let (den, r5) := Re.span Py.is_digit r4 in
                   if (true || Py.is_empty gap || Py.is_empty num2
                       || Py.is_empty den)%bool
                   then None
                   else Some (EmptyString ++ gap ++ num2 ++ "/" ++ den, r5)
               | _ => None
               end = None).
  { destruct r3 as [| c3 r4]; [reflexivity |].
    destruct c3 as [[] [] [] [] [] [] [] []]; try reflexivity.
    now destruct (Re.span Py.is_digit r4). }
  cbn [orb] in E1 |- *. rewrite E1.
  assert (E2 : match String c s with
               | String "/" r2 =>
                   let (den, r3) := Re.span Py.is_digit r2 in
                   if (true || Py.is_empty den)%bool then None
                   else Some (EmptyString ++ "/" ++ den, r3)
               | _ => None
               end = None).
  { destruct c as [[] [] [] [] [] [] [] []]; try reflexivity.
    now destruct (Re.span Py.is_digit s). }
  cbn [orb] in E2. now rewrite E2.
Qed.

Lemma span_split (cls : ascii -> bool) (s : string) :
  s = fst (Re.span cls s) ++ snd (Re.span cls s).
Proof.
  induction s as [| c s IH]; [reflexivity |].
  simpl. destruct (cls c); [| reflexivity].
  destruct (Re.span cls s) as [run rest]. simpl in *. now rewrite <- IH.
Qed.

Lemma slash_cases (r : string) :
  (exists r', r = String "/" r') \/
  (forall (A : Type) (x : string -> A) (y : A),
      match r with
      | String "/" r' => x r'
      | _ => y
      end = y).
Proof.
  destruct r as [| c r']; [right; reflexivity |].
  destruct (Ascii.eqb c "/") eqn:E.
  - left. apply Ascii.eqb_eq in E. subst c. now exists r'.
  - right. intros A x y. apply Ascii.eqb_neq in E.
    destruct c as [[] [] [] [] [] [] [] []]; try reflexivity. now elim E.
Qed.

(** A match of the size pattern is the beginning of its subject. *)
Lemma size_at_split (s m rest : string) :
  Re.size_at s = Some (m, rest) -> s = m ++ rest.
Proof.
  unfold Re.size_at, Re.orelse.
  assert (Hm : forall m rest, Re.mixed_number s = Some (m, rest) -> s = m ++ rest).
  { clear m rest. intros m rest. unfold Re.mixed_number.
    pose proof (span_split Py.is_digit s) as E1.
    destruct (Re.span Py.is_digit s) as [whole r1]. cbn [fst snd] in E1.
    pose proof (span_split Py.is_space r1) as E2.
    destruct (Re.span Py.is_space r1) as [gap r2]. cbn [fst snd] in E2.
    pose proof (span_split Py.is_digit r2) as E3.
    destruct (Re.span Py.is_digit r2) as [num r3]. cbn [fst snd] in E3.
    destruct (slash_cases r3) as [[r4 ->] | Hn]; [| rewrite Hn; discriminate].
    pose proof (span_split Py.is_digit r4) as E4.
    destruct (Re.span Py.is_digit r4) as [den r5]. cbn [fst snd] in E4.
    destruct (_ || _ || _ || _)%bool; [discriminate |].
    intros H. injection H as <- <-.
    rewrite E1, E2, E3, E4 at 1. now rewrite !str_app_assoc. }
  assert (Hf : forall m rest, Re.fraction s = Some (m, rest) -> s = m ++ rest).
  { clear m rest Hm. intros m rest. unfold Re.fraction.
    pose proof (span_split Py.is_digit s) as E1.
    destruct (Re.span Py.is_digit s) as [num r1]. cbn [fst snd] in E1.
    destruct (slash_cases r1) as [[r2 ->] | Hn]; [| rewrite Hn; discriminate].
    pose proof (span_split Py.is_digit r2) as E2.
    destruct (Re.span Py.is_digit r2) as [den r3]. cbn [fst snd] in E2.
    destruct (_ || _)%bool; [discriminate |].
    intros H. injection H as <- <-.
    rewrite E1, E2 at 1. now rewrite !str_app_assoc. }
  assert (Hi : forall m rest, Re.integer s = Some (m, rest) -> s = m ++ rest).
  { clear m rest Hm Hf. intros m rest. unfold Re.integer.
    pose proof (span_split Py.is_digit s) as E1.
    destruct (Re.span Py.is_digit s) as [num r1]. cbn [fst snd] in E1.
    destruct (Py.is_empty num); [discriminate |].
    intros H. now injection H as <- <-. }
  destruct (Re.mixed_number s) as [p |]; [intros H; injection H as ->; auto |].
  destruct (Re.fraction s) as [p |]; [intros H; injection H as ->; auto |].
  auto.
Qed.

Lemma digit_not_space (c : ascii) :
  Py.is_digit c = true -> Py.is_space c = false.
Proof.
  destruct c as [[] [] [] [] [] [] [] []]; intros H;
    try discriminate H; reflexivity.
Qed.

Lemma rstrip_id (s : string) :
  match Py.last s with
  | Some d => Py.is_space d = false
  | None => True
  end ->
  Py.rstrip s = s.
Proof.
  induction s as [| c s IH]; [reflexivity |].
  destruct s as [| c' s'].
  - simpl. now intros ->.
  - intros H. specialize (IH H).
    change (Py.rstrip (String c (String c' s')))
      with (match Py.rstrip (String c' s') with
            | EmptyString => if Py.is_space c then EmptyString
                             else String c EmptyString
            | r => String c r
            end).
    now rewrite IH.
Qed.

Lemma strip_id (s : string) (c d : ascii) :
  Py.head s = Some c -> Py.is_space c = false ->
  Py.last s = Some d -> Py.is_space d = false ->
  Py.strip s = s.
Proof.
  intros Hh Hc Hl Hd. unfold Py.strip.
  assert (E : Py.lstrip s = s).
  { destruct s as [| x s]; [reflexivity |]. simpl in Hh. injection Hh as ->.
    simpl. now rewrite Hc. }
  rewrite E. apply rstrip_id. now rewrite Hl.
Qed.

Lemma search_size_spec (s : string) :
  if all_chars not_digit s
  then Re.search_size s = None
  else exists before m after c d,
      Re.search_size s = Some m
      /\ s = before ++ m ++ after
      /\ all_chars not_digit before = true
      /\ Py.head m = Some c /\ Py.is_digit c = true
      /\ Py.last m = Some d /\ Py.is_digit d = true.
Proof.
  induction s as [| x s IH]; [reflexivity |].
  cbn [all_chars]. unfold not_digit at 1.
  destruct (Py.is_digit x) eqn:Ex; cbn [negb andb].
  - destruct (size_at_shape x s Ex) as [m [rest [Es [Hh [d [Hl Hd]]]]]].
    exists EmptyString, m, rest, x, d.
    cbn [Re.search_size]. rewrite Es.
    repeat split; try assumption.
    exact (size_at_split _ _ _ Es).
  - assert (En : Re.size_at (String x s) = None)
      by (apply size_at_none; now rewrite Ex).
    destruct (all_chars not_digit s).
    + cbn [Re.search_size]. now rewrite En.
    + destruct IH as [before [m [after [c [d [E1 [E2 [E3 H]]]]]]]].
      exists (String x before), m, after, c, d.
      cbn [Re.search_size]. rewrite En.
      repeat split; try tauto.
      * simpl. now rewrite <- E2.
      * cbn [all_chars]. unfold not_digit at 1. now rewrite Ex, E3.
Qed.

(** X5. [extract_size] returns the empty string exactly for a text without
    digits; otherwise it returns a piece of the text that begins at the first
    digit of the text, begins with that digit and ends with a digit. *)
Theorem extract_size_piece (desc : string) :
  (extract_size desc = EmptyString <-> all_chars not_digit desc = true)
  /\ (all_chars not_digit desc = false ->
      exists before after c d,
        desc = before ++ extract_size desc ++ after
        /\ all_chars not_digit before = true
        /\ Py.head (extract_size desc) = Some c /\ Py.is_digit c = true
        /\ Py.last (extract_size desc) = Some d /\ Py.is_digit d = true).
Proof.
  pose proof (search_size_spec desc) as H. unfold extract_size.
  destruct (all_chars not_digit desc).
  - rewrite H. split; [tauto | discriminate].
  - destruct H as (before & m & after & c & d & E1 & E2 & E3 & Hh & Hc & Hl & Hd).
    rewrite E1.
    rewrite (strip_id m c d Hh (digit_not_space c Hc) Hl (digit_not_space d Hd)).
    split.
    + split; [| discriminate]. intros ->. discriminate Hh.
    + intros _. exists before, after, c, d. tauto.
Qed.

Lemma extract_size_piece_witness :
  all_chars not_digit "#10 awg wire" = false
  /\ exists before after,
       "#10 awg wire" = before ++ extract_size "#10 awg wire" ++ after.
Proof.
  assert (H : all_chars not_digit "#10 awg wire" = false) by reflexivity.
  split; [exact H |].
  destruct (proj2 (extract_size_piece "#10 awg wire") H)
    as [before [after [c [d [E _]]]]].
  now exists before, after.
Defined.

(** ** [_extract_keywords] *)

Lemma str_app_nil_r (a : string) : a ++ EmptyString = a.
Proof. induction a as [| c a IH]; simpl; [reflexivity | now rewrite IH]. Qed.

Lemma prefix_app (w post : string) : prefix w (w ++ post) = true.
Proof.
  induction w as [| c w IH]; simpl; [now destruct post |].
  destruct (ascii_dec c c) as [_ | Hne]; [exact IH | now elim Hne].
Qed.

Lemma contains_piece (w pre post : string) :
  Py.contains w (pre ++ w ++ post) = true.
Proof.
  induction pre as [| c pre IH].
  - simpl. destruct (w ++ post) eqn:E; cbn [Py.contains];
      rewrite <- E, prefix_app; reflexivity.
  - cbn [append Py.contains]. rewrite IH. apply orb_true_r.
Qed.

Lemma split_from_piece (word s w : string) :
  all_chars not_space word = true ->
  In w (Py.split_from word s) ->
  (exists pre post, word ++ s = pre ++ w ++ post)
  /\ all_chars not_space w = true
  /\ Py.is_empty w = false.
Proof.
  revert word. induction s as [| c s IH]; intros word Hw; cbn [Py.split_from].
  - destruct (Py.is_empty word) eqn:Ee; [intros [] |].
    intros [<- | []]. split; [| now split].
    exists EmptyString, EmptyString. now rewrite !str_app_nil_r.
  - destruct (Py.is_space c) eqn:Ec.
    + destruct (Py.is_empty word) eqn:Ee.
      * intros H. destruct (IH EmptyString eq_refl H) as [[pre [post E]] Hr].
        split; [| exact Hr].
        destruct word; [| discriminate].
        exists (String c pre), post. simpl in *. now rewrite E.
      * intros [<- | H].
        -- split; [| now split]. now exists EmptyString, (String c s).
        -- destruct (IH EmptyString eq_refl H) as [[pre [post E]] Hr].
           split; [| exact Hr].
           exists (word ++ String c pre), post. simpl in E.
           now rewrite str_app_assoc, E.
    + intros H.
      assert (Hw' : all_chars not_space (word ++ String c EmptyString) = true).
      { rewrite all_chars_app, Hw. cbn [all_chars]. unfold not_space at 1.
        now rewrite Ec. }
      destruct (IH _ Hw' H) as [[pre [post E]] Hr].
      split; [| exact Hr].
      exists pre, post. rewrite <- E. now rewrite str_app_assoc.
Qed.

(** X6. Every keyword is a word of the text that is not a stop word and has
    at least two characters; it contains no whitespace and occurs in the
    text. *)
Theorem extract_keywords_words (desc w : string) :
  In w (_extract_keywords desc) ->
  In w (Py.split desc)
  /\ Py.mem w stop_words = false
  /\ (2 <= String.length w)%nat
  /\ all_chars not_space w = true
  /\ Py.contains w desc = true.
Proof.
  unfold _extract_keywords. intros H. apply filter_In in H.
  destruct H as [Hin Hk]. unfold is_keyword in Hk.
  apply andb_true_iff in Hk. destruct Hk as [Hs Hl].
  apply negb_true_iff in Hs. apply Nat.ltb_lt in Hl.
  destruct (split_from_piece EmptyString desc w eq_refl Hin)
    as [[pre [post E]] [Hns _]].
  simpl in E. repeat split; try assumption.
  rewrite E. apply contains_piece.
Qed.

Lemma extract_keywords_words_witness :
  In "clamps" (_extract_keywords "beam clamps with 3/4 strap")
  /\ Py.contains "clamps" "beam clamps with 3/4 strap" = true.
Proof.
  assert (H : In "clamps" (_extract_keywords "beam clamps with 3/4 strap"))
    by (vm_compute; tauto).
  split; [exact H |].
  exact (proj2 (proj2 (proj2 (proj2
           (extract_keywords_words "beam clamps with 3/4 strap" "clamps" H))))).
Defined.

(** ** [normalize_description] *)

Lemma lower_not_upper (s : string) : all_chars not_upper (Py.lower s) = true.
Proof.
  induction s as [| c s IH]; [reflexivity |].
  cbn [Py.lower all_chars]. rewrite IH, andb_true_r.
  destruct c as [[] [] [] [] [] [] [] []]; reflexivity.
Qed.

Lemma all_chars_py_lstrip (p : ascii -> bool) (s : string) :
  all_chars p s = true -> all_chars p (Py.lstrip s) = true.
Proof.
  induction s as [| c s IH]; simpl; [reflexivity |].
  intros H. destruct (Py.is_space c); [| exact H].
  apply andb_true_iff in H. now apply IH.
Qed.

Lemma all_chars_py_rstrip (p : ascii -> bool) (s : string) :
  all_chars p s = true -> all_chars p (Py.rstrip s) = true.
Proof.
  induction s as [| c s IH]; [reflexivity |].
  cbn [all_chars Py.rstrip]. intros H.
  apply andb_true_iff in H. destruct H as [Hc Hs].
  specialize (IH Hs).
  destruct (Py.rstrip s) as [| c' r].
  - destruct (Py.is_space c); cbn [all_chars]; [reflexivity | now rewrite Hc].
  - cbn [all_chars] in *. now rewrite Hc, IH.
Qed.

Lemma all_chars_py_strip (p : ascii -> bool) (s : string) :
  all_chars p s = true -> all_chars p (Py.strip s) = true.
Proof.
  intros H. now apply all_chars_py_rstrip, all_chars_py_lstrip.
Qed.

(** Replacing one character: what [s.replace(a, new)] is on a string that
    starts with [c]. *)
Lemma replace_char_cons (a c : ascii) (new s : string) :
  Py.replace (String a EmptyString) new (String c s)
  = if ascii_dec a c then new ++ Py.replace (String a EmptyString) new s
    else String c (Py.replace (String a EmptyString) new s).
Proof.
  unfold Py.replace. cbn [Py.replace_from prefix String.length Nat.pred].
  destruct (ascii_dec a c); [| reflexivity].
  now destruct s.
Qed.

Lemma all_chars_replace_char (p q : ascii -> bool) (a : ascii) (new s : string) :
  all_chars q new = true ->
  (forall c, p c = true -> a <> c -> q c = true) ->
  all_chars p s = true ->
  all_chars q (Py.replace (String a EmptyString) new s) = true.
Proof.
  intros Hnew Hpq. induction s as [| c s IH]; [reflexivity |].
  cbn [all_chars]. intros H. apply andb_true_iff in H. destruct H as [Hc Hs].
  rewrite replace_char_cons.
  destruct (ascii_dec a c) as [_ | Hne].
  - now rewrite all_chars_app, Hnew, (IH Hs).
  - cbn [all_chars]. now rewrite (Hpq c Hc Hne), (IH Hs).
Qed.

Lemma all_chars_sub_spaces (p : ascii -> bool) (in_run : bool) (s : string) :
  p " "%char = true -> all_chars p s = true ->
  all_chars (fun c => (p c && (negb (Py.is_space c) || Ascii.eqb c " "))%bool)
            (Re.sub_spaces in_run s) = true.
Proof.
  intros Hsp. revert in_run. induction s as [| c s IH]; intros in_run;
    [reflexivity |].
  cbn [all_chars Re.sub_spaces]. intros H.
  apply andb_true_iff in H. destruct H as [Hc Hs].
  destruct (Py.is_space c) eqn:Ec.
  - destruct in_run; [now apply IH |].
    cbn [all_chars]. rewrite Hsp, (IH true Hs). reflexivity.
  - cbn [all_chars]. now rewrite Hc, Ec, (IH false Hs).
Qed.

Lemma all_chars_sub_bounded (p : ascii -> bool) (lit repl : string)
      (before : option ascii) (skip : nat) (s : string) :
  all_chars p repl = true -> all_chars p s = true ->
  all_chars p (Re.sub_bounded_from lit repl before skip s) = true.
Proof.
  intros Hr. revert before skip.
  induction s as [| c s IH]; intros before skip; [reflexivity |].
  cbn [all_chars Re.sub_bounded_from]. intros H.
  apply andb_true_iff in H. destruct H as [Hc Hs].
  destruct skip as [| k]; [| now apply IH].
  destruct (Re.bounded_at lit before (String c s)).
  - now rewrite all_chars_app, Hr, (IH _ _ Hs).
  - cbn [all_chars]. now rewrite Hc, (IH _ _ Hs).
Qed.

Lemma all_chars_normalize_sizes (p : ascii -> bool) (s : string) :
  Forall (fun a => all_chars p (snd a) = true) SIZE_ALIASES ->
  all_chars p s = true -> all_chars p (normalize_sizes s) = true.
Proof.
  unfold normalize_sizes. intros Ha. revert s.
  induction Ha as [| [alias normalized] l Hx _ IH]; intros s Hs; [exact Hs |].
  cbn [fold_left]. apply IH. unfold Re.sub_bounded.
  now apply all_chars_sub_bounded.
Qed.

(** X7. A normalised description contains no upper-case letter, no
    double quote and no apostrophe, and its only whitespace character is the
    space. *)
Theorem normalize_description_alphabet (desc : string) :
  all_chars normal_char (normalize_description desc) = true.
Proof.
  unfold normalize_description.
  apply all_chars_normalize_sizes.
  { repeat constructor. }
  apply all_chars_py_strip.
  apply (all_chars_weaken
           (fun c => (unquoted_char c
                      && (negb (Py.is_space c) || Ascii.eqb c " "))%bool)).
  { intros c H. exact H. }
  apply all_chars_sub_spaces; [reflexivity |].
  apply (all_chars_replace_char
           (fun c => (not_upper c && negb (Ascii.eqb c Py.dquote))%bool));
    [reflexivity | |].
  { intros c H Hne. apply andb_true_iff in H. destruct H as [H1 H2].
    unfold unquoted_char. unfold not_upper in H1. rewrite H1, H2.
    cbn [andb]. apply negb_true_iff, Ascii.eqb_neq. intros ->. now elim Hne. }
  apply (all_chars_replace_char not_upper); [reflexivity | |].
  { intros c H Hne. rewrite H. cbn [andb].
    apply negb_true_iff, Ascii.eqb_neq. intros ->. now elim Hne. }
  apply all_chars_py_strip, lower_not_upper.
Qed.

(** * Further properties of the quantity parser *)

(** ** The unit word *)

Lemma prefix_shorter (a b t : string) :
  prefix (a ++ b) t = true -> prefix a t = true.
Proof.
  revert t. induction a as [| x a IH]; intros t; [now destruct t |].
  destruct t as [| y t]; simpl; [discriminate |].
  destruct (ascii_dec x y); [apply IH | discriminate].
Qed.

Lemma find_unit_word (t w : string) :
  find (fun w => prefix w t) unit_words = Some w ->
  In w ["feet"; "ft"; "foot"; "ea"; "lot"; "box"].
Proof.
  unfold unit_words. cbn [find].
  destruct (prefix "feet" t); [intros H; injection H as <-; cbn; tauto |].
  destruct (prefix "ft" t); [intros H; injection H as <-; cbn; tauto |].
  destruct (prefix "foot" t); [intros H; injection H as <-; cbn; tauto |].
  destruct (prefix "ea" t) eqn:Eea; [intros H; injection H as <-; cbn; tauto |].
  destruct (prefix "each" t) eqn:Eeach.
  - exfalso. change "each" with ("ea" ++ "ch") in Eeach.
    apply prefix_shorter in Eeach. rewrite Eea in Eeach. discriminate.
  - destruct (prefix "lot" t); [intros H; injection H as <-; cbn; tauto |].
    destruct (prefix "box" t); [intros H; injection H as <-; cbn; tauto |].
    discriminate.
Qed.

(** X8. The unit that [parse_quantity] returns is never "each": the
    alternative "ea" stands before "each" in the pattern and matches first,
    so a quantity such as "12 each" has the unit "ea". *)
Theorem parse_quantity_unit_never_each
        (qty_str : string) (val : number) (unit : string) :
  parse_quantity qty_str = Ok (val, unit) ->
  In unit [EmptyString; "feet"; "ft"; "foot"; "ea"; "lot"; "box"].
Proof.
  unfold parse_quantity.
  destruct (match_quantity (Py.strip qty_str)) as [[group1 group2] |] eqn:M.
  - destruct (PyFloat.float _) as [v |]; [| discriminate].
    intros H. injection H as _ <-.
    destruct group2 as [u |]; [right | now left].
    unfold match_quantity in M.
    destruct (Re.span is_digit_or_comma (Py.strip qty_str)) as [lead r1].
    destruct (Py.is_empty lead); [discriminate |].
    destruct (match r1 with
              | String "." r => (".", r)
              | _ => (EmptyString, r1)
              end) as [dot r2].
    destruct (Re.span Py.is_digit r2) as [frac r3].
    destruct (Re.span Py.is_space r3) as [gap r4].
    injection M as _ M. unfold match_unit in M.
    destruct (find (fun w => prefix w (Py.lower r4)) unit_words) as [w |] eqn:F;
      [| discriminate].
    injection M as <-.
    pose proof (find_unit_word _ _ F) as Hw.
    apply find_some in F. destruct F as [_ Hp].
    apply prefix_correct in Hp.
    now rewrite lower_substring, Hp.
  - destruct (PyFloat.float _); intros H; injection H as _ <-; now left.
Qed.

Lemma parse_quantity_unit_never_each_witness :
  parse_quantity "12 each" = Ok (number_of_int 12, "ea")
  /\ In "ea" [EmptyString; "feet"; "ft"; "foot"; "ea"; "lot"; "box"].
Proof.
  assert (H : parse_quantity "12 each" = Ok (number_of_int 12, "ea")) by reflexivity.
  split; [exact H |].
  exact (parse_quantity_unit_never_each "12 each" (number_of_int 12) "ea" H).
Defined.

(** ** When [float] succeeds *)

Lemma plain_char_facts (c : ascii) :
  plain_char c = true ->
  not_float_space c = true /\ not_underscore c = true /\ not_comma c = true
  /\ Py.is_space c = false.
Proof.
  destruct c as [[] [] [] [] [] [] [] []]; intros H;
    try discriminate H; now repeat split.
Qed.

Lemma span_all_id (cls : ascii -> bool) (s : string) :
  all_chars cls s = true -> Re.span cls s = (s, EmptyString).
Proof.
  induction s as [| c s IH]; [reflexivity |].
  cbn [all_chars]. intros H. apply andb_true_iff in H. destruct H as [Hc Hs].
  simpl. now rewrite Hc, (IH Hs).
Qed.

Lemma span_stop (cls : ascii -> bool) (s : string) :
  match Py.head s with
  | Some c => cls c = false
  | None => True
  end ->
  Re.span cls s = (EmptyString, s).
Proof.
  destruct s as [| c s]; [reflexivity |]. simpl. now intros ->.
Qed.

Lemma span_app (cls : ascii -> bool) (a r : string) :
  all_chars cls a = true ->
  match Py.head r with
  | Some c => cls c = false
  | None => True
  end ->
  Re.span cls (a ++ r) = (a, r).
Proof.
  intros Ha Hr. induction a as [| c a IH]; [now apply span_stop |].
  cbn [all_chars] in Ha. apply andb_true_iff in Ha. destruct Ha as [Hc Ha].
  simpl. now rewrite Hc, (IH Ha).
Qed.

Lemma span_snd_head (cls : ascii -> bool) (s : string) :
  match Py.head (snd (Re.span cls s)) with
  | Some c => cls c = false
  | None => True
  end.
Proof.
  induction s as [| c s IH]; [exact I |].
  simpl. destruct (cls c) eqn:E; [| exact E].
  now destruct (Re.span cls s).
Qed.

Lemma float_lstrip_id (s : string) :
  all_chars not_float_space s = true -> PyFloat.lstrip s = s.
Proof.
  destruct s as [| c s]; [reflexivity |].
  cbn [all_chars]. intros H. apply andb_true_iff in H. destruct H as [Hc _].
  apply negb_true_iff in Hc. simpl. now rewrite Hc.
Qed.

Lemma float_rstrip_id (s : string) :
  all_chars not_float_space s = true -> PyFloat.rstrip s = s.
Proof.
  induction s as [| c s IH]; [reflexivity |].
  cbn [all_chars PyFloat.rstrip]. intros H.
  apply andb_true_iff in H. destruct H as [Hc Hs].
  apply negb_true_iff in Hc. rewrite (IH Hs), Hc. now destruct s.
Qed.

Lemma drop_underscores_id (before : option ascii) (s : string) :
  all_chars not_underscore s = true ->
  PyFloat.drop_underscores before s = Some s.
Proof.
  revert before. induction s as [| c s IH]; intros before; [reflexivity |].
  cbn [all_chars PyFloat.drop_underscores]. intros H.
  apply andb_true_iff in H. destruct H as [Hc Hs].
  apply negb_true_iff in Hc. now rewrite Hc, (IH _ Hs).
Qed.

Lemma float_preprocess (s : string) :
  all_chars plain_char s = true ->
  PyFloat.drop_underscores None (PyFloat.rstrip (PyFloat.lstrip s)) = Some s.
Proof.
  intros H.
  assert (H1 : all_chars not_float_space s = true)
    by (apply (all_chars_weaken plain_char); [apply plain_char_facts | exact H]).
  assert (H2 : all_chars not_underscore s = true)
    by (apply (all_chars_weaken plain_char); [apply plain_char_facts | exact H]).
  now rewrite (float_lstrip_id s H1), (float_rstrip_id s H1), drop_underscores_id.
Qed.

Lemma digit_or_point_plain (s : string) :
  all_chars is_digit_or_point s = true -> all_chars plain_char s = true.
Proof.
  apply all_chars_weaken. intros c H. unfold plain_char. now rewrite H.
Qed.

Lemma digit_is_digit_or_point (s : string) :
  all_chars Py.is_digit s = true -> all_chars is_digit_or_point s = true.
Proof.
  apply all_chars_weaken. intros c H. unfold is_digit_or_point. now rewrite H.
Qed.

Lemma floatnumber_digits (neg : bool) (a : string) :
  all_chars Py.is_digit a = true -> Py.is_empty a = false ->
  PyFloat.floatnumber neg a
  = Some (PyFloat.decimal neg (PyFloat.digits_value 0 a) 0).
Proof.
  intros Ha Hne. unfold PyFloat.floatnumber.
  rewrite (span_all_id _ _ Ha). rewrite Hne. cbn [andb PyFloat.exponent].
  now rewrite str_app_nil_r.
Qed.

Lemma floatnumber_point (neg : bool) (a f : string) :
  all_chars Py.is_digit a = true -> all_chars Py.is_digit f = true ->
  (Py.is_empty a && Py.is_empty f)%bool = false ->
  PyFloat.floatnumber neg (a ++ String "." f)
  = Some (PyFloat.decimal neg (PyFloat.digits_value 0 (a ++ f))
                          (0 - Z.of_nat (String.length f))).
Proof.
  intros Ha Hf Hne. unfold PyFloat.floatnumber.
  rewrite (span_app _ a (String "." f) Ha eq_refl).
  rewrite (span_all_id _ _ Hf). now rewrite Hne.
Qed.

Lemma floatnumber_no_digit (neg : bool) (t : string) :
  all_chars not_digit t = true -> PyFloat.floatnumber neg t = None.
Proof.
  intros Ht. unfold PyFloat.floatnumber.
  assert (Hstop : forall r, all_chars not_digit r = true ->
                            Re.span Py.is_digit r = (EmptyString, r)).
  { intros r Hr. apply span_stop. destruct r as [| c r]; [exact I |].
    cbn [all_chars] in Hr. apply andb_true_iff in Hr.
    now apply negb_true_iff, Hr. }
  rewrite (Hstop t Ht).
  destruct t as [| c r]; [reflexivity |].
  cbn [all_chars] in Ht. apply andb_true_iff in Ht. destruct Ht as [_ Hr].
  destruct (Ascii.eqb c ".") eqn:Ec.
  - apply Ascii.eqb_eq in Ec. subst c. now rewrite (Hstop r Hr).
  - apply Ascii.eqb_neq in Ec.
    destruct c as [[] [] [] [] [] [] [] []]; try reflexivity. now elim Ec.
Qed.

Lemma float_unsigned_body (t : string) :
  all_chars is_digit_or_point t = true ->
  PyFloat.float t = PyFloat.floatnumber false t.
Proof.
  intros Ht. unfold PyFloat.float.
  rewrite (float_preprocess t (digit_or_point_plain t Ht)).
  destruct (unsigned_body t Ht) as [-> [E1 [E2 E3]]].
  now rewrite E1, E2, E3.
Qed.

(** ** The commas of the leading group *)

Lemma remove_commas_app (a b : string) :
  Py.replace "," EmptyString (a ++ b)
  = Py.replace "," EmptyString a ++ Py.replace "," EmptyString b.
Proof.
  induction a as [| c a IH]; [reflexivity |].
  cbn [append]. rewrite !remove_commas_cons, IH.
  now destruct (ascii_dec "," c).
Qed.

Lemma remove_commas_id (s : string) :
  all_chars not_comma s = true -> Py.replace "," EmptyString s = s.
Proof.
  induction s as [| c s IH]; [reflexivity |].
  cbn [all_chars]. intros H. apply andb_true_iff in H. destruct H as [Hc Hs].
  rewrite remove_commas_cons, (IH Hs).
  destruct (ascii_dec "," c) as [<- | _]; [discriminate Hc | reflexivity].
Qed.

Lemma remove_commas_lead (lead : string) :
  all_chars is_digit_or_comma lead = true ->
  all_chars Py.is_digit (Py.replace "," EmptyString lead) = true
  /\ (Py.is_empty (Py.replace "," EmptyString lead) = true ->
      all_chars not_digit lead = true).
Proof.
  induction lead as [| c lead IH]; [now split |].
  cbn [all_chars]. intros H. apply andb_true_iff in H. destruct H as [Hc Hs].
  destruct (IH Hs) as [H1 H2].
  rewrite remove_commas_cons.
  destruct (ascii_dec "," c) as [<- | Hne].
  - split; [exact H1 |]. intros He. now rewrite (H2 He).
  - unfold is_digit_or_comma in Hc.
    assert (E : Ascii.eqb c "," = false)
      by (apply Ascii.eqb_neq; intros ->; now elim Hne).
    rewrite E, orb_false_r in Hc.
    split; [cbn [all_chars]; now rewrite Hc, H1 | discriminate].
Qed.

Lemma digits_not_comma (s : string) :
  all_chars Py.is_digit s = true -> all_chars not_comma s = true.
Proof.
  apply all_chars_weaken.
  intros c. destruct c as [[] [] [] [] [] [] [] []]; intros H;
    try discriminate H; reflexivity.
Qed.

(** The shape of group 1: digits and commas, then either a point and
    digits, or nothing. *)
Lemma match_quantity_shape (s group1 : string) (group2 : option string) :
  match_quantity s = Some (group1, group2) ->
  exists lead frac,
    all_chars is_digit_or_comma lead = true
    /\ Py.is_empty lead = false
    /\ all_chars Py.is_digit frac = true
    /\ (group1 = lead ++ String "." frac
        \/ (group1 = lead /\ frac = EmptyString)).
Proof.
  unfold match_quantity.
  pose proof (span_fst_all is_digit_or_comma s) as Hl.
  pose proof (span_snd_head is_digit_or_comma s) as Hh.
  destruct (Re.span is_digit_or_comma s) as [lead r1]. cbn [fst snd] in Hl, Hh.
  destruct (Py.is_empty lead) eqn:Ee; [discriminate |].
  destruct r1 as [| c r].
  - cbn. intros H. injection H as <- _.
    exists lead, EmptyString. rewrite str_app_nil_r. now repeat split; try right.
  - destruct (Ascii.eqb c ".") eqn:Ec.
    + apply Ascii.eqb_eq in Ec. subst c.
      pose proof (span_fst_all Py.is_digit r) as Hf.
      destruct (Re.span Py.is_digit r) as [frac r3]. cbn [fst] in Hf.
      destruct (Re.span Py.is_space r3) as [gap r4].
      intros H. injection H as <- _.
      exists lead, frac. repeat split; try assumption. now left.
    + assert (E : (match String c r with
                   | String "." r' => (".", r')
                   | _ => (EmptyString, String c r)
                   end) = (EmptyString, String c r)).
      { apply Ascii.eqb_neq in Ec.
        destruct c as [[] [] [] [] [] [] [] []]; try reflexivity. now elim Ec. }
      rewrite E.
      assert (Hd : Py.is_digit c = false).
      { cbn [Py.head] in Hh. unfold is_digit_or_comma in Hh.
        now apply orb_false_iff in Hh. }
      rewrite (span_nil_head _ _ _ Hd).
      destruct (Re.span Py.is_space (String c r)) as [gap r4].
      intros H. injection H as <- _.
      exists lead, EmptyString. rewrite str_app_nil_r.
      repeat split; try assumption. now right.
Qed.

Lemma not_digit_app (a b : string) :
  all_chars not_digit a = true -> all_chars not_digit b = true ->
  all_chars not_digit (a ++ b) = true.
Proof. intros Ha Hb. now rewrite all_chars_app, Ha, Hb. Qed.

(** [float] of group 1 without its commas fails exactly when group 1 has no
    digit. *)
Lemma float_group1 (s group1 : string) (group2 : option string) :
  match_quantity s = Some (group1, group2) ->
  (PyFloat.float (Py.replace "," EmptyString group1) = None
   <-> all_chars not_digit group1 = true).
Proof.
  intros M.
  destruct (match_quantity_groups _ _ _ M) as [Hg _].
  pose proof (all_chars_remove_commas _ Hg) as Ht.
  destruct (match_quantity_shape _ _ _ M) as (lead & frac & Hl & Hne & Hf & Hs).
  destruct (remove_commas_lead lead Hl) as [Ha Hempty].
  split.
  - intros F. rewrite (float_unsigned_body _ Ht) in F.
    destruct Hs as [-> | [-> ->]].
    + rewrite remove_commas_app in F.
      rewrite (remove_commas_id (String "." frac)) in F
        by (cbn [all_chars]; now rewrite (digits_not_comma frac Hf)).
      destruct (Py.is_empty (Py.replace "," EmptyString lead)
                && Py.is_empty frac)%bool eqn:E.
      * apply andb_true_iff in E. destruct E as [E1 E2].
        destruct frac; [| discriminate].
        apply not_digit_app; [now apply Hempty | reflexivity].
      * rewrite (floatnumber_point false _ _ Ha Hf E) in F. discriminate.
    + destruct (Py.is_empty (Py.replace "," EmptyString lead)) eqn:E.
      * now apply Hempty.
      * rewrite (floatnumber_digits false _ Ha E) in F. discriminate.
  - intros Hn. rewrite (float_unsigned_body _ Ht).
    rewrite floatnumber_no_digit; [reflexivity |].
    apply (all_chars_replace_char not_digit not_digit "," EmptyString);
      [reflexivity | now intros c H _ | exact Hn].
Qed.

(** X9. [parse_quantity] raises exactly when the leading pattern matches and
    its first group contains no digit, that is when the stripped text starts
    with commas that no digit follows before the group ends; the exception is
    then a [ValueError], and no other exception is ever raised. *)
Theorem parse_quantity_raises_iff (qty_str : string) :
  (parse_quantity qty_str = Raise ValueError
   <-> exists group1 group2,
         match_quantity (Py.strip qty_str) = Some (group1, group2)
         /\ all_chars not_digit group1 = true)
  /\ parse_quantity qty_str <> Raise OSError
  /\ (forall e, parse_quantity qty_str = Raise e -> e = ValueError).
Proof.
  unfold parse_quantity.
  destruct (match_quantity (Py.strip qty_str)) as [[group1 group2] |] eqn:M.
  - pose proof (float_group1 _ _ _ M) as Hf.
    destruct (PyFloat.float (Py.replace "," EmptyString group1)) as [v |].
    + split; [| split; [discriminate | discriminate]]. split; [discriminate |].
      intros (g1 & g2 & E & Hn). injection E as <- <-.
      apply Hf in Hn. discriminate.
    + split; [| split; [discriminate | intros e H; now injection H as <-]].
      split; [| reflexivity].
      intros _. exists group1, group2. split; [reflexivity | now apply Hf].
  - split.
    + split.
      * destruct (PyFloat.float _); discriminate.
      * intros (g1 & g2 & E & _). discriminate.
    + destruct (PyFloat.float _); split; discriminate.
Qed.

Lemma parse_quantity_raises_iff_witness :
  (exists group1 group2,
      match_quantity (Py.strip ",,") = Some (group1, group2)
      /\ all_chars not_digit group1 = true)
  /\ parse_quantity ",," = Raise ValueError.
Proof.
  assert (H : exists group1 group2,
             match_quantity (Py.strip ",,") = Some (group1, group2)
             /\ all_chars not_digit group1 = true)
    by (exists ",,", None; split; reflexivity).
  split; [exact H |].
  exact (proj2 (proj1 (parse_quantity_raises_iff ",,")) H).
Defined.

(** ** Integers written in decimal *)

Lemma digits_value_acc (d : Decimal.uint) (acc : positive) :
  PyFloat.digits_value (Z.pos acc) (NilEmpty.string_of_uint d)
  = Z.pos (Pos.of_uint_acc d acc).
Proof.
  revert acc.
  induction d as [| d IH | d IH | d IH | d IH | d IH | d IH | d IH | d IH
                  | d IH | d IH];
    intros acc;
    cbn [NilEmpty.string_of_uint PyFloat.digits_value Pos.of_uint_acc];
    [reflexivity | ..];
    rewrite <- IH; f_equal;
    unfold PyFloat.digit_value, Py.code; simpl N_of_ascii; lia.
Qed.

Lemma digits_value_uint (d : Decimal.uint) :
  PyFloat.digits_value 0 (NilEmpty.string_of_uint d) = Z.of_N (Pos.of_uint d).
Proof.
  induction d as [| d IH | d IH | d IH | d IH | d IH | d IH | d IH | d IH
                  | d IH | d IH];
    cbn [NilEmpty.string_of_uint PyFloat.digits_value Pos.of_uint];
    [reflexivity | exact IH | ..];
    cbn [Z.of_N]; rewrite <- digits_value_acc; f_equal.
Qed.

Lemma uint_digits (d : Decimal.uint) :
  all_chars Py.is_digit (NilEmpty.string_of_uint d) = true.
Proof.
  induction d; cbn [NilEmpty.string_of_uint all_chars]; try reflexivity;
    now rewrite IHd.
Qed.

Lemma positive_digits (p : positive) :
  let a := NilZero.string_of_uint (Pos.to_uint p) in
  all_chars Py.is_digit a = true
  /\ Py.is_empty a = false
  /\ PyFloat.digits_value 0 a = Z.pos p.
Proof.
  pose proof (DecimalPos.Unsigned.to_uint_nonnil p) as Hn.
  pose proof (DecimalPos.Unsigned.of_to p) as Ho.
  pose proof (uint_digits (Pos.to_uint p)) as Hd.
  pose proof (digits_value_uint (Pos.to_uint p)) as Hv.
  rewrite Ho in Hv.
  destruct (Pos.to_uint p); [now elim Hn | ..]; now repeat split.
Qed.

Lemma py_strip_id (s : string) : all_chars not_space s = true -> Py.strip s = s.
Proof.
  intros H. unfold Py.strip.
  assert (E : Py.lstrip s = s).
  { destruct s as [| c s]; [reflexivity |]. cbn [all_chars] in H.
    apply andb_true_iff in H. destruct H as [Hc _].
    apply negb_true_iff in Hc. simpl. now rewrite Hc. }
  rewrite E. clear E.
  induction s as [| c s IH]; [reflexivity |].
  cbn [all_chars] in H. apply andb_true_iff in H. destruct H as [Hc Hs].
  apply negb_true_iff in Hc. cbn [Py.rstrip]. rewrite (IH Hs), Hc.
  now destruct s.
Qed.

Lemma plain_not_space (s : string) :
  all_chars plain_char s = true -> all_chars not_space s = true.
Proof.
  apply all_chars_weaken. intros c H. unfold not_space.
  now rewrite (proj2 (proj2 (proj2 (plain_char_facts c H)))).
Qed.

Lemma plain_not_comma (s : string) :
  all_chars plain_char s = true -> all_chars not_comma s = true.
Proof.
  apply all_chars_weaken. intros c H. apply (plain_char_facts c H).
Qed.

Lemma digits_plain (s : string) :
  all_chars Py.is_digit s = true -> all_chars plain_char s = true.
Proof.
  intros H. now apply digit_or_point_plain, digit_is_digit_or_point.
Qed.

(** A non-empty string of digits is read as the [float] nearest to its
    value, without unit. *)
Lemma parse_quantity_digits (a : string) :
  all_chars Py.is_digit a = true -> Py.is_empty a = false ->
  parse_quantity a
  = Ok (SpecFloat.binary_normalize prec emax (PyFloat.digits_value 0 a) 0 false,
        EmptyString).
Proof.
  intros Ha Hne. unfold parse_quantity.
  rewrite (py_strip_id a (plain_not_space a (digits_plain a Ha))).
  unfold match_quantity.
  assert (Hdc : all_chars is_digit_or_comma a = true).
  { apply (all_chars_weaken Py.is_digit); [| exact Ha].
    intros c H. unfold is_digit_or_comma. now rewrite H. }
  rewrite (span_all_id _ _ Hdc), Hne. cbn [Re.span].
  rewrite !str_app_nil_r.
  rewrite (remove_commas_id a (plain_not_comma a (digits_plain a Ha))).
  rewrite (float_unsigned_body a (digit_is_digit_or_point a Ha)).
  now rewrite (floatnumber_digits false a Ha Hne), decimal_int.
Qed.

(** A minus sign in front of the digits sends the text to the fallback,
    which reads the negative number. *)
Lemma parse_quantity_minus_digits (a : string) :
  all_chars Py.is_digit a = true -> Py.is_empty a = false ->
  parse_quantity (String "-" a)
  = Ok (SpecFloat.binary_normalize prec emax (- PyFloat.digits_value 0 a) 0 true,
        EmptyString).
Proof.
  intros Ha Hne. unfold parse_quantity.
  assert (Hp : all_chars plain_char (String "-" a) = true)
    by (cbn [all_chars]; now rewrite (digits_plain a Ha)).
  rewrite (py_strip_id _ (plain_not_space _ Hp)).
  unfold match_quantity. rewrite (span_stop is_digit_or_comma (String "-" a) eq_refl).
  cbn [Py.is_empty].
  rewrite (remove_commas_id _ (plain_not_comma _ Hp)).
  unfold PyFloat.float. rewrite (float_preprocess _ Hp).
  cbn [PyFloat.sign].
  destruct (unsigned_body a (digit_is_digit_or_point a Ha)) as [_ [E1 [E2 E3]]].
  rewrite E1, E2, E3. cbn [orb].
  now rewrite (floatnumber_digits true a Ha Hne), decimal_int.
Qed.

(** X10. An integer that [str] writes with [z] below 2^53 in absolute value
    is read back by [parse_quantity] as the [float] that stands for exactly
    that integer, without unit, a negative one going through the fallback;
    whatever its size, a non-negative integer is read as the binary64 value
    nearest to it, which is 2^53 for 2^53 + 1 and the infinity for 10^309. *)
Theorem parse_quantity_of_int (z : Z) :
  (- 2 ^ 53 < z < 2 ^ 53 ->
   exists v, parse_quantity (Py.str_of_int z) = Ok (v, EmptyString)
             /\ is_integer v z)
  /\ (0 <= z ->
      parse_quantity (Py.str_of_int z)
      = Ok (SpecFloat.binary_normalize prec emax z 0 false, EmptyString))
  /\ (exists v, parse_quantity (Py.str_of_int (2 ^ 53 + 1)) = Ok (v, EmptyString)
                /\ is_integer v (2 ^ 53))
  /\ parse_quantity (Py.str_of_int (10 ^ 309))
     = Ok (SpecFloat.S754_infinity false, EmptyString).
Proof.
  assert (Hpos : forall p,
             parse_quantity (Py.str_of_int (Z.pos p))
             = Ok (SpecFloat.binary_normalize prec emax (Z.pos p) 0 false,
                   EmptyString)).
  { intros p. unfold Py.str_of_int. cbn [Z.to_int NilZero.string_of_int].
    destruct (positive_digits p) as [Ha [Hne Hv]].
    now rewrite (parse_quantity_digits _ Ha Hne), Hv. }
  assert (Hneg : forall p,
             parse_quantity (Py.str_of_int (Z.neg p))
             = Ok (SpecFloat.binary_normalize prec emax (Z.neg p) 0 true,
                   EmptyString)).
  { intros p. unfold Py.str_of_int. cbn [Z.to_int NilZero.string_of_int].
    destruct (positive_digits p) as [Ha [Hne Hv]].
    now rewrite (parse_quantity_minus_digits _ Ha Hne), Hv. }
  split; [| split; [| split]].
  - intros [Hlo Hhi]. destruct z as [| p | p].
    + eexists. split; [reflexivity |]. exists 0%Q. split; reflexivity.
    + eexists. split; [apply Hpos |].
      exact (binary_normalize_exact false (Z.pos p) ltac:(lia)).
    + eexists. split; [apply Hneg |].
      exact (binary_normalize_exact true (Z.pos p) ltac:(lia)).
  - intros Hz. destruct z as [| p | p]; [reflexivity | apply Hpos | lia].
  - eexists. split; [vm_compute; reflexivity |].
    eexists. split; reflexivity.
  - vm_compute. reflexivity.
Qed.

Lemma parse_quantity_of_int_witness :
  - 2 ^ 53 < 2500 < 2 ^ 53
  /\ exists v, parse_quantity (Py.str_of_int 2500) = Ok (v, EmptyString)
               /\ is_integer v 2500.
Proof.
  assert (H : - 2 ^ 53 < 2500 < 2 ^ 53) by (split; reflexivity).
  split; [exact H |].
  exact (proj1 (parse_quantity_of_int 2500) H).
Defined.

(** ** A number and a unit word *)

Lemma lead_head (lead : string) :
  all_chars is_digit_or_comma lead = true -> Py.is_empty lead = false ->
  exists c, Py.head lead = Some c /\ Py.is_space c = false.
Proof.
  destruct lead as [| c lead]; [discriminate |].
  cbn [all_chars]. intros H _. apply andb_true_iff in H. destruct H as [Hc _].
  exists c. split; [reflexivity |].
  destruct c as [[] [] [] [] [] [] [] []]; try discriminate Hc; reflexivity.
Qed.

Lemma lead_value (lead : string) :
  all_chars is_digit_or_comma lead = true ->
  all_chars not_digit lead = false ->
  Py.is_empty lead = false
  /\ PyFloat.float (Py.replace "," EmptyString lead)
     = Some (SpecFloat.binary_normalize
               prec emax
               (PyFloat.digits_value 0 (Py.replace "," EmptyString lead)) 0 false).
Proof.
  intros Hl Hd. destruct (remove_commas_lead lead Hl) as [Ha He].
  split; [destruct lead; [discriminate Hd | reflexivity] |].
  rewrite (float_unsigned_body _ (digit_is_digit_or_point _ Ha)).
  rewrite floatnumber_digits; [now rewrite decimal_int | exact Ha |].
  destruct (Py.is_empty (Py.replace "," EmptyString lead)); [| reflexivity].
  rewrite (He eq_refl) in Hd. discriminate.
Qed.

(** X11. Digits with thousands separators, a space and a unit word are read
    as the binary64 value nearest to the number [n] that the digits spell
    without the commas, with that unit, the word "each" giving the unit
    "ea"; when [n] is below 2^53 the value is exactly [n]. *)
Theorem parse_quantity_number_and_unit (lead w : string) :
  all_chars is_digit_or_comma lead = true ->
  all_chars not_digit lead = false ->
  In w unit_words ->
  let n := PyFloat.digits_value 0 (Py.replace "," EmptyString lead) in
  parse_quantity (lead ++ " " ++ w)
  = Ok (SpecFloat.binary_normalize prec emax n 0 false,
        if String.eqb w "each" then "ea" else w)
  /\ (n < 2 ^ 53 ->
      is_integer (SpecFloat.binary_normalize prec emax n 0 false) n).
Proof.
  intros Hl Hd Hw n. destruct (lead_value lead Hl Hd) as [Hne Hf].
  destruct (lead_head lead Hl Hne) as [c [Hh Hc]].
  assert (Hm : match_quantity (lead ++ " " ++ w)
               = Some (lead, Some (if String.eqb w "each" then "ea" else w))).
  { unfold match_quantity.
    rewrite (span_app is_digit_or_comma lead (" " ++ w) Hl eq_refl), Hne.
    unfold unit_words in Hw. cbn [In] in Hw.
    repeat (destruct Hw as [<- | Hw];
            [cbn; now rewrite !str_app_nil_r |]).
    destruct Hw. }
  assert (Hs : Py.strip (lead ++ " " ++ w) = lead ++ " " ++ w).
  { assert (Hlast : exists d, Py.last (lead ++ " " ++ w) = Some d
                              /\ Py.is_space d = false).
    { rewrite last_app_nonempty by reflexivity.
      unfold unit_words in Hw. cbn [In] in Hw.
      repeat (destruct Hw as [<- | Hw]; [eexists; split; reflexivity |]).
      destruct Hw. }
    destruct Hlast as [d [Hl' Hd']].
    apply (strip_id _ c d); try assumption.
    rewrite head_app. now rewrite Hh. }
  split.
  - unfold parse_quantity. rewrite Hs, Hm, Hf. fold n.
    unfold unit_words in Hw. cbn [In] in Hw.
    repeat (destruct Hw as [<- | Hw]; [reflexivity |]).
    destruct Hw.
  - intros Hn.
    assert (H0 : 0 <= n).
    { apply digits_value_nonneg; [| lia].
      exact (proj1 (remove_commas_lead lead Hl)). }
    exact (binary_normalize_exact false n (conj H0 Hn)).
Qed.

Lemma parse_quantity_number_and_unit_witness :
  all_chars is_digit_or_comma "2,500" = true
  /\ all_chars not_digit "2,500" = false
  /\ In "feet" unit_words
  /\ parse_quantity "2,500 feet" = Ok (number_of_int 2500, "feet").
Proof.
  assert (H1 : all_chars is_digit_or_comma "2,500" = true) by reflexivity.
  assert (H2 : all_chars not_digit "2,500" = false) by reflexivity.
  assert (H3 : In "feet" unit_words) by (cbn; tauto).
  split; [exact H1 | split; [exact H2 | split; [exact H3 |]]].
  exact (proj1 (parse_quantity_number_and_unit "2,500" "feet" H1 H2 H3)).
Defined.

(** * Further properties of the labor extension *)

Lemma binary_round_aux_opp (s : bool) (m e : Z) (l : SpecFloat.location) :
  SpecFloat.binary_round_aux prec emax (negb s) m e l
  = SpecFloat.SFopp (SpecFloat.binary_round_aux prec emax s m e l).
Proof.
  unfold SpecFloat.binary_round_aux.
  destruct (SpecFloat.shr_fexp prec emax m e l) as [mrs' e'].
  destruct (SpecFloat.shr_fexp prec emax _ e' SpecFloat.loc_Exact) as [mrs'' e''].
  destruct (SpecFloat.shr_m mrs''); try reflexivity.
  destruct (e'' <=? emax - prec); reflexivity.
Qed.

Lemma num_mul_opp_l (x y : number) :
  num_mul (SpecFloat.SFopp x) y = SpecFloat.SFopp (num_mul x y).
Proof.
  unfold num_mul.
  destruct x as [sx | sx | | sx mx ex], y as [sy | sy | | sy my ey];
    cbn [SpecFloat.SFmul SpecFloat.SFopp]; try reflexivity;
    try (now rewrite negb_xorb_l).
  now rewrite <- binary_round_aux_opp, negb_xorb_l.
Qed.

Lemma num_mul_opp_r (x y : number) :
  num_mul x (SpecFloat.SFopp y) = SpecFloat.SFopp (num_mul x y).
Proof.
  unfold num_mul.
  destruct x as [sx | sx | | sx mx ex], y as [sy | sy | | sy my ey];
    cbn [SpecFloat.SFmul SpecFloat.SFopp]; try reflexivity;
    try (now rewrite negb_xorb_r).
  now rewrite <- binary_round_aux_opp, negb_xorb_r.
Qed.

Lemma num_div_int_opp (x : number) (d : Z) :
  num_div_int (SpecFloat.SFopp x) d = SpecFloat.SFopp (num_div_int x d).
Proof.
  unfold num_div_int.
  destruct x as [sx | sx | | sx mx ex], (number_of_int d) as [sy | sy | | sy my ey];
    cbn [SpecFloat.SFdiv SpecFloat.SFopp]; try reflexivity;
    try (now rewrite negb_xorb_l).
  destruct (SpecFloat.SFdiv_core_binary _ _ _ _ _ _) as [[mz ez] lz].
  now rewrite <- binary_round_aux_opp, negb_xorb_l.
Qed.

(** Shifting out the zero bits that a shift to the left has added gives the
    mantissa back, and nothing is lost. *)
Lemma shr_iter_xO (n m : positive) :
  SpecFloat.iter_pos SpecFloat.shr_1 n
    {| SpecFloat.shr_m := Z.pos (Pos.iter xO m n);
       SpecFloat.shr_r := false; SpecFloat.shr_s := false |}
  = {| SpecFloat.shr_m := Z.pos m;
       SpecFloat.shr_r := false; SpecFloat.shr_s := false |}.
Proof.
  revert m. induction n as [n IH | n IH |]; intros m;
    cbn [SpecFloat.iter_pos Pos.iter].
  - cbn [SpecFloat.shr_1 orb]. now rewrite !IH.
  - now rewrite !IH.
  - reflexivity.
Qed.

(** The product of the [float] 1.0 and a binary64 number is that number. *)
Lemma num_mul_one (v : number) :
  SpecFloat.valid_binary prec emax v = true ->
  num_mul (number_of_int 1) v = v.
Proof.
  intros Hv. unfold num_mul.
  change (number_of_int 1)
    with (SpecFloat.S754_finite false (Pos.iter xO 1%positive 52%positive) (-52)).
  destruct v as [s | s | | s m e]; cbn [SpecFloat.SFmul xorb]; try reflexivity.
  cbn [SpecFloat.valid_binary] in Hv. unfold SpecFloat.bounded in Hv.
  apply andb_true_iff in Hv. destruct Hv as [Hc He].
  unfold SpecFloat.canonical_mantissa in Hc. apply Z.eqb_eq in Hc.
  assert (Em : (Pos.iter xO 1 52 * m)%positive = Pos.iter xO m 52%positive).
  { apply Pos2Z.inj. rewrite Pos2Z.inj_mul, !iter_xO_value. lia. }
  rewrite Em. unfold SpecFloat.binary_round_aux.
  assert (E1 : SpecFloat.shr_fexp prec emax (Z.pos (Pos.iter xO m 52%positive)) (-52 + e)
                                  SpecFloat.loc_Exact
               = ({| SpecFloat.shr_m := Z.pos m;
                     SpecFloat.shr_r := false; SpecFloat.shr_s := false |}, e)).
  { unfold SpecFloat.shr_fexp, SpecFloat.shr. cbn [SpecFloat.Zdigits2].
    rewrite iter_xO_digits.
    replace (Z.pos (SpecFloat.digits2_pos m + 52) + (-52 + e))
      with (Z.pos (SpecFloat.digits2_pos m) + e) by lia.
    rewrite Hc. replace (e - (-52 + e)) with 52 by lia.
    cbn [SpecFloat.shr_record_of_loc]. rewrite shr_iter_xO.
    f_equal. lia. }
  rewrite E1.
  cbn [SpecFloat.shr_m SpecFloat.loc_of_shr_record SpecFloat.round_nearest_even].
  assert (E2 : SpecFloat.shr_fexp prec emax (Z.pos m) e SpecFloat.loc_Exact
               = ({| SpecFloat.shr_m := Z.pos m;
                     SpecFloat.shr_r := false; SpecFloat.shr_s := false |}, e)).
  { unfold SpecFloat.shr_fexp, SpecFloat.shr. cbn [SpecFloat.Zdigits2].
    rewrite Hc, Z.sub_diag. reflexivity. }
  rewrite E2. cbn [SpecFloat.shr_m]. now rewrite He.
Qed.

(** X12. The unit-normalisation checks hold exactly in binary64: for every
    binary64 labor value [v], 100 units at [v] per hundred, 1000 units at [v]
    per thousand and 1 unit at [v] each are [v] hours, nothing being rounded;
    and under every labor unit the hours change sign with the quantity and
    with the labor value. *)
Theorem calculate_labor_extension_normalisation
        (v qty : number) (qty_unit labor_unit : string) :
  SpecFloat.valid_binary prec emax v = true ->
  calculate_labor_extension (number_of_int 100) qty_unit v "C" = v
  /\ calculate_labor_extension (number_of_int 1000) qty_unit v "M" = v
  /\ calculate_labor_extension (number_of_int 1) qty_unit v "E" = v
  /\ calculate_labor_extension (SpecFloat.SFopp qty) qty_unit v labor_unit
     = SpecFloat.SFopp (calculate_labor_extension qty qty_unit v labor_unit)
  /\ calculate_labor_extension qty qty_unit (SpecFloat.SFopp v) labor_unit
     = SpecFloat.SFopp (calculate_labor_extension qty qty_unit v labor_unit).
Proof.
  intros Hv.
  assert (H100 : num_div_int (number_of_int 100) 100 = number_of_int 1)
    by reflexivity.
  assert (H1000 : num_div_int (number_of_int 1000) 1000 = number_of_int 1)
    by reflexivity.
  split; [unfold calculate_labor_extension; cbn [String.eqb];
          rewrite H100; now apply num_mul_one |].
  split; [unfold calculate_labor_extension; cbn [String.eqb];
          rewrite H1000; now apply num_mul_one |].
  split; [unfold calculate_labor_extension; cbn [String.eqb];
          now apply num_mul_one |].
  unfold calculate_labor_extension.
  split.
  - destruct (String.eqb labor_unit "E");
      [| destruct (String.eqb labor_unit "C");
         [| destruct (String.eqb labor_unit "M")]];
      now rewrite ?num_div_int_opp, num_mul_opp_l.
  - destruct (String.eqb labor_unit "E");
      [| destruct (String.eqb labor_unit "C");
         [| destruct (String.eqb labor_unit "M")]];
      now rewrite num_mul_opp_r.
Qed.

Lemma calculate_labor_extension_normalisation_witness :
  SpecFloat.valid_binary prec emax (FloatOps.Prim2SF (binary64_ratio 1 10)) = true
  /\ calculate_labor_extension (number_of_int 100) "feet"
                               (FloatOps.Prim2SF (binary64_ratio 1 10)) "C"
     = FloatOps.Prim2SF (binary64_ratio 1 10).
Proof.
  assert (H : SpecFloat.valid_binary prec emax
                (FloatOps.Prim2SF (binary64_ratio 1 10)) = true) by reflexivity.
  split; [exact H |].
  exact (proj1 (calculate_labor_extension_normalisation
                  (FloatOps.Prim2SF (binary64_ratio 1 10)) (number_of_int 3)
                  "feet" "C" H)).
Defined.

(** * Case and surrounding whitespace *)

Lemma lower_char_idem (c : ascii) : Py.lower_char (Py.lower_char c) = Py.lower_char c.
Proof. destruct c as [[] [] [] [] [] [] [] []]; reflexivity. Qed.

Lemma lower_char_space (c : ascii) : Py.is_space (Py.lower_char c) = Py.is_space c.
Proof. destruct c as [[] [] [] [] [] [] [] []]; reflexivity. Qed.

Lemma lower_idem (s : string) : Py.lower (Py.lower s) = Py.lower s.
Proof.
  induction s as [| c s IH]; [reflexivity |].
  cbn [Py.lower]. now rewrite lower_char_idem, IH.
Qed.

Lemma lower_lstrip (s : string) : Py.lower (Py.lstrip s) = Py.lstrip (Py.lower s).
Proof.
  induction s as [| c s IH]; [reflexivity |].
  cbn [Py.lower Py.lstrip]. rewrite lower_char_space.
  now destruct (Py.is_space c).
Qed.

Lemma lower_rstrip (s : string) : Py.lower (Py.rstrip s) = Py.rstrip (Py.lower s).
Proof.
  induction s as [| c s IH]; [reflexivity |].
  cbn [Py.lower Py.rstrip]. rewrite <- IH, lower_char_space.
  destruct (Py.rstrip s); cbn [Py.lower]; [| reflexivity].
  now destruct (Py.is_space c).
Qed.

Lemma lower_strip (s : string) : Py.lower (Py.strip s) = Py.strip (Py.lower s).
Proof. unfold Py.strip. now rewrite lower_rstrip, lower_lstrip. Qed.

Lemma lstrip_head (s : string) :
  match Py.head (Py.lstrip s) with
  | Some c => Py.is_space c = false
  | None => True
  end.
Proof.
  induction s as [| c s IH]; [exact I |].
  cbn [Py.lstrip]. destruct (Py.is_space c) eqn:E; [exact IH | exact E].
Qed.

Lemma rstrip_head (s : string) :
  match Py.head s with
  | Some c => Py.is_space c = false
  | None => True
  end ->
  match Py.head (Py.rstrip s) with
  | Some c => Py.is_space c = false
  | None => True
  end.
Proof.
  destruct s as [| c s]; [trivial |].
  cbn [Py.head Py.rstrip]. intros Hc. rewrite Hc.
  now destruct (Py.rstrip s).
Qed.

Lemma lstrip_id (s : string) :
  match Py.head s with
  | Some c => Py.is_space c = false
  | None => True
  end ->
  Py.lstrip s = s.
Proof.
  destruct s as [| c s]; [reflexivity |]. simpl. now intros ->.
Qed.

Lemma rstrip_last (s : string) :
  match Py.last (Py.rstrip s) with
  | Some d => Py.is_space d = false
  | None => True
  end.
Proof.
  induction s as [| c s IH]; [exact I |].
  cbn [Py.rstrip]. destruct (Py.rstrip s) as [| c' r].
  - destruct (Py.is_space c) eqn:E; [exact I | exact E].
  - exact IH.
Qed.

Lemma strip_idem (s : string) : Py.strip (Py.strip s) = Py.strip s.
Proof.
  unfold Py.strip.
  rewrite (lstrip_id (Py.rstrip (Py.lstrip s)))
    by (apply rstrip_head, lstrip_head).
  apply rstrip_id. pose proof (rstrip_last (Py.lstrip s)) as H.
  now destruct (Py.last (Py.rstrip (Py.lstrip s))).
Qed.

Lemma normalize_description_lower (desc : string) :
  normalize_description (Py.lower desc) = normalize_description desc.
Proof. unfold normalize_description. now rewrite lower_idem. Qed.

Lemma normalize_description_strip (desc : string) :
  normalize_description (Py.strip desc) = normalize_description desc.
Proof.
  unfold normalize_description. now rewrite lower_strip, strip_idem.
Qed.

(** X13. The matcher does not see the letter case of a query nor the
    whitespace around it: lower-casing or stripping the query changes neither
    the results of [search] nor the answer of [best_match]. *)
Theorem search_ignores_case_and_margins
        (fuzz : fuzz_module) (self : LaborMatcher) (query : string) (top_n : Z) :
  search fuzz self (Py.lower query) top_n = search fuzz self query top_n
  /\ search fuzz self (Py.strip query) top_n = search fuzz self query top_n
  /\ best_match fuzz self (Py.lower query) = best_match fuzz self query
  /\ best_match fuzz self (Py.strip query) = best_match fuzz self query.
Proof.
  assert (Hl : forall n, search fuzz self (Py.lower query) n
                         = search fuzz self query n).
  { intros n. unfold search, candidates.
    now rewrite normalize_description_lower. }
  assert (Hs : forall n, search fuzz self (Py.strip query) n
                         = search fuzz self query n).
  { intros n. unfold search, candidates.
    now rewrite normalize_description_strip. }
  repeat split; auto; unfold best_match; now rewrite ?Hl, ?Hs.
Qed.

(** * [app.py]: browsing the labor table *)

Lemma py_slice_window {A : Type} (l : list A) (a p : Z) :
  0 <= a -> 0 <= p ->
  py_slice l a (a + p) = firstn (Z.to_nat p) (skipn (Z.to_nat a) l).
Proof.
  intros Ha Hp. unfold py_slice, slice_index.
  assert (E1 : (a <? 0) = false) by (apply Z.ltb_ge; lia).
  assert (E2 : (a + p <? 0) = false) by (apply Z.ltb_ge; lia).
  rewrite E1, E2.
  destruct (Z_lt_le_dec a (Z.of_nat (length l))) as [Hlt | Hge].
  - replace (Z.to_nat (Z.max 0 (Z.min (Z.of_nat (length l)) a)))
      with (Z.to_nat a) by lia.
    set (x := skipn (Z.to_nat a) l).
    assert (Hx : length x = (length l - Z.to_nat a)%nat)
      by (subst x; apply length_skipn).
    destruct (Z_le_gt_dec (a + p) (Z.of_nat (length l))) as [Hle | Hgt].
    + f_equal. lia.
    + rewrite (firstn_all2 (n := Z.to_nat p)) by lia.
      apply firstn_all2. lia.
  - rewrite (skipn_all2 (n := Z.to_nat a)) by lia.
    rewrite firstn_nil.
    replace (Z.to_nat _) with 0%nat by lia. reflexivity.
Qed.

Lemma firstn_plus {A : Type} (a b : nat) (l : list A) :
  firstn (a + b) l = (firstn a l ++ firstn b (skipn a l))%list.
Proof.
  revert l. induction a as [| a IH]; intros l; [reflexivity |].
  destruct l as [| x l]; simpl; [now rewrite firstn_nil | now rewrite IH].
Qed.

Lemma concat_windows {A : Type} (p k : nat) (l : list A) :
  concat (map (fun i => firstn p (skipn (i * p) l)) (seq 0 k))
  = firstn (k * p) l.
Proof.
  induction k as [| k IH]; [reflexivity |].
  rewrite seq_S, map_app, concat_app, IH. simpl.
  rewrite app_nil_r, Nat.add_comm. symmetry. apply firstn_plus.
Qed.

Lemma page_count_bounds (total per_page : Z) :
  0 <= total -> 1 <= per_page ->
  let n := (total + per_page - 1) / per_page in
  total <= n * per_page < total + per_page.
Proof.
  intros Ht Hp n. subst n.
  pose proof (Z.div_mod (total + per_page - 1) per_page ltac:(lia)) as E.
  pose proof (Z.mod_pos_bound (total + per_page - 1) per_page ltac:(lia)) as B.
  lia.
Qed.

(** X14. With [per_page >= 1], every page from the first on holds at most
    [per_page] rows, the rows of the filtered table from position
    [(page - 1) * per_page]; the page count is the number of rows divided by
    [per_page] and rounded up; the pages from 1 to the page count, put one
    after the other, are exactly the filtered table, and every later page is
    empty.  With [per_page = 0] the request ends in a
    [ZeroDivisionError]. *)
Theorem labor_browse_pages
        (rows : list Entry) (section category search_arg : string) (per_page : Z) :
  let filtered := browse_filter rows section category (Py.lower search_arg) in
  let n := (Z.of_nat (length filtered) + per_page - 1) / per_page in
  (forall page, labor_browse rows section category search_arg page 0
                = BrowseZeroDivisionError)
  /\ (1 <= per_page ->
      (forall page, 1 <= page ->
         exists p,
           labor_browse rows section category search_arg page per_page = BrowseOk p
           /\ bp_total p = Z.of_nat (length filtered)
           /\ bp_pages p = n
           /\ bp_data p = firstn (Z.to_nat per_page)
                                 (skipn (Z.to_nat ((page - 1) * per_page)) filtered)
           /\ Z.of_nat (length (bp_data p)) <= per_page
           /\ (n < page -> bp_data p = []))
      /\ Z.of_nat (length filtered) <= n * per_page
         < Z.of_nat (length filtered) + per_page
      /\ concat (map (fun i => browse_data
                                 (labor_browse rows section category search_arg
                                               (Z.of_nat i + 1) per_page))
                     (seq 0 (Z.to_nat n)))
         = filtered).
Proof.
  intros filtered n. split; [reflexivity |].
  intros Hp.
  pose proof (page_count_bounds (Z.of_nat (length filtered)) per_page
                ltac:(lia) Hp) as Hn.
  fold n in Hn. cbv zeta in Hn.
  assert (Hz : (per_page =? 0) = false) by (apply Z.eqb_neq; lia).
  assert (Hdata : forall page, 1 <= page ->
            browse_data (labor_browse rows section category search_arg page per_page)
            = firstn (Z.to_nat per_page)
                     (skipn (Z.to_nat ((page - 1) * per_page)) filtered)).
  { intros page Hpage. unfold labor_browse. rewrite Hz. cbn [browse_data bp_data].
    fold filtered. apply py_slice_window; nia. }
  split; [| split; [exact Hn |]].
  - intros page Hpage. specialize (Hdata page Hpage).
    unfold labor_browse in *. rewrite Hz in *. fold filtered in Hdata |- *.
    cbn [browse_data bp_data] in Hdata.
    eexists. split; [reflexivity |]. cbn [bp_total bp_pages bp_data].
    rewrite Hdata. repeat split.
    + pose proof (firstn_le_length (Z.to_nat per_page)
                    (skipn (Z.to_nat ((page - 1) * per_page)) filtered)). lia.
    + intros Hlate. rewrite skipn_all2; [apply firstn_nil | nia].
  - rewrite (map_ext_in _ (fun i => firstn (Z.to_nat per_page)
                                      (skipn (i * Z.to_nat per_page) filtered))).
    + rewrite concat_windows. apply firstn_all2. nia.
    + intros i _. rewrite Hdata by lia. do 2 f_equal. nia.
Qed.

Lemma labor_browse_pages_witness :
  1 <= 1
  /\ concat (map (fun i => browse_data
                             (labor_browse (entries emt_table) EmptyString
                                           EmptyString "emt" (Z.of_nat i + 1) 1))
                 (seq 0 2))
     = entries emt_table.
Proof.
  assert (H : 1 <= 1) by lia.
  split; [exact H |].
  exact (proj2 (proj2 (proj2 (labor_browse_pages (entries emt_table) EmptyString
                                EmptyString "emt" 1) H))).
Defined.

(** * [cost_calculator.py]: loading the parts list *)

Lemma dict_set_keys (k v : string) (d : str_dict) :
  map fst (dict_set k v d)
  = if Py.mem k (map fst d) then map fst d else (map fst d ++ [k])%list.
Proof.
  induction d as [| [k' v'] d IH]; [reflexivity |].
  cbn [dict_set map fst]. unfold Py.mem in *. cbn [existsb].
  rewrite (String.eqb_sym k k').
  destruct (String.eqb k' k); [reflexivity |].
  cbn [map fst orb]. rewrite IH.
  now destruct (existsb (String.eqb k) (map fst d)).
Qed.

Lemma dict_set_clean (k v : string) (d : str_dict) :
  clean_pair (k, v) -> clean_part d -> clean_part (dict_set k v d).
Proof.
  intros Hkv [Hnd Hall]. split.
  - rewrite dict_set_keys.
    destruct (Py.mem k (map fst d)) eqn:E; [exact Hnd |].
    apply NoDup_app; [exact Hnd | repeat constructor; intros [] |].
    intros x Hx [Ex | []]. subst x.
    unfold Py.mem in E.
    assert (Ht : existsb (String.eqb k) (map fst d) = true)
      by (apply existsb_exists; exists k; split;
          [exact Hx | apply String.eqb_refl]).
    rewrite Ht in E. discriminate.
  - clear Hnd. induction Hall as [| [k' v'] d Hx Hs IH]; cbn [dict_set].
    + constructor; [exact Hkv | constructor].
    + destruct (String.eqb k' k) eqn:E.
      * apply String.eqb_eq in E. subst k'.
        constructor; [exact Hkv | exact Hs].
      * constructor; [exact Hx | exact IH].
Qed.

Lemma clean_item_clean (part : str_dict) (item : option string * option string) :
  clean_part part -> clean_part (clean_item part item).
Proof.
  intros Hp. unfold clean_item.
  destruct (fst item) as [key |]; [| exact Hp].
  destruct (Py.is_empty (Py.strip key)) eqn:E; [exact Hp |].
  apply dict_set_clean; [| exact Hp].
  unfold clean_pair. cbn [fst snd].
  split; [exact E | split; [apply strip_idem |]].
  destruct (snd item) as [val |]; [| reflexivity].
  destruct (Py.is_empty val); [reflexivity | apply strip_idem].
Qed.

Lemma clean_row_clean (row : csv_row) : clean_part (clean_row row).
Proof.
  unfold clean_row.
  assert (H : forall part, clean_part part -> clean_part (fold_left clean_item row part)).
  { induction row as [| item row IH]; intros part Hp; [exact Hp |].
    cbn [fold_left]. apply IH. now apply clean_item_clean. }
  apply H. split; constructor.
Qed.

(** X15. Every part that [load_parts_list] returns has at least one column;
    its keys are distinct, not empty and without whitespace at either end, and
    its values are without whitespace at either end; there are at most as
    many parts as rows.  A file that cannot be read raises the exception of
    the step that fails: an [OSError] when it cannot be opened, a
    [UnicodeDecodeError] when its bytes are not UTF-8, a [csv.Error] when the
    reader rejects its text. *)
Theorem load_parts_list_clean (fs : parts_filesystem) (csv_path : string) :
  match fs csv_path with
  | Unopenable => load_parts_list fs csv_path = Raise OSError
  | Undecodable => load_parts_list fs csv_path = Raise UnicodeDecodeError
  | Unparsable => load_parts_list fs csv_path = Raise csv_Error
  | Rows rows =>
      exists parts,
        load_parts_list fs csv_path = Ok parts
        /\ (length parts <= length rows)%nat
        /\ Forall (fun part => part <> [] /\ clean_part part) parts
  end.
Proof.
  unfold load_parts_list.
  destruct (fs csv_path) as [| | | rows]; try reflexivity.
  eexists. split; [reflexivity | split].
  - rewrite <- (length_map clean_row rows). apply filter_length_le.
  - apply Forall_forall. intros part H. apply filter_In in H.
    destruct H as [Hin Hne]. apply in_map_iff in Hin.
    destruct Hin as [row [<- _]]. split; [| apply clean_row_clean].
    intros E. rewrite E in Hne. discriminate.
Qed.

(** * Match quality *)

Lemma quality_cases (c : option Q) :
  (is_needs_review c = true /\ is_low_confidence c = false
   /\ is_good_match c = false /\ status (get_confidence c) = "NEEDS REVIEW")
  \/ (is_needs_review c = false /\ is_low_confidence c = true
      /\ is_good_match c = false /\ status (get_confidence c) = "LOW CONFIDENCE")
  \/ (is_needs_review c = false /\ is_low_confidence c = false
      /\ is_good_match c = true /\ status (get_confidence c) = "OK").
Proof.
  unfold is_needs_review, is_low_confidence, is_good_match, status.
  destruct (Qlt_le_dec 30 (get_confidence c)) as [H30 | H30];
    destruct (Qlt_le_dec 50 (get_confidence c)) as [H50 | H50]; try tauto.
  exfalso. apply (Qlt_irrefl 30).
  apply Qlt_trans with 50%Q; [reflexivity |].
  exact (Qlt_le_trans _ _ _ H50 H30).
Qed.

(** X16. The three quality lists split the results: each result is in
    exactly one of them, the one that the status printed for its confidence
    names, so the results are the three lists put together up to order and
    the three counts add up to the number of results. *)
Theorem match_quality_partition
        (Row : Type) (Labor_Confidence : Row -> option Q) (results : list Row) :
  Permutation results
              (needs_review Row Labor_Confidence results
               ++ low_confidence Row Labor_Confidence results
               ++ good_matches Row Labor_Confidence results)
  /\ (length (needs_review Row Labor_Confidence results)
      + length (low_confidence Row Labor_Confidence results)
      + length (good_matches Row Labor_Confidence results)
      = length results)%nat
  /\ Forall (fun r => status (get_confidence (Labor_Confidence r)) = "NEEDS REVIEW")
            (needs_review Row Labor_Confidence results)
  /\ Forall (fun r => status (get_confidence (Labor_Confidence r)) = "LOW CONFIDENCE")
            (low_confidence Row Labor_Confidence results)
  /\ Forall (fun r => status (get_confidence (Labor_Confidence r)) = "OK")
            (good_matches Row Labor_Confidence results).
Proof.
  assert (HP : Permutation results
              (needs_review Row Labor_Confidence results
               ++ low_confidence Row Labor_Confidence results
               ++ good_matches Row Labor_Confidence results)).
  { unfold needs_review, low_confidence, good_matches.
    induction results as [| r results IH]; [constructor |].
    cbn [filter].
    destruct (quality_cases (Labor_Confidence r))
      as [(-> & -> & -> & _) | [(-> & -> & -> & _) | (-> & -> & -> & _)]].
    - cbn [app]. now constructor.
    - apply Permutation_cons_app. exact IH.
    - rewrite app_assoc. apply Permutation_cons_app.
      now rewrite <- app_assoc. }
  split; [exact HP | split].
  - apply Permutation_length in HP. rewrite !length_app in HP. lia.
  - repeat split; apply Forall_forall; intros r Hr; apply filter_In in Hr;
      destruct Hr as [_ Hr];
      destruct (quality_cases (Labor_Confidence r))
        as [(H1 & H2 & H3 & Hs) | [(H1 & H2 & H3 & Hs) | (H1 & H2 & H3 & Hs)]];
      congruence.
Qed.

(** X17. A part is costed exactly when the confidence of [best_match] is
    above 30, and these are the parts whose status is not "NEEDS REVIEW":
    when [best_match] returns no entry the confidence is 0, so the row marked
    for manual lookup and the status agree; an entry returned with a
    confidence of at most 30 is discarded. *)
Theorem labor_accepted_iff_status
        (fuzz : fuzz_module) (self : LaborMatcher) (query : string) :
  let best := best_match fuzz self query in
  let confidence := snd (fst best) in
  (labor_accepted best = true <-> (30 < confidence)%Q)
  /\ (labor_accepted best = false <-> status confidence = "NEEDS REVIEW").
Proof.
  intros best confidence. subst confidence.
  assert (Hnone : fst (fst best) = None -> snd (fst best) = 0%Q).
  { subst best.
    destruct (best_match_cases fuzz self query) as [[_ E] | [top [rest [_ E]]]];
      rewrite E; cbn [fst snd]; [reflexivity | discriminate]. }
  destruct best as [[oe conf] reason]. cbn [fst snd] in *.
  unfold labor_accepted, status.
  destruct oe as [e |].
  - destruct (Qlt_le_dec 30 conf) as [H30 | H30].
    + split; [tauto |]. split; [discriminate |].
      destruct (Qlt_le_dec 50 conf); discriminate.
    + split.
      * split; [discriminate |]. intros H. exfalso. exact (Qlt_not_le _ _ H H30).
      * split; [intros _ | reflexivity].
        destruct (Qlt_le_dec 50 conf) as [H50 | _]; [| reflexivity].
        exfalso. apply (Qlt_irrefl 30). apply Qlt_trans with 50%Q; [reflexivity |].
        exact (Qlt_le_trans _ _ _ H50 H30).
  - rewrite (Hnone eq_refl). split.
    + split; [discriminate | intros H; discriminate H].
    + split; reflexivity.
Qed.

(** * [price_scraper.py]: the cache key *)

(** X18. The cache key of a query does not depend on its letter case nor on
    the whitespace around it, and it is already in the form it gives to a
    query. *)
Theorem cache_key_normal_form (vendor query : string) :
  _cache_key vendor (Py.lower query) = _cache_key vendor query
  /\ _cache_key vendor (Py.strip query) = _cache_key vendor query
  /\ _cache_key vendor (Py.strip (Py.lower query)) = _cache_key vendor query.
Proof.
  unfold _cache_key. repeat split.
  - now rewrite lower_idem.
  - now rewrite lower_strip, strip_idem.
  - now rewrite lower_strip, lower_idem, strip_idem.
Qed.

(** * A fraction as label and as query *)

Lemma replace_char_app (a : ascii) (new x y : string) :
  Py.replace (String a EmptyString) new (x ++ y)
  = Py.replace (String a EmptyString) new x
    ++ Py.replace (String a EmptyString) new y.
Proof.
  induction x as [| c x IH]; [reflexivity |].
  cbn [append]. rewrite !replace_char_cons, IH.
  destruct (ascii_dec a c); [now rewrite str_app_assoc | reflexivity].
Qed.

Lemma replace_char_id (a : ascii) (new s : string) :
  all_chars (fun c => negb (Ascii.eqb c a)) s = true ->
  Py.replace (String a EmptyString) new s = s.
Proof.
  induction s as [| c s IH]; [reflexivity |].
  cbn [all_chars]. intros H. apply andb_true_iff in H. destruct H as [Hc Hs].
  rewrite replace_char_cons, (IH Hs).
  destruct (ascii_dec a c) as [<- | _]; [| reflexivity].
  rewrite Ascii.eqb_refl in Hc. discriminate.
Qed.

Lemma replace_two_apostrophes_id (s : string) :
  all_chars not_quote s = true -> Py.replace "''" EmptyString s = s.
Proof.
  unfold Py.replace. induction s as [| c s IH]; [reflexivity |].
  cbn [all_chars]. intros H. apply andb_true_iff in H. destruct H as [Hc Hs].
  cbn [Py.replace_from prefix].
  destruct (ascii_dec "'" c) as [<- | _]; [discriminate Hc |].
  now rewrite (IH Hs).
Qed.

Lemma digits_facts (s : string) :
  all_chars Py.is_digit s = true ->
  all_chars not_quote s = true
  /\ all_chars (fun c => negb (Ascii.eqb c Py.dquote)) s = true.
Proof.
  intros H. split; apply (all_chars_weaken Py.is_digit); try exact H;
    intros c Hc; destruct c as [[] [] [] [] [] [] [] []];
    try discriminate Hc; reflexivity.
Qed.

Lemma fraction_text_facts (num den : string) :
  all_chars Py.is_digit num = true -> all_chars Py.is_digit den = true ->
  all_chars not_quote (fraction_text num den) = true
  /\ all_chars (fun c => negb (Ascii.eqb c Py.dquote)) (fraction_text num den)
     = true.
Proof.
  intros Hn Hd. unfold fraction_text.
  destruct (digits_facts num Hn) as [N1 N2].
  destruct (digits_facts den Hd) as [D1 D2].
  split; rewrite !all_chars_app; cbn [all_chars append].
  - now rewrite N1, D1.
  - now rewrite N2, D2.
Qed.

Lemma fraction_text_ends (num den : string) :
  all_chars Py.is_digit num = true -> all_chars Py.is_digit den = true ->
  Py.is_empty num = false -> Py.is_empty den = false ->
  exists c d, Py.head (fraction_text num den) = Some c /\ Py.is_space c = false
              /\ Py.last (fraction_text num den) = Some d /\ Py.is_space d = false.
Proof.
  intros Hn Hd En Ed. unfold fraction_text.
  destruct num as [| c num]; [discriminate |].
  cbn [all_chars] in Hn. apply andb_true_iff in Hn. destruct Hn as [Hc _].
  destruct (last_all_chars _ _ Hd Ed) as [d [Hl Hdd]].
  exists c, d. repeat split.
  - now apply digit_not_space.
  - change (String c num ++ "/" ++ den) with (String c num ++ ("/" ++ den)).
    rewrite last_app_nonempty by reflexivity.
    change ("/" ++ den) with (String "/" EmptyString ++ den).
    now rewrite last_app_nonempty.
  - now apply digit_not_space.
Qed.

(** The size pattern on a text that starts with a fraction. *)
Lemma size_at_fraction (num den tail : string) :
  all_chars Py.is_digit num = true -> all_chars Py.is_digit den = true ->
  Py.is_empty num = false -> Py.is_empty den = false ->
  match Py.head tail with
  | Some c => Py.is_digit c = false
  | None => True
  end ->
  Re.mixed_number (fraction_text num den ++ tail) = None
  /\ Re.fraction (fraction_text num den ++ tail)
     = Some (fraction_text num den, tail).
Proof.
  intros Hn Hd En Ed Ht. unfold fraction_text.
  assert (E : (num ++ "/" ++ den) ++ tail = num ++ String "/" (den ++ tail))
    by (now rewrite !str_app_assoc).
  rewrite E. unfold Re.mixed_number, Re.fraction.
  rewrite (span_app Py.is_digit num (String "/" (den ++ tail)) Hn eq_refl).
  rewrite (span_stop Py.is_space (String "/" (den ++ tail)) eq_refl).
  rewrite (span_stop Py.is_digit (String "/" (den ++ tail)) eq_refl).
  rewrite (span_app Py.is_digit den tail Hd Ht).
  rewrite En, Ed. cbn [Py.is_empty orb]. split; reflexivity.
Qed.

Lemma search_size_at (s m rest : string) :
  Re.size_at s = Some (m, rest) -> Re.search_size s = Some m.
Proof.
  intros H. destruct s; cbn [Re.search_size]; now rewrite H.
Qed.

(** X19. A label that is a fraction followed by the inch mark yields that
    fraction, a text that starts with the fraction and goes on with something
    that is not a digit yields it too, and so an entry with such a label earns
    the size bonus of 30 for a query size equal to the fraction. *)
Theorem fraction_label_matches_query
        (num den tail : string) (entry : Entry) :
  all_chars Py.is_digit num = true -> all_chars Py.is_digit den = true ->
  Py.is_empty num = false -> Py.is_empty den = false ->
  match Py.head tail with
  | Some c => Py.is_digit c = false
  | None => True
  end ->
  e_Item entry = inch (fraction_text num den) ->
  extract_size_from_item (e_Item entry) = fraction_text num den
  /\ extract_size (fraction_text num den ++ tail) = fraction_text num den
  /\ size_bonus (extract_size (fraction_text num den ++ tail)) entry = 30.
Proof.
  intros Hn Hd En Ed Ht Hi.
  destruct (fraction_text_facts num den Hn Hd) as [Hq Hdq].
  destruct (fraction_text_ends num den Hn Hd En Ed) as (c & d & Hh & Hc & Hl & Hdd).
  destruct (size_at_fraction num den EmptyString Hn Hd En Ed I) as [M0 F0].
  rewrite str_app_nil_r in M0, F0.
  assert (E1 : extract_size_from_item (e_Item entry) = fraction_text num den).
  { rewrite Hi. unfold extract_size_from_item, inch.
    rewrite replace_char_app, (replace_char_id _ _ _ Hdq).
    change (Py.replace (String Py.dquote EmptyString) EmptyString
                       (String Py.dquote EmptyString)) with EmptyString.
    rewrite str_app_nil_r, (replace_two_apostrophes_id _ Hq).
    rewrite (strip_id _ c d Hh Hc Hl Hdd).
    unfold Re.match_item_size. now rewrite M0, F0. }
  assert (E2 : extract_size (fraction_text num den ++ tail) = fraction_text num den).
  { destruct (size_at_fraction num den tail Hn Hd En Ed Ht) as [M F].
    unfold extract_size.
    rewrite (search_size_at _ (fraction_text num den) tail)
      by (unfold Re.size_at; now rewrite M, F).
    exact (strip_id _ c d Hh Hc Hl Hdd). }
  split; [exact E1 | split; [exact E2 |]].
  rewrite E2. unfold size_bonus, entry_size. rewrite E1.
  destruct (fraction_text num den) as [| x f] eqn:Ef; [discriminate Hh |].
  cbn [Py.is_empty]. now rewrite String.eqb_refl.
Qed.

Lemma fraction_label_matches_query_witness :
  e_Item emt_three_quarter = inch (fraction_text "3" "4")
  /\ size_bonus (extract_size (fraction_text "3" "4" ++ " emt")) emt_three_quarter
     = 30.
Proof.
  assert (H : e_Item emt_three_quarter = inch (fraction_text "3" "4"))
    by reflexivity.
  split; [exact H |].
  exact (proj2 (proj2 (fraction_label_matches_query "3" "4" " emt" emt_three_quarter
                         eq_refl eq_refl eq_refl eq_refl eq_refl H))).
Defined.

(** * A blank query *)

Lemma blank_query_signal (query : string) (entry : Entry) :
  normalize_description query = EmptyString -> signal_score query entry = 0.
Proof.
  intros H. unfold signal_score. rewrite H, score_signals_sum.
  change (extract_size EmptyString) with EmptyString.
  change (_extract_keywords EmptyString) with (@nil string).
  reflexivity.
Qed.

(** X20. For a query that normalises to the empty string, such as the empty
    query or one made of whitespace, no alias, size, keyword or penalty
    applies: the score of every entry is three tenths of its similarity
    ratio.  With ratios from 0 to 100 the confidence of [best_match] is then at
    most 30, and the labor of such a part is never costed. *)
Theorem blank_query_never_accepted
        (fuzz : fuzz_module) (self : LaborMatcher) (query : string) :
  normalize_description query = EmptyString ->
  ratio_in_range fuzz ->
  (forall entry,
      (entry_score fuzz query entry
       == inject_Z (token_set_ratio fuzz EmptyString (combined_text entry))
          * (3 # 10))%Q)
  /\ (snd (fst (best_match fuzz self query)) <= 30)%Q
  /\ labor_accepted (best_match fuzz self query) = false.
Proof.
  intros Hq Hr.
  assert (Hs : forall entry,
             (entry_score fuzz query entry
              == inject_Z (token_set_ratio fuzz EmptyString (combined_text entry))
                 * (3 # 10))%Q).
  { intros entry. rewrite entry_score_split, (blank_query_signal _ _ Hq).
    unfold query_ratio. rewrite Hq. ring. }
  assert (Hle : forall entry, (entry_score fuzz query entry <= 30)%Q).
  { intros entry. rewrite entry_score_tenths, (blank_query_signal _ _ Hq).
    setoid_replace 30%Q with (300 # 10) by reflexivity.
    apply tenths_le. unfold query_ratio.
    pose proof (Hr (normalize_description query) (combined_text entry)). lia. }
  assert (Hc : (snd (fst (best_match fuzz self query)) <= 30)%Q).
  { destruct (best_match fuzz self query) as [[oe conf] reason] eqn:E.
    cbn [fst snd]. destruct oe as [e |].
    - destruct (best_match_some_max fuzz self query e conf reason E)
        as [_ [_ [_ ->]]].
      rewrite py_min_Qmin. apply Qle_trans with (round1 (entry_score fuzz query e)).
      + apply Q.le_min_r.
      + rewrite round1_entry_score. apply Hle.
    - destruct (best_match_cases fuzz self query) as [[_ E'] | [top [rest [_ E']]]];
        rewrite E' in E; [| discriminate].
      injection E as <- _. discriminate. }
  split; [exact Hs | split; [exact Hc |]].
  destruct (best_match fuzz self query) as [[oe conf] reason].
  cbn [fst snd] in Hc. unfold labor_accepted.
  destruct oe; [| reflexivity].
  destruct (Qlt_le_dec 30 conf) as [H |]; [| reflexivity].
  exfalso. exact (Qlt_not_le _ _ H Hc).
Qed.

Lemma blank_query_never_accepted_witness :
  normalize_description "   " = EmptyString
  /\ ratio_in_range exact_fuzz
  /\ labor_accepted (best_match exact_fuzz emt_table "   ") = false.
Proof.
  assert (H : normalize_description "   " = EmptyString) by reflexivity.
  split; [exact H | split; [exact exact_fuzz_in_range |]].
  exact (proj2 (proj2 (blank_query_never_accepted exact_fuzz emt_table "   " H
                         exact_fuzz_in_range))).
Defined.

Lemma labor_accepted_iff_status_witness :
  (30 < snd (fst (best_match exact_fuzz emt_table "emt")))%Q
  /\ labor_accepted (best_match exact_fuzz emt_table "emt") = true.
Proof.
  assert (H : (30 < snd (fst (best_match exact_fuzz emt_table "emt")))%Q)
    by (vm_compute; reflexivity).
  split; [exact H |].
  exact (proj2 (proj1 (labor_accepted_iff_status exact_fuzz emt_table "emt")) H).
Defined.
